(* ===== verification/_CoqProject ===== *)
-Q . S2P
Prelude.v
JsString.v
JsArray.v
JsNumber.v
Types.v
Json.v
JsonRef.v
Storage.v
Store.v
Quiz.v
Result.v
Gemini.v
App.v
Board.v
Session.v
Html.v
Layout.v
Screens.v
View.v
