(* ===== verification/Prelude.v ===== *)
(** * AI quiz application (React/TypeScript): a verification development

    The program is a single-page quiz.  [src/App.tsx] holds the component
    [App], which keeps the session (one of the five values of [appState]:
    WELCOME, LOADING, QUIZ, RESULT, ERROR) and renders one screen for each
    value, and the screens [WelcomeScreen], [QuizScreen], [ResultScreen].
    [src/services/storage.ts] keeps the leaderboard in the browser's
    [localStorage]; [src/services/gemini.ts] asks a generative model for
    the questions; [src/types.ts] declares the data types.  [App] calls
    [getLeaderboard] when it is mounted, the provider when the user submits
    a name, and [saveScore] when [QuizScreen] finishes.

    This library models those parts as Rocq definitions, one file for each
    part, and proves the properties that make each part correct.

    ** Files, in dependency order

    - [Prelude] (this file): the type [result], in which a JavaScript
      [throw] is a value, with its bind, [try_catch] and [try_catch_with];
      the tactics
      [case_scrutinee] and [bool_to_prop]; the hint database [quiz]; the
      lemmas on lists the components share.
    - [JsString]: strings as lists of UTF-16 code units, the white space
      of ECMAScript, [trim], truthiness of a string, literals ([js])
      decoded from UTF-8, and the values a [throw] carries ([exn]).
    - [JsArray]: [Array.prototype.sort] under a comparator as a stable
      insertion sort, [slice(0, n)], the spread with one more element.
      The result of [sort] is ordered, a permutation and stable, and is the
      only list with these properties ([sort_unique]), so that nothing
      depends on the algorithm chosen; on an ordered list with one element
      appended it is [place], whose position is [rank].
    - [JsNumber]: IEEE 754 binary64 numbers (the Standard Library's
      [SpecFloat] at precision 53 and exponent bound 1024), [+], [/] and
      [Math.round].
    - [Types]: [src/types.ts]: the enum [AppState] and the interfaces
      [Question], [LeaderboardEntry], [QuizConfig] as records.
    - [Json]: JSON values and the interface [JsonCodec]: what the program
      assumes of [JSON.parse] and [JSON.stringify] (the round trip on
      values an engine prints exactly, a text that is never empty, a
      [SyntaxError] as the only failure of parsing).
    - [JsonRef]: a reference implementation of the interface, a printer
      and a recursive-descent parser for [null], booleans, integers,
      strings, arrays and objects, with the proof that it meets the
      interface.  The theorems of the other files hold for every
      implementation; this one lets them be evaluated.
    - [Storage]: [src/services/storage.ts]: [getLeaderboard], [saveScore],
      [resetLeaderboard] over [localStorage] as a finite map from keys to
      strings.
    - [Store]: the store of the specification (its section 4.2) as an
      interface: the class [LeaderboardStore] of the operations [load],
      [record] and [clear] over a state, and the class
      [LeaderboardStoreLaws] of what [load] returns after each; its
      instances [list_store], the list a store stands for, and
      [local_store], the three functions of [src/services/storage.ts];
      [observe], a sequence of calls with what each returns.
    - [Quiz]: the component [QuizScreen] of [src/App.tsx] (lines 99-219),
      Module [QuizScreen]: its four state variables as the record [State],
      [handleOptionClick], [handleNext], [getOptionStyle], the conditions
      under which its buttons are rendered and enabled, and [play], a whole
      quiz as the two handlers in turn.
    - [Result]: the component [ResultScreen] of [src/App.tsx] (lines
      232-290), Module [ResultScreen]: [isHighScore] with the clock as an
      argument, the message by score, the five rows and their classes.
    - [Gemini]: [src/services/gemini.ts]: [getApiKey] over [process.env]
      as an optional map, the request with its response schema, and
      [generateQuizQuestions] with the answer of the service as an
      argument: the check of the key, the parse of the response, the
      re-numbering of the ids, the errors thrown.
    - [App]: the component [App] (lines 295-393) and [WelcomeScreen]
      (lines 11-96) of [src/App.tsx]: the six state variables as the record
      [AppData], [handleStart] split at its [await] into
      [handleStart_begin], [handleStart_resolved], [handleStart_rejected],
      [handleQuizFinish], [handleResetLeaderboard], [handleRestart],
      [handleSubmit], and the page as a transition system: the state
      [System], the events [Event], the relation [step], the function
      [dispatch], the reachable states and their invariant [inv].
      [handleStart] composes the page with the provider of [Gemini].
    - [Board]: the page as a client of the store: [store_call], the call
      of [saveScore] or [resetLeaderboard] an event makes (lines 322-335
      of [src/App.tsx]), and [store_calls], the calls of a sequence of
      events.
    - [Session]: the session state machine of the specification (its
      section 4.1), Module [Session]: the abstract state [State], the
      triggers, and the table as the function [step]; and the page of
      [App] against it: [trigger] maps an event of the page to a trigger
      of the machine, [contract] is what the specification promises of a
      batch, [simulates] relates a state of the page to a state of the
      machine.
    - [Html]: element trees, what a component returns: elements with a
      tag, properties (class, key, [disabled], handlers) and children, and
      texts; [handlers] are the handlers a user can fire, [keys_ok] is
      React's requirement on the keys of siblings, [text_content] the text
      on display.
    - [Layout]: [src/components/Layout.tsx]: the frame of the page around
      its children.
    - [Screens]: the JSX that [WelcomeScreen] (lines 23-95), [QuizScreen]
      (lines 151-217), [LoadingScreen] (lines 221-229) and [ResultScreen]
      (lines 239-289) return, as trees over the handlers [Handler].
    - [View]: the error screen and the tree [App] returns ([App_view],
      lines 343-392), the handler each event of the user fires ([emits]),
      and the page as the user meets it, against the transition relation
      of [App].

    ** How the model corresponds to the code

    A state variable of a component ([useState]) is a field of a record,
    and a handler is a function from the record (and the handler's
    arguments) to the record after the updates of that handler, which React
    applies together.  What the environment supplies is an argument of the
    operation or of the event: the identifier and time stamp of a new entry
    ([crypto.randomUUID()], [Date.now()]), the answer of the service to
    the request ([upstream]), the completion of the provider call (events
    [Resolved] and [Rejected]), the answer to [confirm].  A
    [throw] is the constructor [Throw] of [result]; [try]/[catch] is
    [try_catch].  A number that is an integer wherever the program writes
    it (a rounded score, a time stamp, an index) is a [Z] or a [nat]; the
    running score of [QuizScreen], which is fractional, is a binary64
    number.  A screen that is not on display has no state; the model keeps
    a field for it that is reset when the screen is mounted ([render]).
    What a component returns is an element tree: the JSX translated
    element by element, with the class names and texts of the source; an
    expression [{cond && x}] is a child that is there when [cond] holds,
    [{list.map(f)}] the elements of the list, a number its decimal text.
    A handler of the tree is a name ([Handler]) for the function the
    element calls.

    ** What the theorems show

    - [Storage]: [saveScore] returns and stores a list ordered by score, of
      at most 100 entries, that [getLeaderboard] reads back
      ([saveScore_correct]); the new entry stands behind the entries that
      score at least as much and only the last entry leaves
      ([saveScore_position]), and is not recorded at all when 100 entries
      score at least as much ([saveScore_dropped]); a missing or corrupt
      text is read as the empty list ([getLeaderboard_recovers]);
      [resetLeaderboard] empties the list; only the key of the leaderboard
      is written; the result does not depend on the sorting algorithm.
      The functions respect [same_item]: states of [localStorage] with
      the same item under the key of the leaderboard are the same store
      ([getLeaderboard_proper], [saveScore_proper]).
    - [Store]: the functions of [src/services/storage.ts] implement the
      store of the specification ([localStorage_refines]): whatever the
      calls, each returns the list the same call returns on the list the
      store stood for at the start.  The lemmas on sequences of calls
      ([stores_agree], [observe_ok]) are proved from the laws and hold
      for every store that keeps them.
    - [Quiz]: the first answer to a question binds; the handlers keep the
      state well formed; a quiz of 20 questions ends with five points for
      each correct answer; a quiz of at most 100 questions ends with an
      integer between 0 and 100; for 24 questions the binary64 sum rounds
      differently from the exact one ([quiz_24_rounding]).
    - [Result]: which rows the result screen highlights, and which
      message it shows for which score.
    - [Gemini]: the provider returns a batch only with a key, a response
      with text and a text that parses into an array, and throws
      otherwise ([provider_fails_closed]); without a key it throws before
      any request; the ids of a batch are 1, 2, ...; a response of the
      shape of the schema is accepted, and nothing else about it is
      checked ([provider_unvalidated]).
    - [App]: the invariant of every reachable state and its consequences
      (a provider call is outstanding exactly in LOADING; the page shows
      the leaderboard the store holds; the name is trimmed and not empty
      outside WELCOME; the retry button always retries); every step follows
      the session state machine of the specification; the quiz screen
      never blocks on a batch with questions and always blocks on an empty
      one; the page runs a quiz as [QuizScreen.play] does; the end-to-end
      scenario of twenty correct answers.
    - [Session]: the page refines the machine ([run_refines_session]):
      when every batch has twenty well-formed questions, the machine fed
      the triggers of the events takes every step and its state describes
      the page at the end; and the page offers every step the machine
      allows ([page_progress]).  The running score of the machine is the
      exact one; the proof uses that binary64 sums of fives are exact.
    - [Board]: the page keeps the leaderboard through the store
      ([page_uses_store]): after any sequence of events [localStorage] is
      what the calls of the sequence left, and the leaderboard on display
      is the list those calls make of the list loaded at the start.  The
      proof uses the page through [inv] and the store through [observe]
      and the laws of [Store].
    - [App], again: the quiz ends ([quiz_terminates]): every step inside
      the quiz uses up one of the two events the screen has for each
      question that is left ([quiz_measure]).
    - [View]: the events the transition relation accepts are the ones
      whose handler an enabled element of the tree carries
      ([view_enables]), so the premises of the rules of [step] are the
      conditions of the markup; the keys of the tree are in order as long
      as identifiers are fresh ([view_keys]); the result screen highlights
      the row of the new entry when it is among the first five and the
      screen renders within a second ([new_entry_highlighted]).

    Each theorem that has hypotheses is applied to example data in a lemma
    named after it ([..._witness]).

    ** Bounds and fuel

    Strings and lists have no bound.  The size of the leaderboard (100)
    and the number of questions asked for (20) are the constants of the
    code.  The properties of binary64 scores are proved by evaluation, for
    every batch of 1 to [max_batch] = 100 questions and every number of
    correct answers; the invariant of the page therefore assumes that a
    batch has at most 100 questions ([env_ok]).  Integers in JSON texts are
    the safe integers (below 2^53 in absolute value), which an engine
    prints exactly.  The reference parser recurses on fuel; [parse] gives
    it the length of the text plus one, which is enough for every text a
    value is printed as ([fuel_of_le_length]).

    ** Not modelled

    What the browser draws from the tree (layout, colours, focus); the
    decimal text of the width of the progress bar, which is kept as a
    number; the form validation of the browser ([required]); the network
    call of [src/services/gemini.ts]; a response whose elements are not
    objects with the properties of a question (the result is [None]);
    exceptions of [localStorage] itself; several tabs writing the same
    store; JSON numbers with a fraction or an exponent and the
    replacement of lone surrogates when printing; that [Date.now()] is
    read once for each entry tested while [ResultScreen] renders (the
    model reads it once for the render).
*)

From Stdlib Require Export ZArith Lia.
From stdpp Require Export prelude sorting.

Declare Scope js_scope.
Delimit Scope js_scope with js.

(** ** Results of operations that may throw *)

(** A JavaScript expression either yields a value or throws.  [Throw e]
    carries the thrown value. *)
Inductive result (E A : Type) : Type :=
  | Ok (a : A)
  | Throw (e : E).
Arguments Ok {E A} a.
Arguments Throw {E A} e.

#[export] Instance result_eq_dec {E A} `{EqDecision E, EqDecision A} :
  EqDecision (result E A).
Proof. solve_decision. Defined.

Definition result_bind {E A B} (f : A → result E B) (r : result E A) :
    result E B :=
  match r with
  | Ok a => f a
  | Throw e => Throw e
  end.

Definition result_map {E A B} (f : A → B) (r : result E A) : result E B :=
  match r with
  | Ok a => Ok (f a)
  | Throw e => Throw e
  end.

(** [try { r } catch { d }]: the handler's value replaces any thrown one. *)
Definition try_catch {E A} (r : result E A) (d : E → A) : A :=
  match r with
  | Ok a => a
  | Throw e => d e
  end.

(** [try { r } catch (e) { h e }] where the handler may throw again. *)
Definition try_catch_with {E A} (r : result E A) (h : E → result E A) :
    result E A :=
  match r with
  | Ok a => Ok a
  | Throw e => h e
  end.

Definition is_Ok {E A} (r : result E A) : Prop := ∃ a, r = Ok a.

#[export] Instance is_Ok_dec {E A} (r : result E A) : Decision (is_Ok r).
Proof.
  destruct r as [a|e]; [left; by exists a | right; by intros [? ?]].
Defined.

Notation "x ←! r ; k" := (result_bind (λ x, k) r)
  (at level 20, r at level 100, k at level 200, right associativity,
   format "x  ←!  r ;  '/' k") : js_scope.

(** ** Tactics *)

(** Case analysis on the scrutinee of the first [match] or [if] of the goal
    or of a hypothesis, keeping the equation. *)
Ltac case_scrutinee :=
  match goal with
  | |- context [match ?x with _ => _ end] =>
      let E := fresh "Hcase" in destruct x eqn:E
  | H : context [match ?x with _ => _ end] |- _ =>
      let E := fresh "Hcase" in destruct x eqn:E
  end.

(** Turn boolean tests in the hypotheses into propositions. *)
Ltac bool_to_prop :=
  repeat match goal with
  | H : (_ <? _)%Z = true |- _ => apply Z.ltb_lt in H
  | H : (_ <? _)%Z = false |- _ => apply Z.ltb_ge in H
  | H : (_ <=? _)%Z = true |- _ => apply Z.leb_le in H
  | H : (_ <=? _)%Z = false |- _ => apply Z.leb_gt in H
  | H : (_ =? _)%Z = true |- _ => apply Z.eqb_eq in H
  | H : (_ =? _)%Z = false |- _ => apply Z.eqb_neq in H
  | H : (_ <? _)%nat = true |- _ => apply Nat.ltb_lt in H
  | H : (_ <? _)%nat = false |- _ => apply Nat.ltb_ge in H
  | H : (_ <=? _)%nat = true |- _ => apply Nat.leb_le in H
  | H : (_ <=? _)%nat = false |- _ => apply Nat.leb_gt in H
  | H : (_ =? _)%nat = true |- _ => apply Nat.eqb_eq in H
  | H : (_ =? _)%nat = false |- _ => apply Nat.eqb_neq in H
  | H : (_ <? _)%N = true |- _ => apply N.ltb_lt in H
  | H : (_ <? _)%N = false |- _ => apply N.ltb_ge in H
  | H : (_ <=? _)%N = true |- _ => apply N.leb_le in H
  | H : (_ <=? _)%N = false |- _ => apply N.leb_gt in H
  | H : (_ =? _)%N = true |- _ => apply N.eqb_eq in H
  | H : (_ =? _)%N = false |- _ => apply N.eqb_neq in H
  | H : bool_decide _ = true |- _ => apply bool_decide_eq_true in H
  | H : bool_decide _ = false |- _ => apply bool_decide_eq_false in H
  | H : _ && _ = true |- _ => apply andb_true_iff in H; destruct H
  | H : negb _ = true |- _ => apply negb_true_iff in H
  | H : negb _ = false |- _ => apply negb_false_iff in H
  end.

(** The hint database of the development: each component adds the lemmas
    that close its routine side conditions. *)
Create HintDb quiz discriminated.
Create Rewrite HintDb quiz.

(** ** Laws of [result] *)

Section result_laws.
Context {E A B C : Type}.
Implicit Types (r : result E A) (f : A → result E B) (g : B → result E C).

Lemma result_bind_Ok a f : result_bind f (Ok a) = f a.
Proof. done. Qed.

Lemma result_bind_ret r : result_bind Ok r = r.
Proof. by destruct r. Qed.

Lemma result_bind_assoc r f g :
  result_bind g (result_bind f r) = result_bind (λ a, result_bind g (f a)) r.
Proof. by destruct r. Qed.

Lemma result_bind_Ok_inv r f b :
  result_bind f r = Ok b ↔ ∃ a, r = Ok a ∧ f a = Ok b.
Proof. destruct r; naive_solver. Qed.

Lemma try_catch_Ok r d a : r = Ok a → try_catch r d = a.
Proof. by intros ->. Qed.

Lemma try_catch_Throw r d e : r = Throw e → try_catch r d = d e.
Proof. by intros ->. Qed.
End result_laws.

#[export] Hint Rewrite @result_bind_Ok @result_bind_ret : quiz.

(** ** Lists *)

Section list_lemmas.
Context {A : Type}.
Implicit Types (l k : list A) (x : A) (n : nat).

Lemma take_length_min l n : length (take n l) = n `min` length l.
Proof. by rewrite length_take. Qed.

Lemma take_all l n : length l ≤ n → take n l = l.
Proof. apply take_ge. Qed.

(** A prefix of a strongly sorted list is strongly sorted. *)
Lemma StronglySorted_take (R : relation A) l n :
  StronglySorted R l → StronglySorted R (take n l).
Proof.
  intros Hl. rewrite <-(take_drop n l) in Hl.
  by apply StronglySorted_app_1_l in Hl.
Qed.

(** Strongly sorted: any two positions are in order. *)
Lemma StronglySorted_lookup (R : relation A) l :
  StronglySorted R l ↔
  ∀ i j x y, l !! i = Some x → l !! j = Some y → i < j → R x y.
Proof.
  split.
  - induction 1 as [|z l Hl IH Hz]; intros i j x y Hi Hj Hij; [done|].
    destruct j as [|j]; [lia|]. destruct i as [|i]; simplify_eq/=.
    + rewrite Forall_lookup in Hz. eauto.
    + apply (IH i j); [done..|lia].
  - induction l as [|z l IH]; intros Hl; constructor.
    + apply IH. intros i j x y Hi Hj Hij.
      apply (Hl (S i) (S j)); [done..|lia].
    + apply Forall_lookup. intros j y Hj. apply (Hl 0 (S j)); [done..|lia].
Qed.

Lemma Forall_take_of (P : A → Prop) l n : Forall P l → Forall P (take n l).
Proof. apply Forall_take. Qed.

(** Filtering commutes with [take] up to a shorter prefix. *)
Lemma filter_take_prefix (P : A → Prop) `{!∀ x, Decision (P x)} l n :
  filter P (take n l) `prefix_of` filter P l.
Proof.
  exists (filter P (drop n l)). by rewrite <-filter_app, take_drop.
Qed.

Lemma filter_none (P : A → Prop) `{!∀ x, Decision (P x)} l :
  Forall (λ x, ¬ P x) l → filter P l = [].
Proof.
  induction 1 as [|x l Hx _ IH]; [done|].
  by rewrite filter_cons, decide_False.
Qed.

Lemma filter_all (P : A → Prop) `{!∀ x, Decision (P x)} l :
  Forall P l → filter P l = l.
Proof.
  induction 1 as [|x l Hx _ IH]; [done|].
  by rewrite filter_cons, decide_True, IH.
Qed.

Lemma elem_of_take_elem l n x : x ∈ take n l → x ∈ l.
Proof. intros [i Hi]%list_elem_of_lookup.
  apply lookup_take_Some in Hi as [Hi _].
  by eapply list_elem_of_lookup_2. Qed.

Lemma NoDup_take_of l n : NoDup l → NoDup (take n l).
Proof.
  intros Hl. rewrite <-(take_drop n l) in Hl.
  by apply NoDup_app in Hl as (? & _ & _).
Qed.
End list_lemmas.

#[export] Hint Resolve StronglySorted_take Forall_take_of NoDup_take_of : quiz.
