(* ===== verification/JsString.v ===== *)
(** * JavaScript strings

    A JavaScript string is a sequence of UTF-16 code units.  This file
    models the string operations the program uses: [String.prototype.trim]
    (called by [handleSubmit] of [WelcomeScreen]), the truthiness test of a
    string in a condition ([if (name.trim())], [if (userName)],
    [if (!data)]), and string literals, which the source writes in UTF-8. *)

From stdpp Require Export strings.
From S2P Require Import Prelude.

#[local] Open Scope N_scope.

(** A code unit is a number below 2^16; a string is a list of them. *)
Abbreviation code_unit := N.
Abbreviation jsstring := (list code_unit).

Definition code_unit_ok (c : code_unit) : Prop := c < 65536.
Definition jsstring_ok (s : jsstring) : Prop := Forall code_unit_ok s.

#[export] Instance code_unit_ok_dec c : Decision (code_unit_ok c).
Proof. unfold code_unit_ok. apply _. Defined.

(** ** White space *)

(** The code points [trim] removes: WhiteSpace (TAB, VT, FF, SP, NBSP,
    ZWNBSP and the category Zs) and LineTerminator (LF, CR, LS, PS) of
    ECMAScript.  All of them are single code units. *)
Definition is_white_space (c : code_unit) : bool :=
  (c =? 0x0009) || (c =? 0x000A) || (c =? 0x000B) || (c =? 0x000C) ||
  (c =? 0x000D) || (c =? 0x0020) || (c =? 0x00A0) || (c =? 0x1680) ||
  ((0x2000 <=? c) && (c <=? 0x200A)) ||
  (c =? 0x2028) || (c =? 0x2029) || (c =? 0x202F) || (c =? 0x205F) ||
  (c =? 0x3000) || (c =? 0xFEFF).

(** ** [trim] *)

Fixpoint trimStart (s : jsstring) : jsstring :=
  match s with
  | [] => []
  | c :: s' => if is_white_space c then trimStart s' else s
  end.

Definition trimEnd (s : jsstring) : jsstring :=
  reverse (trimStart (reverse s)).

Definition trim (s : jsstring) : jsstring := trimEnd (trimStart s).

(** ** Truthiness *)

(** A string in a condition is true exactly when it is not empty. *)
Definition truthy (s : jsstring) : bool :=
  match s with
  | [] => false
  | _ :: _ => true
  end.

(** ** Literals *)

(** The bytes of a Rocq string, as numbers. *)
Fixpoint bytes_of (s : string) : list N :=
  match s with
  | EmptyString => []
  | String a s' => Ascii.N_of_ascii a :: bytes_of s'
  end.

(** Continuation byte of UTF-8: its low six bits. *)
Definition cont (b : N) : N := b mod 64.

(** Decode UTF-8 into code points.  A malformed tail is decoded byte by
    byte; the literals of this development are well formed. *)
Fixpoint utf8_code_points (bs : list N) : list N :=
  match bs with
  | [] => []
  | b0 :: r0 =>
      if b0 <? 0x80 then b0 :: utf8_code_points r0
      else match r0 with
      | [] => [b0]
      | b1 :: r1 =>
          if b0 <? 0xE0 then
            ((b0 mod 32) * 64 + cont b1) :: utf8_code_points r1
          else match r1 with
          | [] => [b0; b1]
          | b2 :: r2 =>
              if b0 <? 0xF0 then
                ((b0 mod 16) * 4096 + cont b1 * 64 + cont b2)
                  :: utf8_code_points r2
              else match r2 with
              | [] => [b0; b1; b2]
              | b3 :: r3 =>
                  ((b0 mod 8) * 262144 + cont b1 * 4096 + cont b2 * 64
                     + cont b3) :: utf8_code_points r3
              end
          end
      end
  end.

(** Encode one code point in UTF-16: itself in the basic plane, a
    surrogate pair above it. *)
Definition utf16_of_code_point (p : N) : jsstring :=
  if p <? 0x10000 then [p]
  else [0xD800 + (p - 0x10000) / 1024; 0xDC00 + (p - 0x10000) mod 1024].

(** The JavaScript string a source literal denotes. *)
Definition js (s : string) : jsstring :=
  utf8_code_points (bytes_of s) ≫= utf16_of_code_point.

Arguments js s%_string_scope.

(** ** Thrown values *)

(** What the program throws or lets through: [new Error(msg)], and the
    errors the engine raises, whose messages are not specified. *)
Inductive exn : Type :=
  | Error (msg : jsstring)
  | SyntaxError
  | TypeError.

#[export] Instance exn_eq_dec : EqDecision exn.
Proof. solve_decision. Defined.

(** ** Properties of white space and [trim] *)

Definition all_white_space (s : jsstring) : Prop :=
  Forall (λ c, is_white_space c = true) s.

#[export] Instance all_white_space_dec s : Decision (all_white_space s).
Proof. unfold all_white_space. apply _. Defined.

(** The first code unit is white space. *)
Definition starts_white (s : jsstring) : bool :=
  match s with
  | [] => false
  | c :: _ => is_white_space c
  end.

(** No white space at either end. *)
Definition trimmed (s : jsstring) : Prop :=
  starts_white s = false ∧ starts_white (reverse s) = false.

#[export] Instance trimmed_dec s : Decision (trimmed s).
Proof. unfold trimmed. apply _. Defined.

Section trim_lemmas.
Implicit Types (s t : jsstring) (c : code_unit).

Lemma head_Some_starts s c :
  head s = Some c → starts_white s = is_white_space c.
Proof. destruct s; simpl; congruence. Qed.

Lemma trimStart_white s : all_white_space s → trimStart s = [].
Proof. induction 1 as [|c s Hc _ IH]; simpl; [done|by rewrite Hc]. Qed.

Lemma trimStart_nil_inv s : trimStart s = [] → all_white_space s.
Proof.
  induction s as [|c s IH]; simpl; [by constructor|].
  destruct (is_white_space c) eqn:Hc; [|done].
  intros ?. constructor; [done|by apply IH].
Qed.

(** [trimStart] removes a prefix made of white space only. *)
Lemma trimStart_split s :
  ∃ w, s = w ++ trimStart s ∧ all_white_space w.
Proof.
  induction s as [|c s (w & Hs & Hw)]; simpl.
  - exists []. split; [done|constructor].
  - destruct (is_white_space c) eqn:Hc.
    + exists (c :: w). split; [by rewrite Hs at 1|by constructor].
    + exists []. split; [done|constructor].
Qed.

Lemma trimStart_head s c :
  head (trimStart s) = Some c → is_white_space c = false.
Proof.
  induction s as [|d s IH]; simpl; [done|].
  destruct (is_white_space d) eqn:Hd; [done|]. simpl. congruence.
Qed.

Lemma trimStart_id s c :
  head s = Some c → is_white_space c = false → trimStart s = s.
Proof. destruct s; simpl; [done|]. by intros [= ->] ->. Qed.

Lemma trimStart_idemp s : trimStart (trimStart s) = trimStart s.
Proof.
  destruct (trimStart s) as [|c t] eqn:E; [done|].
  apply trimStart_id with c; [done|].
  apply (trimStart_head s). by rewrite E.
Qed.

(** Dropping leading white space does not touch the last code unit of
    what remains. *)
Lemma trimStart_app_nonwhite s c :
  is_white_space c = false → trimStart (s ++ [c]) = trimStart s ++ [c].
Proof.
  intros Hc. induction s as [|d s IH]; simpl; [by rewrite Hc|].
  by destruct (is_white_space d).
Qed.

Lemma trimEnd_snoc_nonwhite s c :
  is_white_space c = false → trimEnd (s ++ [c]) = s ++ [c].
Proof.
  intros Hc. unfold trimEnd. rewrite reverse_snoc. simpl.
  by rewrite Hc, reverse_cons, reverse_involutive.
Qed.

Lemma trimEnd_snoc_white s c :
  is_white_space c = true → trimEnd (s ++ [c]) = trimEnd s.
Proof.
  intros Hc. unfold trimEnd. rewrite reverse_snoc. simpl. by rewrite Hc.
Qed.

Lemma trimEnd_nil : trimEnd [] = [].
Proof. done. Qed.

Lemma trimEnd_last s c :
  last (trimEnd s) = Some c → is_white_space c = false.
Proof.
  unfold trimEnd. rewrite last_reverse. apply trimStart_head.
Qed.

(** [trimEnd] keeps the first code unit when it is not white space. *)
Lemma trimEnd_head s c :
  head s = Some c → is_white_space c = false → head (trimEnd s) = Some c.
Proof.
  induction s as [|d s IH] using rev_ind; [done|].
  intros Hh Hc. destruct (is_white_space d) eqn:Hd.
  - rewrite trimEnd_snoc_white by done.
    destruct s as [|e s]; simplify_eq/=; [congruence|by apply IH].
  - by rewrite trimEnd_snoc_nonwhite.
Qed.

Lemma trimEnd_nil_inv s : trimEnd s = [] → all_white_space s.
Proof.
  unfold trimEnd. intros H%(f_equal reverse).
  rewrite reverse_involutive in H. apply trimStart_nil_inv in H.
  unfold all_white_space in *. by rewrite Forall_reverse in H.
Qed.

Lemma starts_white_trimStart s : starts_white (trimStart s) = false.
Proof.
  destruct (trimStart s) as [|c t] eqn:E; [done|].
  apply (trimStart_head s). by rewrite E.
Qed.

Lemma trimStart_fix s : starts_white s = false → trimStart s = s.
Proof. destruct s as [|c s]; simpl; [done|by intros ->]. Qed.

Lemma trimEnd_fix s : starts_white (reverse s) = false → trimEnd s = s.
Proof.
  intros H. unfold trimEnd. by rewrite trimStart_fix, reverse_involutive.
Qed.

(** [trimEnd] removes a suffix made of white space only. *)
Lemma trimEnd_split s : ∃ w, s = trimEnd s ++ w ∧ all_white_space w.
Proof.
  destruct (trimStart_split (reverse s)) as (w & Hs & Hw).
  exists (reverse w). split.
  - unfold trimEnd. rewrite <-reverse_app, <-Hs. by rewrite reverse_involutive.
  - unfold all_white_space. by rewrite Forall_reverse.
Qed.

Lemma starts_white_trimEnd s :
  starts_white s = false → starts_white (trimEnd s) = false.
Proof.
  destruct s as [|c s]; [done|]. simpl. intros Hc.
  assert (head (trimEnd (c :: s)) = Some c) as H by by apply trimEnd_head.
  by rewrite (head_Some_starts _ _ H).
Qed.
End trim_lemmas.

(** ** The contract of [trim] *)

Section trim_spec.
Implicit Types (s : jsstring).

(** The result has no white space at either end. *)
Lemma trim_trimmed s : trimmed (trim s).
Proof.
  split; unfold trim.
  - apply starts_white_trimEnd, starts_white_trimStart.
  - unfold trimEnd. rewrite reverse_involutive. apply starts_white_trimStart.
Qed.

(** A string without white space at its ends is left as it is. *)
Lemma trim_fix s : trimmed s → trim s = s.
Proof. intros [H1 H2]. unfold trim. by rewrite trimStart_fix, trimEnd_fix. Qed.

Lemma trim_idemp s : trim (trim s) = trim s.
Proof. apply trim_fix, trim_trimmed. Qed.

(** Only white space is removed, and only at the ends. *)
Lemma trim_split s :
  ∃ w1 w2, s = w1 ++ trim s ++ w2 ∧ all_white_space w1 ∧ all_white_space w2.
Proof.
  destruct (trimStart_split s) as (w1 & Hs & Hw1).
  destruct (trimEnd_split (trimStart s)) as (w2 & Ht & Hw2).
  exists w1, w2. split_and!; [|done..]. unfold trim. by rewrite <-Ht.
Qed.

(** The result is empty exactly for a string of white space. *)
Lemma trim_nil_iff s : trim s = [] ↔ all_white_space s.
Proof.
  split.
  - intros H%trimEnd_nil_inv%trimStart_white.
    rewrite trimStart_idemp in H. by apply trimStart_nil_inv.
  - intros H%trimStart_white. unfold trim. by rewrite H.
Qed.

Lemma truthy_trim s : truthy (trim s) = true ↔ ¬ all_white_space s.
Proof.
  rewrite <-trim_nil_iff. destruct (trim s); simpl; naive_solver.
Qed.

Lemma truthy_true_iff s : truthy s = true ↔ s ≠ [].
Proof. destruct s; naive_solver. Qed.

(** Trimming a string of code units gives a string of code units. *)
Lemma trim_ok s : jsstring_ok s → jsstring_ok (trim s).
Proof.
  destruct (trim_split s) as (w1 & w2 & Hs & _). unfold jsstring_ok.
  rewrite Hs at 1. rewrite !Forall_app. tauto.
Qed.
End trim_spec.

(** ** Literals and [trim] on concrete strings *)

Example js_ascii : js "Amy" = [0x41; 0x6D; 0x79]%N.
Proof. reflexivity. Qed.

Example js_cjk : js "王經理" = [0x738B; 0x7D93; 0x7406]%N.
Proof. reflexivity. Qed.

Example js_astral : js "😀" = [0xD83D; 0xDE00]%N.
Proof. reflexivity. Qed.

Example trim_Amy : trim (js "  Amy  ") = js "Amy".
Proof. reflexivity. Qed.

Example trim_inner_space : trim (js " Amy  Lee	") = js "Amy  Lee".
Proof. reflexivity. Qed.

Example trim_ideographic_space : trim ([0x3000; 0x738B; 0xFEFF]%N) = [0x738B]%N.
Proof. reflexivity. Qed.

Example trim_blank : trim (js "   ") = [].
Proof. reflexivity. Qed.
