(* ===== verification/JsArray.v ===== *)
(** * JavaScript arrays: the built-ins the program calls

    [saveScore] builds the new leaderboard with
    [[...current, newEntry].sort((a, b) => b.score - a.score).slice(0, 100)];
    the screens cut the list with [slice(0, 10)] and [slice(0, 5)] and test
    it with [some].  An array is a list.

    [Array.prototype.sort] is specified as a stable sort: with a consistent
    comparator the result is the permutation of the input that is ordered by
    the comparator and keeps the input order of elements that compare equal.
    The model [sort] is the insertion sort that has this property; the
    theorem [sort_unique] shows that any function meeting the specification
    returns the same list, so nothing depends on the algorithm chosen. *)

From S2P Require Import Prelude.

#[local] Open Scope Z_scope.

(** ** Operations *)

(** [arr.slice(0, n)] for a non-negative [n]. *)
Definition slice0 {A} (n : nat) (l : list A) : list A := take n l.

(** [[...l, x]]. *)
Definition spread_push {A} (l : list A) (x : A) : list A := l ++ [x].

(** [arr.some(p)]. *)
Definition some {A} (p : A → bool) (l : list A) : bool := existsb p l.

Section sort.
Context {A : Type} (cmp : A → A → Z).

(** [insert x l] puts [x], which stood before every element of [l] in
    the input, behind the elements that the comparator orders strictly
    before it: [cmp x y > 0] means that [x] sorts after [y]. *)
Fixpoint insert (x : A) (l : list A) : list A :=
  match l with
  | [] => [x]
  | y :: l' => if 0 <? cmp x y then y :: insert x l' else x :: l
  end.

Definition sort (l : list A) : list A := foldr insert [] l.

(** [place x l] puts [x], which stood behind every element of [l] in the
    input, in front of the first element that sorts strictly after it. *)
Fixpoint place (x : A) (l : list A) : list A :=
  match l with
  | [] => [x]
  | y :: l' => if 0 <? cmp y x then x :: l else y :: place x l'
  end.

(** [x] may stand before [y]. *)
Definition precedes (x y : A) : Prop := cmp x y ≤ 0.

(** [x] and [y] compare equal. *)
Definition tied (x y : A) : Prop := cmp x y = 0.

#[export] Instance precedes_dec x y : Decision (precedes x y).
Proof. unfold precedes. apply _. Defined.

#[export] Instance tied_dec x y : Decision (tied x y).
Proof. unfold tied. apply _. Defined.

(** The list is ordered by the comparator. *)
Definition sorted (l : list A) : Prop := StronglySorted precedes l.

#[export] Instance sorted_dec l : Decision (sorted l).
Proof. unfold sorted. apply _. Defined.

(** The number of elements that may stand before [x]: the index at which
    [place] puts it. *)
Definition rank (x : A) (l : list A) : nat :=
  length (filter (λ y, precedes y x) l).

(** [l'] keeps the order that elements comparing equal have in [l]. *)
Definition stable (l l' : list A) : Prop :=
  ∀ a, filter (tied a) l' = filter (tied a) l.
End sort.

(** A consistent comparator, as ECMAScript requires of the argument of
    [sort]: the sign of [cmp x y] is opposite to that of [cmp y x], and
    "may stand before" is transitive. *)
Class Consistent {A} (cmp : A → A → Z) : Prop := {
  cmp_pos_neg x y : 0 < cmp x y → cmp y x < 0;
  cmp_neg_pos x y : cmp x y < 0 → 0 < cmp y x;
  cmp_trans x y z : cmp x y ≤ 0 → cmp y z ≤ 0 → cmp x z ≤ 0;
}.

(** ** Facts that hold of any comparator *)

Section sort_any.
Context {A : Type} (cmp : A → A → Z).
Implicit Types (x y : A) (l k : list A).

Lemma insert_Permutation x l : insert cmp x l ≡ₚ x :: l.
Proof.
  induction l as [|y l IH]; simpl; [done|].
  case_match; [|done]. by rewrite IH, Permutation_swap.
Qed.

Lemma sort_Permutation l : sort cmp l ≡ₚ l.
Proof.
  induction l as [|x l IH]; simpl; [done|].
  by rewrite insert_Permutation, IH.
Qed.

Lemma sort_length l : length (sort cmp l) = length l.
Proof. by rewrite sort_Permutation. Qed.

Lemma elem_of_sort x l : x ∈ sort cmp l ↔ x ∈ l.
Proof. by rewrite sort_Permutation. Qed.

Lemma place_Permutation x l : place cmp x l ≡ₚ x :: l.
Proof.
  induction l as [|y l IH]; simpl; [done|].
  case_match; [done|]. by rewrite IH, Permutation_swap.
Qed.

Lemma Forall_sort (P : A → Prop) l : Forall P l → Forall P (sort cmp l).
Proof. by rewrite sort_Permutation. Qed.

Lemma NoDup_sort l : NoDup l → NoDup (sort cmp l).
Proof. by rewrite sort_Permutation. Qed.

(** [x] goes to the front when it may stand before the head. *)
Lemma insert_front x l :
  (∀ y, head l = Some y → cmp x y ≤ 0) → insert cmp x l = x :: l.
Proof.
  destruct l as [|y l]; simpl; [done|]. intros H.
  specialize (H y eq_refl). case_match; bool_to_prop; [lia|done].
Qed.

Lemma place_front x l :
  (∀ y, head l = Some y → 0 < cmp y x) → place cmp x l = x :: l.
Proof.
  destruct l as [|y l]; simpl; [done|]. intros H.
  specialize (H y eq_refl). case_match; bool_to_prop; [done|lia].
Qed.
End sort_any.

#[export] Hint Resolve Forall_sort NoDup_sort : quiz.

(** ** Facts that need a consistent comparator *)

Section sort_consistent.
Context {A : Type} (cmp : A → A → Z) `{!Consistent cmp}.
Implicit Types (x y z : A) (l k : list A).

#[export] Instance precedes_trans : Transitive (precedes cmp).
Proof. intros x y z. apply cmp_trans. Qed.

Lemma precedes_total x y : precedes cmp x y ∨ precedes cmp y x.
Proof.
  unfold precedes. destruct (decide (cmp x y ≤ 0)); [by left|].
  right. pose proof (cmp_pos_neg x y). lia.
Qed.

Lemma tied_sym x y : tied cmp x y → tied cmp y x.
Proof.
  unfold tied. intros H.
  pose proof (cmp_pos_neg y x). pose proof (cmp_neg_pos y x). lia.
Qed.

Lemma tied_precedes x y : tied cmp x y → precedes cmp x y ∧ precedes cmp y x.
Proof.
  intros H. pose proof (tied_sym _ _ H).
  unfold tied, precedes in *. lia.
Qed.

Lemma precedes_tied x y : precedes cmp x y → precedes cmp y x → tied cmp x y.
Proof.
  unfold tied, precedes. intros.
  pose proof (cmp_neg_pos x y). lia.
Qed.

Lemma tied_trans x y z : tied cmp x y → tied cmp y z → tied cmp x z.
Proof.
  intros [? ?]%tied_precedes [? ?]%tied_precedes.
  apply precedes_tied; by etrans.
Qed.

Lemma tied_refl x : tied cmp x x.
Proof. destruct (precedes_total x x); by apply precedes_tied. Qed.

#[export] Instance tied_equiv : Equivalence (tied cmp).
Proof.
  split; [intros x; apply tied_refl|intros x y; apply tied_sym|].
  intros x y z; apply tied_trans.
Qed.

(** *** The result is ordered *)

Lemma insert_sorted x l : sorted cmp l → sorted cmp (insert cmp x l).
Proof.
  induction 1 as [|y l Hl IH Hy]; simpl; [by repeat constructor|].
  case_match; bool_to_prop.
  - constructor; [done|]. rewrite insert_Permutation.
    constructor; [|done]. pose proof (cmp_pos_neg x y).
    unfold precedes. lia.
  - constructor; [by constructor|].
    constructor; [done|]. eapply Forall_impl; [done|].
    intros z Hz. by trans y.
Qed.

Lemma sort_sorted l : sorted cmp (sort cmp l).
Proof.
  induction l as [|x l IH]; simpl; [constructor|by apply insert_sorted].
Qed.

(** *** The result is stable *)

Lemma filter_insert a x l :
  filter (tied cmp a) (insert cmp x l) = filter (tied cmp a) (x :: l).
Proof.
  induction l as [|y l IH]; simpl; [done|].
  case_match; bool_to_prop; [|done].
  rewrite !filter_cons, IH, filter_cons.
  destruct (decide (tied cmp a x)) as [Hx|]; [|done].
  destruct (decide (tied cmp a y)) as [Hy|]; [exfalso|done].
  assert (tied cmp x y) as Hxy by (by trans a; [symmetry|]).
  unfold tied in Hxy. lia.
Qed.

Lemma sort_stable l : stable cmp l (sort cmp l).
Proof.
  intros a. induction l as [|x l IH]; simpl; [done|].
  by rewrite filter_insert, !filter_cons, IH.
Qed.

(** *** An ordered list is left as it is *)

Lemma sort_sorted_id l : sorted cmp l → sort cmp l = l.
Proof.
  induction 1 as [|x l Hl IH Hx]; simpl; [done|].
  rewrite IH. apply insert_front. intros y Hy.
  destruct l; simplify_eq/=. by inv Hx.
Qed.

Lemma sort_idemp l : sort cmp (sort cmp l) = sort cmp l.
Proof. apply sort_sorted_id, sort_sorted. Qed.

(** *** The specification determines the result *)

Lemma stable_nil_inv l : (∀ a, filter (tied cmp a) l = []) → l = [].
Proof.
  destruct l as [|y l]; [done|]. intros H. specialize (H y).
  rewrite filter_cons, decide_True in H by apply tied_refl. done.
Qed.

(** Two ordered lists with the same classes of tied elements start with
    tied elements. *)
Lemma sorted_heads_tied x y l1 l2 :
  sorted cmp (x :: l1) → sorted cmp (y :: l2) →
  (∀ a, filter (tied cmp a) (x :: l1) = filter (tied cmp a) (y :: l2)) →
  precedes cmp x y.
Proof.
  intros [_ Hx]%StronglySorted_inv _ Hst.
  assert (y ∈ x :: l1) as [->|Hy]%elem_of_cons.
  { eapply (list_elem_of_filter (tied cmp y)). rewrite Hst.
    rewrite filter_cons, decide_True by apply tied_refl. left. }
  - apply tied_precedes, tied_refl.
  - rewrite Forall_forall in Hx. auto.
Qed.

Lemma sorted_stable_unique l1 l2 :
  sorted cmp l1 → sorted cmp l2 →
  (∀ a, filter (tied cmp a) l1 = filter (tied cmp a) l2) → l1 = l2.
Proof.
  intros H1. revert l2.
  induction H1 as [|x l1 Hl1 IH Hx]; intros l2 H2 Hst.
  { symmetry. apply stable_nil_inv. intros a. by rewrite <-Hst. }
  destruct H2 as [|y l2 Hl2 Hy].
  { apply stable_nil_inv. intros a. by rewrite Hst. }
  assert (tied cmp x y) as Hxy.
  { assert (sorted cmp (x :: l1)) by by apply SSorted_cons.
    assert (sorted cmp (y :: l2)) by by apply SSorted_cons.
    apply precedes_tied; [by apply (sorted_heads_tied x y l1 l2)|].
    by apply (sorted_heads_tied y x l2 l1). }
  pose proof (Hst x) as Hh.
  rewrite !filter_cons, !decide_True in Hh by (done || apply tied_refl).
  injection Hh as -> _. f_equal. apply IH; [done|]. intros a.
  specialize (Hst a). rewrite !filter_cons in Hst.
  case_decide; by simplify_eq.
Qed.

(** Any list that is ordered and keeps the order of tied elements of [l]
    is the one [sort] returns. *)
Lemma sort_unique l l' :
  sorted cmp l' → stable cmp l l' → l' = sort cmp l.
Proof.
  intros Hs Hst. apply sorted_stable_unique; [done|apply sort_sorted|].
  intros a. by rewrite Hst, sort_stable.
Qed.

(** *** Appending to an ordered list and sorting is an ordered insertion *)

Lemma head_place x l h :
  head (place cmp x l) = Some h → h = x ∨ head l = Some h.
Proof. destruct l; simpl; [|case_match]; naive_solver. Qed.

Lemma insert_place x y l :
  Forall (precedes cmp y) l →
  insert cmp y (place cmp x l) = place cmp x (y :: l).
Proof.
  intros Hy. simpl. case_match; bool_to_prop.
  - rewrite place_front.
    + simpl. rewrite (proj2 (Z.ltb_lt _ _)) by done.
      f_equal. apply insert_front. intros z Hz.
      destruct l; simplify_eq/=. by inv Hy.
    + intros z Hz. destruct l; simplify_eq/=. inv Hy.
      destruct (decide (cmp z x ≤ 0)); [|lia].
      assert (cmp y x ≤ 0) by by eapply cmp_trans. lia.
  - apply insert_front. intros h [->|Hh]%head_place; [done|].
    destruct l; simplify_eq/=. by inv Hy.
Qed.

Lemma sort_snoc_sorted x l :
  sorted cmp l → sort cmp (spread_push l x) = place cmp x l.
Proof.
  unfold sort, spread_push. rewrite foldr_app. simpl.
  induction 1 as [|y l Hl IH Hy]; [done|].
  cbn [foldr]. rewrite IH. by apply insert_place.
Qed.

Lemma place_sorted x l : sorted cmp l → sorted cmp (place cmp x l).
Proof. intros H. rewrite <-sort_snoc_sorted by done. apply sort_sorted. Qed.

(** Where the new element lands: behind the elements it does not sort
    strictly before, which are those that may stand before it. *)
Lemma place_split x l :
  sorted cmp l →
  place cmp x l =
    filter (λ y, precedes cmp y x) l ++ x :: filter (λ y, ¬ precedes cmp y x) l.
Proof.
  induction 1 as [|y l Hl IH Hy]; [done|].
  simpl. rewrite !filter_cons.
  case_match; bool_to_prop.
  - assert (¬ precedes cmp y x) as Hn by (unfold precedes; lia).
    rewrite decide_False, decide_True by done.
    assert (Forall (λ z, ¬ precedes cmp z x) l) as Hall.
    { eapply Forall_impl; [done|]. intros z Hyz Hzx. apply Hn. by trans z. }
    by rewrite filter_none, filter_all by (eapply Forall_impl; naive_solver).
  - assert (precedes cmp y x) as Hp by (unfold precedes; lia).
    rewrite decide_True, decide_False by (done || naive_solver). by rewrite IH.
Qed.

(** In an ordered list the elements that may stand before [x] come
    first. *)
Lemma sorted_partition x l :
  sorted cmp l →
  l = filter (λ y, precedes cmp y x) l ++ filter (λ y, ¬ precedes cmp y x) l.
Proof.
  induction 1 as [|y l Hl IH Hy]; [done|].
  rewrite !filter_cons.
  destruct (decide (precedes cmp y x)) as [Hp|Hn].
  - rewrite decide_False by naive_solver. simpl. by rewrite <-IH.
  - rewrite decide_True by done.
    assert (Forall (λ z, ¬ precedes cmp z x) l) as Hall.
    { eapply Forall_impl; [done|]. intros z Hyz Hzx. apply Hn. by trans z. }
    by rewrite filter_none, filter_all by (eapply Forall_impl; naive_solver).
Qed.

Lemma rank_le_length x l : (rank cmp x l ≤ length l)%nat.
Proof. apply length_filter. Qed.

Lemma take_rank x l :
  sorted cmp l → take (rank cmp x l) l = filter (λ y, precedes cmp y x) l.
Proof.
  intros Hl. rewrite (sorted_partition x l Hl) at 2. apply take_app_length.
Qed.

Lemma drop_rank x l :
  sorted cmp l → drop (rank cmp x l) l = filter (λ y, ¬ precedes cmp y x) l.
Proof.
  intros Hl. rewrite (sorted_partition x l Hl) at 2. apply drop_app_length.
Qed.

Lemma place_rank x l :
  sorted cmp l → place cmp x l = take (rank cmp x l) l ++ x :: drop (rank cmp x l) l.
Proof. intros Hl. by rewrite place_split, take_rank, drop_rank. Qed.

Lemma place_lookup_rank x l :
  sorted cmp l → place cmp x l !! rank cmp x l = Some x.
Proof.
  intros Hl. rewrite place_rank by done. apply list_lookup_middle.
  rewrite length_take. pose proof (rank_le_length x l). lia.
Qed.
End sort_consistent.
