(* ===== verification/JsNumber.v ===== *)
(** * JavaScript numbers

    A number is an IEEE 754 binary64 value.  The running score of
    [QuizScreen] is one: [handleOptionClick] adds [100 / questions.length]
    to it for each correct answer, and [handleNext] rounds it with
    [Math.round].  The arithmetic is the Standard Library's executable
    specification of IEEE 754 ([SpecFloat]) at precision 53 and exponent
    bound 1024, so that sums are rounded as the engine rounds them.

    [score_after k n] is the score after [k] correct answers to a batch of
    [n] questions.  The theorems about it are proved by evaluation: for the
    batch of 20 questions the application asks for, and for every batch of
    at most [max_batch] questions. *)

From Stdlib Require Import Floats.SpecFloat.
From S2P Require Import Prelude.

#[local] Open Scope Z_scope.

Abbreviation number := spec_float.

#[export] Instance number_eq_dec : EqDecision number.
Proof. solve_decision. Defined.

Definition prec : Z := 53.
Definition emax : Z := 1024.

(** The number an integer literal or an array length denotes. *)
Definition of_Z (z : Z) : number := binary_normalize prec emax z 0 false.

Definition add (x y : number) : number := SFadd prec emax x y.
Definition div (x y : number) : number := SFdiv prec emax x y.
Definition mul (x y : number) : number := SFmul prec emax x y.

Definition is_finite (x : number) : bool :=
  match x with
  | S754_zero _ | S754_finite _ _ _ => true
  | S754_infinity _ | S754_nan => false
  end.

(** [Math.round]: the integer nearest to [x], the one towards plus
    infinity when two are equally near.  The value of a finite number is
    [m * 2 ^ e]; for a negative exponent [-k] the result is the floor of
    [(m + 2 ^ (k - 1)) / 2 ^ k].  [None] stands for the results that are
    not integers: [NaN] and the infinities, which [Math.round] returns
    unchanged. *)
Definition Math_round (x : number) : option Z :=
  match x with
  | S754_zero _ => Some 0
  | S754_finite s m e =>
      let v := if s then Z.neg m else Z.pos m in
      Some (match e with
            | Z.neg k => (v + 2 ^ (Z.pos k - 1)) / 2 ^ Z.pos k
            | _ => v * 2 ^ e
            end)
  | S754_infinity _ | S754_nan => None
  end.

(** [100 / questions.length]. *)
Definition increment (n : nat) : number := div (of_Z 100) (of_Z (Z.of_nat n)).

(** The score after [k] correct answers: [k] additions to [0]. *)
Definition score_after (k n : nat) : number :=
  Nat.iter k (λ s, add s (increment n)) (of_Z 0).

(** The integer nearest to [100 * k / n] in exact arithmetic, ties upwards:
    what rounding the real-valued sum once would give. *)
Definition exact_score (k n : nat) : Z :=
  (200 * Z.of_nat k + Z.of_nat n) / (2 * Z.of_nat n).

(** The largest batch for which the properties of the score are checked by
    evaluation. *)
Definition max_batch : nat := 100.

(** The sums [s], [s + inc], ..., up to [k] increments. *)
Fixpoint partial_sums (k : nat) (inc s : number) : list number :=
  s :: match k with
       | O => []
       | S k' => partial_sums k' inc (add s inc)
       end.

(** All the scores a batch of [n] questions can give, from no correct
    answer to [n] of them. *)
Definition scores_of_batch (n : nat) : list (option Z) :=
  Math_round <$> partial_sums n (increment n) (of_Z 0).

(** Each score is an integer between 0 and 100. *)
Definition score_in_range (o : option Z) : Prop :=
  ∃ r, o = Some r ∧ 0 ≤ r ≤ 100.

#[export] Instance score_in_range_dec o : Decision (score_in_range o).
Proof.
  refine (match o with
          | Some r => cast_if (decide (0 ≤ r ≤ 100))
          | None => right _
          end); unfold score_in_range; naive_solver.
Defined.

(** ** Small integers are exact *)

Lemma Math_round_of_Z z : 0 ≤ z ≤ 100 → Math_round (of_Z z) = Some z.
Proof.
  intros Hz. assert (z ∈ seqZ 0 101) as Hin by (apply elem_of_seqZ; lia).
  clear Hz. revert z Hin. apply Forall_forall. compute_done.
Qed.

Lemma score_after_S k n :
  score_after (S k) n = add (score_after k n) (increment n).
Proof. done. Qed.

Lemma score_after_0 n : score_after 0 n = of_Z 0.
Proof. done. Qed.

(** ** The batch of twenty questions *)

(** Five points a question: [100 / 20] is exactly [5], and every sum of at
    most twenty fives is exact. *)
Lemma score_after_20 k : (k ≤ 20)%nat → score_after k 20 = of_Z (5 * Z.of_nat k).
Proof.
  intros Hk. assert (k ∈ seq 0 21) as Hin by (apply elem_of_seq; lia).
  clear Hk. revert k Hin. apply Forall_forall. compute_done.
Qed.

Lemma Math_round_score_20 k :
  (k ≤ 20)%nat → Math_round (score_after k 20) = Some (5 * Z.of_nat k).
Proof.
  intros Hk. rewrite score_after_20 by done. apply Math_round_of_Z. lia.
Qed.

(** ** Every batch of at most [max_batch] questions *)

Lemma partial_sums_lookup n inc s k :
  (k ≤ n)%nat →
  partial_sums n inc s !! k = Some (Nat.iter k (λ s, add s inc) s).
Proof.
  revert s k. induction n as [|n IH]; intros s [|k] Hk; try done; [lia|].
  cbn [partial_sums lookup list_lookup]. rewrite IH by lia.
  by rewrite Nat.iter_succ_r.
Qed.

Lemma scores_of_batch_lookup n k :
  (k ≤ n)%nat → scores_of_batch n !! k = Some (Math_round (score_after k n)).
Proof.
  intros Hk. unfold scores_of_batch.
  by rewrite list_lookup_fmap, partial_sums_lookup.
Qed.

Lemma batches_in_range :
  Forall (λ n, Forall score_in_range (scores_of_batch n)) (seq 1 max_batch).
Proof. compute_done. Qed.

Lemma score_after_in_range k n :
  (1 ≤ n ≤ max_batch)%nat → (k ≤ n)%nat →
  ∃ r, Math_round (score_after k n) = Some r ∧ 0 ≤ r ≤ 100.
Proof.
  intros Hn Hk. pose proof batches_in_range as Hall.
  rewrite Forall_forall in Hall. specialize (Hall n).
  rewrite Forall_lookup in Hall.
  apply (Hall ltac:(apply elem_of_seq; unfold max_batch in *; lia) k).
  by apply scores_of_batch_lookup.
Qed.

(** Answering every question correctly gives exactly 100. *)
Lemma batches_full :
  Forall (λ n, last (scores_of_batch n) = Some (Some 100)) (seq 1 max_batch).
Proof. compute_done. Qed.

Lemma partial_sums_length k inc s : length (partial_sums k inc s) = S k.
Proof. revert s. induction k as [|k IH]; intros s; simpl; [done|by rewrite IH]. Qed.

Lemma scores_of_batch_length n : length (scores_of_batch n) = S n.
Proof. unfold scores_of_batch. by rewrite length_fmap, partial_sums_length. Qed.

Lemma score_after_full n :
  (1 ≤ n ≤ max_batch)%nat → Math_round (score_after n n) = Some 100.
Proof.
  intros Hn. pose proof batches_full as Hall.
  rewrite Forall_forall in Hall. specialize (Hall n).
  rewrite last_lookup, scores_of_batch_length in Hall. simpl in Hall.
  rewrite scores_of_batch_lookup in Hall by done.
  assert (n ∈ seq 1 max_batch) as Hin by (apply elem_of_seq; lia).
  specialize (Hall Hin). by simplify_eq.
Qed.

(** ** Rounding the binary64 sum is not rounding the exact sum *)

(** For twenty questions the two agree. *)
Lemma score_20_exact k :
  (k ≤ 20)%nat → Math_round (score_after k 20) = Some (exact_score k 20).
Proof.
  intros Hk. rewrite Math_round_score_20 by done. f_equal.
  unfold exact_score. change (Z.of_nat 20) with 20.
  apply Z.div_unique with 20; lia.
Qed.

(** For twenty-four questions and fifteen correct answers the exact sum
    is 62.5, which rounds to 63; the binary64 sum is just below and rounds
    to 62. *)
Lemma score_24_15_differs :
  Math_round (score_after 15 24) = Some 62 ∧ exact_score 15 24 = 63.
Proof. compute_done. Qed.
