(* ===== verification/Types.v ===== *)
(** * The data types of [src/types.ts]

    The string enum [AppState] and the interfaces [Question],
    [LeaderboardEntry] and [QuizConfig].  A field of type [string] is a
    [jsstring]; a field of type [number] that holds an integer wherever the
    program writes it (identifiers, indices, rounded scores, time stamps in
    milliseconds) is a [Z].  The field [id] of the two interfaces is [q_id]
    and [e_id] here, since [id] names the identity function. *)

From S2P Require Import Prelude JsString.

#[local] Open Scope Z_scope.

(** ** [enum AppState] *)

Inductive AppState : Type :=
  | WELCOME
  | LOADING
  | QUIZ
  | RESULT
  | ERROR.

#[export] Instance AppState_eq_dec : EqDecision AppState.
Proof. solve_decision. Defined.

#[export] Instance AppState_inhabited : Inhabited AppState := populate WELCOME.

(** The members of the enum, in the order of the declaration. *)
Definition AppState_members : list AppState :=
  [WELCOME; LOADING; QUIZ; RESULT; ERROR].

(** The string each member is initialised with. *)
Definition AppState_value (s : AppState) : jsstring :=
  match s with
  | WELCOME => js "WELCOME"
  | LOADING => js "LOADING"
  | QUIZ => js "QUIZ"
  | RESULT => js "RESULT"
  | ERROR => js "ERROR"
  end.

(** ** [interface Question] *)

Record Question : Type := mkQuestion {
  q_id : Z;
  text : jsstring;
  options : list jsstring;
  correctAnswerIndex : Z;
  explanation : jsstring;
}.

#[export] Instance Question_eq_dec : EqDecision Question.
Proof. solve_decision. Defined.

(** What the comment of the interface and the prompt of the provider ask
    of a question: four options and a correct answer among them.  The type
    does not enforce it. *)
Definition Question_ok (q : Question) : Prop :=
  length (options q) = 4%nat ∧ 0 ≤ correctAnswerIndex q ≤ 3.

#[export] Instance Question_ok_dec q : Decision (Question_ok q).
Proof. unfold Question_ok. apply _. Defined.

(** The correct answer is one of the options rendered, whatever their
    number. *)
Definition answerable (q : Question) : Prop :=
  0 ≤ correctAnswerIndex q < Z.of_nat (length (options q)).

#[export] Instance answerable_dec q : Decision (answerable q).
Proof. unfold answerable. apply _. Defined.

(** ** [interface LeaderboardEntry] *)

Record LeaderboardEntry : Type := mkEntry {
  e_id : jsstring;
  name : jsstring;
  score : Z;
  timestamp : Z;
}.

#[export] Instance LeaderboardEntry_eq_dec : EqDecision LeaderboardEntry.
Proof. solve_decision. Defined.

(** The entries the application itself creates: a trimmed, non-empty name
    and a score between 0 and 100. *)
Definition Entry_ok (e : LeaderboardEntry) : Prop :=
  name e ≠ [] ∧ trimmed (name e) ∧ 0 ≤ score e ≤ 100.

#[export] Instance Entry_ok_dec e : Decision (Entry_ok e).
Proof. unfold Entry_ok. apply _. Defined.

(** ** [interface QuizConfig] *)

Record QuizConfig : Type := mkQuizConfig {
  questionCount : Z;
  topics : list jsstring;
}.

#[export] Instance QuizConfig_eq_dec : EqDecision QuizConfig.
Proof. solve_decision. Defined.

(** ** Properties of the enum *)

Lemma AppState_members_complete (s : AppState) : s ∈ AppState_members.
Proof. destruct s; unfold AppState_members; set_solver. Qed.

Lemma AppState_members_NoDup : NoDup AppState_members.
Proof. unfold AppState_members. by apply (bool_decide_unpack _). Qed.

(** Distinct members have distinct values, so comparing the values, as
    the compiled code does, is comparing the members. *)
Lemma AppState_value_inj (s1 s2 : AppState) :
  AppState_value s1 = AppState_value s2 → s1 = s2.
Proof. destruct s1, s2; intros H; first [done | by vm_compute in H]. Qed.

Lemma Question_ok_answerable q : Question_ok q → answerable q.
Proof. unfold Question_ok, answerable. lia. Qed.
