(* ===== verification/Json.v ===== *)
(** * JSON values and the contract of [JSON.parse] and [JSON.stringify]

    [src/services/storage.ts] keeps the leaderboard as the text
    [JSON.stringify] prints and reads it back with [JSON.parse];
    [src/services/gemini.ts] parses the provider's answer.  Both are
    built-ins of the engine.  This file states what the program relies on
    as the class [JsonCodec]: the values, and the law that parsing the
    printed text of a value gives the value back.  The theorems of the
    other files are proved for any implementation of the class; [JsonRef]
    is one. *)

From S2P Require Import Prelude JsString.

#[local] Open Scope Z_scope.

(** ** Values *)

(** A number is an integer: the program stores only integers (rounded
    scores, time stamps, indices). *)
#[local] Unset Elimination Schemes.
Inductive json : Type :=
  | JNull
  | JBool (b : bool)
  | JNumber (n : Z)
  | JString (s : jsstring)
  | JArray (l : list json)
  | JObject (fs : list (jsstring * json)).
#[local] Set Elimination Schemes.

(** The integers a binary64 number represents exactly, one after the
    other: [Number.isSafeInteger]. *)
Definition safe_integer (n : Z) : Prop := - (2 ^ 53) < n < 2 ^ 53.

#[export] Instance safe_integer_dec n : Decision (safe_integer n).
Proof. unfold safe_integer. apply _. Defined.

(** The values that survive printing and parsing in every engine: safe
    integers, strings of code units, objects without a repeated key. *)
Fixpoint json_ok (v : json) : Prop :=
  match v with
  | JNull | JBool _ => True
  | JNumber n => safe_integer n
  | JString s => jsstring_ok s
  | JArray l => foldr (λ v P, json_ok v ∧ P) True l
  | JObject fs =>
      NoDup (fs.*1) ∧
      foldr (λ kv P, jsstring_ok kv.1 ∧ json_ok kv.2 ∧ P) True fs
  end.

(** ** The contract *)

Class JsonCodec : Type := {
  JSON_parse : jsstring → result exn json;
  JSON_stringify : json → jsstring;
  (** Parsing what was printed returns the value. *)
  JSON_parse_stringify v : json_ok v → JSON_parse (JSON_stringify v) = Ok v;
  (** The text of a value is never the empty string. *)
  JSON_stringify_nonempty v : JSON_stringify v ≠ [];
  (** The only error [JSON.parse] raises on a string is [SyntaxError]. *)
  JSON_parse_throws s e : JSON_parse s = Throw e → e = SyntaxError;
}.

(** ** Induction on values *)

(** The induction principle that reaches the values inside arrays and
    objects. *)
Lemma safe_integer_small n : -1000 ≤ n ≤ 1000 → safe_integer n.
Proof. unfold safe_integer. change (2 ^ 53) with 9007199254740992. lia. Qed.

Lemma json_induction (P : json → Prop) :
  P JNull →
  (∀ b, P (JBool b)) →
  (∀ n, P (JNumber n)) →
  (∀ s, P (JString s)) →
  (∀ l, Forall P l → P (JArray l)) →
  (∀ fs, Forall (λ kv, P kv.2) fs → P (JObject fs)) →
  ∀ v, P v.
Proof.
  intros Hnull Hbool Hnum Hstr Harr Hobj.
  fix IH 1. intros [|b|n|s|l|fs].
  - exact Hnull.
  - apply Hbool.
  - apply Hnum.
  - apply Hstr.
  - apply Harr. induction l as [|v l IHl]; constructor; [apply IH|apply IHl].
  - apply Hobj.
    induction fs as [|[k v] fs IHfs]; constructor; [apply IH|apply IHfs].
Qed.

Lemma json_ok_array l : json_ok (JArray l) ↔ Forall json_ok l.
Proof.
  simpl. induction l as [|v l IH]; simpl; [by split; [constructor|]|].
  rewrite Forall_cons. naive_solver.
Qed.

Lemma json_ok_object fs :
  json_ok (JObject fs) ↔
    NoDup (fs.*1) ∧ Forall (λ kv, jsstring_ok kv.1 ∧ json_ok kv.2) fs.
Proof.
  simpl. apply and_iff_compat_l.
  induction fs as [|kv fs IH]; simpl; [by split; [constructor|]|].
  rewrite Forall_cons. naive_solver.
Qed.
