(* ===== verification/JsonRef.v ===== *)
(** * A reference implementation of [JsonCodec]

    A printer that writes a value the way [JSON.stringify] does without an
    indent argument (no white space, members in order, the escapes of
    ECMAScript for quotation mark, reverse solidus and control characters),
    and a recursive-descent parser of JSON texts whose numbers are integers
    (a fraction or an exponent is a syntax error here).  The parser skips
    JSON white space between tokens and takes fuel: one unit per value,
    per array element and per object member, so the length of the text is
    enough.  The theorem [parse_stringify] is the round trip; the instance
    [ref_codec] discharges the contract of [Json]. *)

From Stdlib Require Import DecimalZ DecimalPos DecimalFacts.
From S2P Require Import Prelude JsString Json.

#[local] Open Scope N_scope.

(** ** Code units of the JSON grammar *)

Definition c_quote : code_unit := 0x22.
Definition c_backslash : code_unit := 0x5C.
Definition c_comma : code_unit := 0x2C.
Definition c_colon : code_unit := 0x3A.
Definition c_lbracket : code_unit := 0x5B.
Definition c_rbracket : code_unit := 0x5D.
Definition c_lbrace : code_unit := 0x7B.
Definition c_rbrace : code_unit := 0x7D.
Definition c_minus : code_unit := 0x2D.

(** JSON white space: space, tab, line feed, carriage return. *)
Definition is_json_ws (c : code_unit) : bool :=
  (c =? 0x20) || (c =? 0x09) || (c =? 0x0A) || (c =? 0x0D).

Fixpoint skip_ws (s : jsstring) : jsstring :=
  match s with
  | [] => []
  | c :: r => if is_json_ws c then skip_ws r else s
  end.

(** [drop_prefix p s] is what follows [p] in [s]. *)
Fixpoint drop_prefix (p s : jsstring) : option jsstring :=
  match p, s with
  | [], _ => Some s
  | _ :: _, [] => None
  | a :: p', b :: s' => if a =? b then drop_prefix p' s' else None
  end.

(** ** Numbers *)

Fixpoint print_uint (d : Decimal.uint) : jsstring :=
  match d with
  | Decimal.Nil => []
  | Decimal.D0 d => 0x30 :: print_uint d
  | Decimal.D1 d => 0x31 :: print_uint d
  | Decimal.D2 d => 0x32 :: print_uint d
  | Decimal.D3 d => 0x33 :: print_uint d
  | Decimal.D4 d => 0x34 :: print_uint d
  | Decimal.D5 d => 0x35 :: print_uint d
  | Decimal.D6 d => 0x36 :: print_uint d
  | Decimal.D7 d => 0x37 :: print_uint d
  | Decimal.D8 d => 0x38 :: print_uint d
  | Decimal.D9 d => 0x39 :: print_uint d
  end.

Definition print_Z (z : Z) : jsstring :=
  match Z.to_int z with
  | Decimal.Pos d => print_uint d
  | Decimal.Neg d => c_minus :: print_uint d
  end.

Definition digit_of (c : code_unit) : option (Decimal.uint → Decimal.uint) :=
  if c =? 0x30 then Some Decimal.D0 else
  if c =? 0x31 then Some Decimal.D1 else
  if c =? 0x32 then Some Decimal.D2 else
  if c =? 0x33 then Some Decimal.D3 else
  if c =? 0x34 then Some Decimal.D4 else
  if c =? 0x35 then Some Decimal.D5 else
  if c =? 0x36 then Some Decimal.D6 else
  if c =? 0x37 then Some Decimal.D7 else
  if c =? 0x38 then Some Decimal.D8 else
  if c =? 0x39 then Some Decimal.D9 else None.

(** The longest run of digits at the front, and the rest. *)
Fixpoint parse_uint (s : jsstring) : Decimal.uint * jsstring :=
  match s with
  | [] => (Decimal.Nil, [])
  | c :: r =>
      match digit_of c with
      | Some D => let '(d, r') := parse_uint r in (D d, r')
      | None => (Decimal.Nil, s)
      end
  end.

(** The digits of a JSON number: at least one, no leading zero. *)
Definition digits_ok (d : Decimal.uint) : bool :=
  match d with
  | Decimal.Nil => false
  | Decimal.D0 Decimal.Nil => true
  | Decimal.D0 _ => false
  | _ => true
  end.

(** What may follow the digits here: not a fraction, not an exponent. *)
Definition ends_number (s : jsstring) : bool :=
  match s with
  | [] => true
  | c :: _ => negb ((c =? 0x2E) || (c =? 0x65) || (c =? 0x45))
  end.

Definition parse_number (s : jsstring) : option (json * jsstring) :=
  let '(neg, s') :=
    match s with
    | c :: r => if c =? c_minus then (true, r) else (false, s)
    | [] => (false, s)
    end in
  let '(d, r) := parse_uint s' in
  if digits_ok d && ends_number r then
    Some (JNumber (Z.of_int (if neg then Decimal.Neg d else Decimal.Pos d)), r)
  else None.

(** ** Strings *)

Definition hex_digit (n : N) : code_unit :=
  if n <? 10 then 0x30 + n else 0x61 + (n - 10).

Definition hex_value (c : code_unit) : option N :=
  if (0x30 <=? c) && (c <=? 0x39) then Some (c - 0x30) else
  if (0x61 <=? c) && (c <=? 0x66) then Some (c - 0x61 + 10) else
  if (0x41 <=? c) && (c <=? 0x46) then Some (c - 0x41 + 10) else None.

Definition hex4 (h1 h2 h3 h4 : code_unit) : option code_unit :=
  a ← hex_value h1; b ← hex_value h2; c ← hex_value h3; d ← hex_value h4;
  Some (((a * 16 + b) * 16 + c) * 16 + d).

(** The text of one code unit inside a string. *)
Definition escape_unit (c : code_unit) : jsstring :=
  if c =? c_quote then [c_backslash; c_quote] else
  if c =? c_backslash then [c_backslash; c_backslash] else
  if c =? 0x08 then [c_backslash; 0x62] else
  if c =? 0x09 then [c_backslash; 0x74] else
  if c =? 0x0A then [c_backslash; 0x6E] else
  if c =? 0x0C then [c_backslash; 0x66] else
  if c =? 0x0D then [c_backslash; 0x72] else
  if c <? 0x20 then
    [c_backslash; 0x75; 0x30; 0x30; hex_digit (c / 16); hex_digit (c mod 16)]
  else [c].

Definition print_string (s : jsstring) : jsstring :=
  c_quote :: (s ≫= escape_unit) ++ [c_quote].

(** The code unit a one-letter escape stands for. *)
Definition unescape_short (e : code_unit) : option code_unit :=
  if e =? c_quote then Some c_quote else
  if e =? c_backslash then Some c_backslash else
  if e =? 0x2F then Some 0x2F else
  if e =? 0x62 then Some 0x08 else
  if e =? 0x66 then Some 0x0C else
  if e =? 0x6E then Some 0x0A else
  if e =? 0x72 then Some 0x0D else
  if e =? 0x74 then Some 0x09 else None.

Definition cons_chars (c : code_unit) (o : option (jsstring * jsstring)) :
    option (jsstring * jsstring) :=
  '(s, r) ← o; Some (c :: s, r).

(** The characters of a string up to its closing quotation mark, the
    opening one being read already. *)
Fixpoint parse_chars (s : jsstring) : option (jsstring * jsstring) :=
  match s with
  | [] => None
  | c :: r =>
      if c =? c_quote then Some ([], r)
      else if c =? c_backslash then
        match r with
        | [] => None
        | e :: r1 =>
            if e =? 0x75 then
              match r1 with
              | h1 :: h2 :: h3 :: h4 :: r2 =>
                  u ← hex4 h1 h2 h3 h4; cons_chars u (parse_chars r2)
              | _ => None
              end
            else u ← unescape_short e; cons_chars u (parse_chars r1)
        end
      else if c <? 0x20 then None
      else cons_chars c (parse_chars r)
  end.

(** ** Values *)

Section print.
Context (print : json → jsstring).

Fixpoint print_elements (l : list json) : jsstring :=
  match l with
  | [] => [c_rbracket]
  | v :: l' =>
      match l' with
      | [] => print v ++ [c_rbracket]
      | _ :: _ => print v ++ c_comma :: print_elements l'
      end
  end.

Fixpoint print_members (fs : list (jsstring * json)) : jsstring :=
  match fs with
  | [] => [c_rbrace]
  | kv :: fs' =>
      match fs' with
      | [] => print_string kv.1 ++ c_colon :: print kv.2 ++ [c_rbrace]
      | _ :: _ =>
          print_string kv.1 ++ c_colon :: print kv.2
            ++ c_comma :: print_members fs'
      end
  end.
End print.

Fixpoint stringify (v : json) : jsstring :=
  match v with
  | JNull => js "null"
  | JBool true => js "true"
  | JBool false => js "false"
  | JNumber n => print_Z n
  | JString s => print_string s
  | JArray l => c_lbracket :: print_elements stringify l
  | JObject fs => c_lbrace :: print_members stringify fs
  end.

Fixpoint parse_value (fuel : nat) (s : jsstring) : option (json * jsstring) :=
  match fuel with
  | O => None
  | S fuel' =>
      match skip_ws s with
      | [] => None
      | c :: r =>
          if c =? c_quote then
            '(str, r') ← parse_chars r; Some (JString str, r')
          else if c =? c_lbracket then
            match skip_ws r with
            | [] => None
            | c' :: r' =>
                if c' =? c_rbracket then Some (JArray [], r')
                else '(l, r'') ← parse_elements fuel' r; Some (JArray l, r'')
            end
          else if c =? c_lbrace then
            match skip_ws r with
            | [] => None
            | c' :: r' =>
                if c' =? c_rbrace then Some (JObject [], r')
                else '(fs, r'') ← parse_members fuel' r; Some (JObject fs, r'')
            end
          else if c =? 0x6E then
            r' ← drop_prefix (js "ull") r; Some (JNull, r')
          else if c =? 0x74 then
            r' ← drop_prefix (js "rue") r; Some (JBool true, r')
          else if c =? 0x66 then
            r' ← drop_prefix (js "alse") r; Some (JBool false, r')
          else parse_number (c :: r)
      end
  end
with parse_elements (fuel : nat) (s : jsstring) :
    option (list json * jsstring) :=
  match fuel with
  | O => None
  | S fuel' =>
      '(v, r) ← parse_value fuel' s;
      match skip_ws r with
      | [] => None
      | c :: r' =>
          if c =? c_comma then
            '(l, r'') ← parse_elements fuel' r'; Some (v :: l, r'')
          else if c =? c_rbracket then Some ([v], r')
          else None
      end
  end
with parse_members (fuel : nat) (s : jsstring) :
    option (list (jsstring * json) * jsstring) :=
  match fuel with
  | O => None
  | S fuel' =>
      match skip_ws s with
      | [] => None
      | c :: r =>
          if c =? c_quote then
            '(k, r1) ← parse_chars r;
            match skip_ws r1 with
            | [] => None
            | c1 :: r2 =>
                if c1 =? c_colon then
                  '(v, r3) ← parse_value fuel' r2;
                  match skip_ws r3 with
                  | [] => None
                  | c3 :: r4 =>
                      if c3 =? c_comma then
                        '(fs, r5) ← parse_members fuel' r4;
                        Some ((k, v) :: fs, r5)
                      else if c3 =? c_rbrace then Some ([(k, v)], r4)
                      else None
                  end
                else None
            end
          else None
      end
  end.

(** [JSON.parse]: one value, white space around it, nothing else. *)
Definition parse (s : jsstring) : result exn json :=
  match parse_value (S (length s)) s with
  | Some (v, r) =>
      match skip_ws r with
      | [] => Ok v
      | _ :: _ => Throw SyntaxError
      end
  | None => Throw SyntaxError
  end.

(** The fuel that parsing the text of a value takes. *)
Fixpoint fuel_of (v : json) : nat :=
  match v with
  | JArray l => S (foldr (λ v n, S (fuel_of v `max` n)) 0%nat l)
  | JObject fs => S (foldr (λ kv n, S (fuel_of kv.2 `max` n)) 0%nat fs)
  | _ => 1
  end.

(** ** Round trip of numbers *)

(** What follows a value in a text: nothing, or a comma, or the bracket or
    brace that closes the enclosing array or object. *)
Definition delimited (s : jsstring) : bool :=
  match s with
  | [] => true
  | c :: _ => (c =? c_comma) || (c =? c_rbracket) || (c =? c_rbrace)
  end.

(** The text of a number starts with a digit or with the minus sign. *)
Definition starts_number (c : code_unit) : bool :=
  (c =? c_minus) || ((0x30 <=? c) && (c <=? 0x39)).

(** The first code unit of the text of a value. *)
Definition starts_value (c : code_unit) : bool :=
  (c =? c_quote) || (c =? c_lbracket) || (c =? c_lbrace) ||
  (c =? 0x6E) || (c =? 0x74) || (c =? 0x66) || starts_number c.

(** Printing [v] and parsing gives [v] back, whatever follows. *)
Definition roundtrips (v : json) : Prop :=
  ∀ fuel rest, (fuel_of v ≤ fuel)%nat → delimited rest = true →
    parse_value fuel (stringify v ++ rest) = Some (v, rest).

Lemma delimited_cases s :
  delimited s = true →
  s = [] ∨ ∃ r, s = c_comma :: r ∨ s = c_rbracket :: r ∨ s = c_rbrace :: r.
Proof.
  destruct s as [|c r]; [by left|]. simpl. intros H. right. exists r.
  repeat (apply orb_true_iff in H as [H|H]); bool_to_prop; subst; auto.
Qed.

Lemma parse_uint_delimited s : delimited s = true → parse_uint s = (Decimal.Nil, s).
Proof. intros [->|[r [->|[->| ->]]]]%delimited_cases; reflexivity. Qed.

Lemma ends_number_delimited s : delimited s = true → ends_number s = true.
Proof. intros [->|[r [->|[->| ->]]]]%delimited_cases; reflexivity. Qed.

Lemma parse_uint_print d rest :
  delimited rest = true → parse_uint (print_uint d ++ rest) = (d, rest).
Proof.
  intros Hrest. induction d; simpl;
    [by apply parse_uint_delimited|change (digit_of _) with (Some Decimal.D0)
    |change (digit_of _) with (Some Decimal.D1)
    |change (digit_of _) with (Some Decimal.D2)
    |change (digit_of _) with (Some Decimal.D3)
    |change (digit_of _) with (Some Decimal.D4)
    |change (digit_of _) with (Some Decimal.D5)
    |change (digit_of _) with (Some Decimal.D6)
    |change (digit_of _) with (Some Decimal.D7)
    |change (digit_of _) with (Some Decimal.D8)
    |change (digit_of _) with (Some Decimal.D9)]; by rewrite IHd.
Qed.

(** A normalised numeral that starts with the digit zero is zero. *)
Lemma unorm_D0_inv d d' : Decimal.unorm d = Decimal.D0 d' → d' = Decimal.Nil.
Proof. induction d; cbn; intros H; by simplify_eq || auto. Qed.

Lemma digits_ok_pos p : digits_ok (Pos.to_uint p) = true.
Proof.
  pose proof (DecimalPos.Unsigned.to_uint_nonnil p) as Hnil.
  pose proof (DecimalPos.Unsigned.to_uint_nonzero p) as Hzero.
  assert (Decimal.unorm (Pos.to_uint p) = Pos.to_uint p) as Hnorm.
  { rewrite <-(DecimalPos.Unsigned.to_of (Pos.to_uint p)).
    by rewrite DecimalPos.Unsigned.of_to. }
  destruct (Pos.to_uint p) as [|d| | | | | | | | |] eqn:E; try done.
  rewrite unorm_D0 in Hnorm. apply unorm_D0_inv in Hnorm as ->. done.
Qed.

Lemma print_uint_head d :
  d ≠ Decimal.Nil →
  ∃ c r, print_uint d = c :: r ∧ (0x30 <=? c) && (c <=? 0x39) = true.
Proof. destruct d; [done|..]; intros _; simpl; eauto. Qed.

Lemma digits_ok_nonnil d : digits_ok d = true → d ≠ Decimal.Nil.
Proof. by destruct d. Qed.

Lemma parse_number_digits d rest :
  digits_ok d = true → delimited rest = true →
  parse_number (print_uint d ++ rest) = Some (JNumber (Z.of_int (Decimal.Pos d)), rest).
Proof.
  intros Hd Hrest. unfold parse_number.
  destruct (print_uint_head d) as (c & r & Hp & Hc); [by apply digits_ok_nonnil|].
  rewrite Hp. simpl. replace (c =? c_minus) with false.
  - change (c :: r ++ rest) with ((c :: r) ++ rest).
    rewrite <-Hp, parse_uint_print by done.
    by rewrite Hd, ends_number_delimited.
  - symmetry. apply N.eqb_neq. apply andb_true_iff in Hc as [? ?].
    bool_to_prop. unfold c_minus. lia.
Qed.

Lemma parse_number_neg_digits d rest :
  digits_ok d = true → delimited rest = true →
  parse_number (c_minus :: print_uint d ++ rest)
  = Some (JNumber (Z.of_int (Decimal.Neg d)), rest).
Proof.
  intros Hd Hrest. unfold parse_number.
  change (c_minus =? c_minus) with true. cbv iota beta.
  rewrite parse_uint_print by done. by rewrite Hd, ends_number_delimited.
Qed.

Lemma parse_number_print z rest :
  delimited rest = true →
  parse_number (print_Z z ++ rest) = Some (JNumber z, rest).
Proof.
  intros Hrest. rewrite <-(DecimalZ.of_to z) at 2. unfold print_Z.
  destruct z as [|p|p]; simpl.
  - by apply (parse_number_digits (Decimal.D0 Decimal.Nil)).
  - apply parse_number_digits; [apply digits_ok_pos|done].
  - apply parse_number_neg_digits; [apply digits_ok_pos|done].
Qed.

(** Different integers have different texts. *)
#[export] Instance print_Z_inj : Inj (=) (=) print_Z.
Proof.
  intros z1 z2 Hz. pose proof (parse_number_print z1 [] eq_refl) as H1.
  pose proof (parse_number_print z2 [] eq_refl) as H2.
  rewrite Hz, H2 in H1. by simplify_eq.
Qed.

Lemma print_Z_head z : ∃ c r, print_Z z = c :: r ∧ starts_number c = true.
Proof.
  unfold print_Z, starts_number. destruct z as [|p|p]; simpl.
  - by exists 0x30, [].
  - destruct (print_uint_head (Pos.to_uint p)) as (c & r & -> & Hc).
    { apply DecimalPos.Unsigned.to_uint_nonnil. }
    exists c, r. by rewrite Hc, orb_true_r.
  - by eexists _, _.
Qed.

(** ** Round trip of strings *)

(** A code unit below 32 is one of thirty-two numbers. *)
Lemma N_lt_32_ind (P : N → Prop) :
  Forall P (N.of_nat <$> seq 0 32) → ∀ c, c < 32 → P c.
Proof.
  intros HP c Hc. rewrite Forall_forall in HP. apply HP.
  apply list_elem_of_fmap. exists (N.to_nat c). split; [lia|].
  apply elem_of_seq. lia.
Qed.

Lemma parse_chars_escape_control c r :
  c < 32 → parse_chars (escape_unit c ++ r) = cons_chars c (parse_chars r).
Proof.
  revert c. apply N_lt_32_ind. cbn [fmap list_fmap seq].
  repeat (constructor; [reflexivity|]). constructor.
Qed.

Lemma parse_chars_escape c r :
  parse_chars (escape_unit c ++ r) = cons_chars c (parse_chars r).
Proof.
  destruct (decide (c < 32)) as [|Hc]; [by apply parse_chars_escape_control|].
  unfold escape_unit.
  destruct (c =? c_quote) eqn:Hq; [by bool_to_prop; subst|].
  destruct (c =? c_backslash) eqn:Hb; [by bool_to_prop; subst|].
  repeat (case_match; [bool_to_prop; lia|]).
  simpl. by rewrite Hq, Hb, (proj2 (N.ltb_ge _ _)) by lia.
Qed.

Lemma parse_chars_print s rest :
  parse_chars ((s ≫= escape_unit) ++ c_quote :: rest) = Some (s, rest).
Proof.
  induction s as [|c s IH]; [done|].
  rewrite bind_cons, <-app_assoc, parse_chars_escape, IH. done.
Qed.

(** ** Round trip of values *)

(** Decide a conjunction of tests on a code unit that lies in a range or
    equals a constant. *)
Ltac code_unit_tests H :=
  repeat (apply orb_true_iff in H as [H|H]);
  repeat (apply andb_true_iff in H as [? ?]); bool_to_prop;
  repeat split; repeat (apply orb_false_iff; split);
  apply N.eqb_neq; unfold c_quote, c_lbracket, c_lbrace, c_rbracket,
    c_rbrace, c_minus, c_comma, c_colon, c_backslash in *; lia.

Lemma starts_number_tests c :
  starts_number c = true →
  is_json_ws c = false ∧ (c =? c_quote) = false ∧ (c =? c_lbracket) = false ∧
  (c =? c_lbrace) = false ∧ (c =? 0x6E) = false ∧ (c =? 0x74) = false ∧
  (c =? 0x66) = false.
Proof. unfold starts_number, is_json_ws. intros H. code_unit_tests H. Qed.

Lemma starts_value_tests c :
  starts_value c = true →
  is_json_ws c = false ∧ (c =? c_rbracket) = false ∧ (c =? c_rbrace) = false.
Proof.
  unfold starts_value, starts_number, is_json_ws. intros H. code_unit_tests H.
Qed.

Lemma skip_ws_cons c r : is_json_ws c = false → skip_ws (c :: r) = c :: r.
Proof. simpl. by intros ->. Qed.

Lemma stringify_head v : ∃ c r, stringify v = c :: r ∧ starts_value c = true.
Proof.
  destruct v as [|[]|n|s|l|fs]; try by eexists _, _.
  destruct (print_Z_head n) as (c & r & Hp & Hc). exists c, r.
  split; [done|]. unfold starts_value. by rewrite Hc, !orb_true_r.
Qed.

Lemma skip_ws_stringify v rest :
  ∃ c r, skip_ws (stringify v ++ rest) = c :: r ∧ stringify v ++ rest = c :: r
    ∧ (c =? c_rbracket) = false ∧ (c =? c_rbrace) = false.
Proof.
  destruct (stringify_head v) as (c & r & -> & Hc).
  apply starts_value_tests in Hc as (Hws & ? & ?).
  exists c, (r ++ rest). by rewrite <-app_comm_cons, skip_ws_cons.
Qed.

(** *** One step of each parser *)

Lemma parse_value_string f r :
  parse_value (S f) (c_quote :: r)
  = '(str, r') ← parse_chars r; Some (JString str, r').
Proof. reflexivity. Qed.

Lemma parse_value_array f r :
  parse_value (S f) (c_lbracket :: r) =
    match skip_ws r with
    | [] => None
    | c' :: r' =>
        if c' =? c_rbracket then Some (JArray [], r')
        else '(l, r'') ← parse_elements f r; Some (JArray l, r'')
    end.
Proof. reflexivity. Qed.

Lemma parse_value_object f r :
  parse_value (S f) (c_lbrace :: r) =
    match skip_ws r with
    | [] => None
    | c' :: r' =>
        if c' =? c_rbrace then Some (JObject [], r')
        else '(fs, r'') ← parse_members f r; Some (JObject fs, r'')
    end.
Proof. reflexivity. Qed.

Lemma parse_value_number f c r :
  starts_number c = true → parse_value (S f) (c :: r) = parse_number (c :: r).
Proof.
  intros (Hws & H1 & H2 & H3 & H4 & H5 & H6)%starts_number_tests.
  cbn [parse_value]. rewrite skip_ws_cons by done.
  by rewrite H1, H2, H3, H4, H5, H6.
Qed.

Lemma parse_elements_S f s :
  parse_elements (S f) s =
    '(v, r) ← parse_value f s;
    match skip_ws r with
    | [] => None
    | c :: r' =>
        if c =? c_comma then
          '(l, r'') ← parse_elements f r'; Some (v :: l, r'')
        else if c =? c_rbracket then Some ([v], r')
        else None
    end.
Proof. reflexivity. Qed.

Lemma parse_members_S f r :
  parse_members (S f) (c_quote :: r) =
    '(k, r1) ← parse_chars r;
    match skip_ws r1 with
    | [] => None
    | c1 :: r2 =>
        if c1 =? c_colon then
          '(v, r3) ← parse_value f r2;
          match skip_ws r3 with
          | [] => None
          | c3 :: r4 =>
              if c3 =? c_comma then
                '(fs, r5) ← parse_members f r4; Some ((k, v) :: fs, r5)
              else if c3 =? c_rbrace then Some ([(k, v)], r4)
              else None
          end
        else None
    end.
Proof. reflexivity. Qed.

(** *** Elements and members *)

Lemma parse_elements_print l :
  l ≠ [] → Forall roundtrips l →
  ∀ fuel rest,
    (foldr (λ v n, S (fuel_of v `max` n)) 0 l ≤ fuel)%nat →
    parse_elements fuel (print_elements stringify l ++ rest) = Some (l, rest).
Proof.
  intros Hl Hall. induction Hall as [|v l Hv Hall IH]; [done|].
  intros [|f] rest Hf; simpl in Hf; [lia|].
  rewrite parse_elements_S. destruct l as [|v' l'].
  - cbn [print_elements]. rewrite <-app_assoc, Hv by (done || lia). done.
  - cbn [print_elements]. rewrite <-app_assoc, <-app_comm_cons.
    rewrite Hv by (done || lia). cbn -[parse_elements print_elements].
    change (c_comma =? c_comma) with true. cbv iota.
    rewrite IH by (done || lia). done.
Qed.

Lemma parse_members_print fs :
  fs ≠ [] → Forall (λ kv, roundtrips kv.2) fs →
  ∀ fuel rest,
    (foldr (λ kv n, S (fuel_of kv.2 `max` n)) 0 fs ≤ fuel)%nat →
    parse_members fuel (print_members stringify fs ++ rest) = Some (fs, rest).
Proof.
  intros Hfs Hall. induction Hall as [|[k v] fs Hv Hall IH]; [done|].
  cbn [snd] in Hv. intros [|f] rest Hf; simpl in Hf; [lia|].
  assert (∀ tail, parse_members (S f)
            (print_string k ++ c_colon :: stringify v ++ tail) =
          '(v0, r3) ← parse_value f (stringify v ++ tail);
          match skip_ws r3 with
          | [] => None
          | c3 :: r4 =>
              if c3 =? c_comma then
                '(fs0, r5) ← parse_members f r4; Some ((k, v0) :: fs0, r5)
              else if c3 =? c_rbrace then Some ([(k, v0)], r4)
              else None
          end) as Hstep.
  { intros tail. unfold print_string.
    rewrite <-app_comm_cons, parse_members_S, <-app_assoc.
    cbn [app]. rewrite parse_chars_print. done. }
  destruct fs as [|kv' fs'].
  - cbn [print_members fst snd]. repeat (rewrite <-?app_assoc; cbn [app]).
    rewrite Hstep, Hv by (done || lia). done.
  - cbn [print_members fst snd]. repeat (rewrite <-?app_assoc; cbn [app]).
    rewrite Hstep, Hv by (done || lia).
    cbn -[parse_members print_members].
    change (c_comma =? c_comma) with true. cbv iota.
    rewrite IH by (done || lia). done.
Qed.

(** *** The round trip *)

Lemma stringify_roundtrips v : roundtrips v.
Proof.
  induction v as [|b|n|s|l IH|fs IH] using json_induction;
    intros [|f] rest Hf Hrest;
    try (simpl in Hf; lia).
  - reflexivity.
  - by destruct b.
  - destruct (print_Z_head n) as (c & r & Hp & Hc). cbn [stringify].
    rewrite Hp, <-app_comm_cons, parse_value_number by done.
    rewrite app_comm_cons, <-Hp. by apply parse_number_print.
  - cbn [stringify]. unfold print_string.
    rewrite <-app_comm_cons, parse_value_string, <-app_assoc.
    cbn [app]. by rewrite parse_chars_print.
  - cbn [stringify]. rewrite <-app_comm_cons, parse_value_array.
    destruct l as [|v l]; [done|].
    assert (∃ c r, skip_ws (print_elements stringify (v :: l) ++ rest) = c :: r
                   ∧ (c =? c_rbracket) = false) as (c & r & -> & ->).
    { destruct (skip_ws_stringify v
        (match l with [] => [c_rbracket] | _ :: _ =>
           c_comma :: print_elements stringify l end ++ rest))
        as (c & r & Hs & _ & Hc & _).
      exists c, r. split; [|done]. rewrite <-Hs. f_equal.
      cbn [print_elements]. destruct l; by rewrite <-app_assoc. }
    rewrite parse_elements_print; [done..|]. cbn [fuel_of] in Hf. lia.
  - cbn [stringify]. rewrite <-app_comm_cons, parse_value_object.
    destruct fs as [|kv fs]; [done|].
    assert (∃ c r, skip_ws (print_members stringify (kv :: fs) ++ rest) = c :: r
                   ∧ (c =? c_rbrace) = false) as (c & r & -> & ->).
    { cbn [print_members]. unfold print_string.
      destruct fs; (exists c_quote; eexists; split; [reflexivity|done]). }
    rewrite parse_members_print; [done..|]. cbn [fuel_of] in Hf. lia.
Qed.

(** *** The length of the text is enough fuel *)

Lemma fuel_of_elements l :
  Forall (λ v, (fuel_of v ≤ length (stringify v))%nat) l →
  (foldr (λ v n, S (fuel_of v `max` n)) 0 l
   ≤ length (print_elements stringify l))%nat.
Proof.
  induction 1 as [|v l Hv _ IH]; simpl; [lia|].
  destruct l; simpl in *; rewrite length_app; simpl; lia.
Qed.

Lemma fuel_of_members fs :
  Forall (λ kv, (fuel_of kv.2 ≤ length (stringify kv.2))%nat) fs →
  (foldr (λ kv n, S (fuel_of kv.2 `max` n)) 0 fs
   ≤ length (print_members stringify fs))%nat.
Proof.
  induction 1 as [|kv fs Hv _ IH]; simpl; [lia|].
  destruct fs; simpl in *; rewrite !length_app; simpl;
    rewrite ?length_app; simpl; lia.
Qed.

Lemma fuel_of_le_length v : (fuel_of v ≤ length (stringify v))%nat.
Proof.
  induction v as [|b|n|s|l IH|fs IH] using json_induction.
  - simpl. lia.
  - destruct b; simpl; lia.
  - destruct (stringify_head (JNumber n)) as (c & r & -> & _). simpl. lia.
  - destruct (stringify_head (JString s)) as (c & r & -> & _). simpl. lia.
  - cbn [fuel_of stringify length]. apply le_n_S. by apply fuel_of_elements.
  - cbn [fuel_of stringify length]. apply le_n_S. by apply fuel_of_members.
Qed.

(** ** The contract is met *)

Lemma parse_stringify v : parse (stringify v) = Ok v.
Proof.
  unfold parse.
  rewrite <-(app_nil_r (stringify v)) at 2.
  rewrite stringify_roundtrips; [done| |done].
  pose proof (fuel_of_le_length v). lia.
Qed.

Lemma stringify_nonempty v : stringify v ≠ [].
Proof. by destruct (stringify_head v) as (c & r & -> & _). Qed.

Lemma parse_throws s e : parse s = Throw e → e = SyntaxError.
Proof. unfold parse. repeat case_match; naive_solver. Qed.

#[export] Instance ref_codec : JsonCodec := {|
  JSON_parse := parse;
  JSON_stringify := stringify;
  JSON_parse_stringify v _ := parse_stringify v;
  JSON_stringify_nonempty := stringify_nonempty;
  JSON_parse_throws := parse_throws;
|}.

(** ** The parser on texts the printer does not write *)

Example parse_white_space :
  parse (js " [ 1 , 2 ,[ ] ] ") = Ok (JArray [JNumber 1; JNumber 2; JArray []]).
Proof. reflexivity. Qed.

Example parse_leading_zero : parse (js "01") = Throw SyntaxError.
Proof. reflexivity. Qed.

Example parse_trailing_comma : parse (js "[1,]") = Throw SyntaxError.
Proof. reflexivity. Qed.

Example parse_empty : parse [] = Throw SyntaxError.
Proof. reflexivity. Qed.

Example parse_fraction : parse (js "1.5") = Throw SyntaxError.
Proof. reflexivity. Qed.
