(* ===== verification/Storage.v ===== *)
(** * The leaderboard store of [src/services/storage.ts]

    [localStorage] is a finite map from keys to strings.  The three
    exported functions are [getLeaderboard], [saveScore] and
    [resetLeaderboard]; the identifier and the time stamp of a new entry,
    which the code takes from [crypto.randomUUID()] and [Date.now()], are
    arguments of [saveScore].

    [JSON.parse] returns a value of any shape and the code uses it as a
    [LeaderboardEntry[]] unchecked.  The model decodes the value into a list
    of entries; where the stored text parses into something else,
    [getLeaderboard] is [None]: the behaviour of the program on such a value
    (a [TypeError] from the spread of a number, single characters from the
    spread of a string) is outside this model.  [storage_inv] states that
    this does not happen, and every operation keeps it. *)

From stdpp Require Import gmap.
From S2P Require Import Prelude JsString JsArray Types Json JsonRef.

#[local] Open Scope Z_scope.

(** ** [localStorage] *)

Abbreviation Storage := (gmap jsstring jsstring).

Definition getItem (k : jsstring) (st : Storage) : option jsstring := st !! k.
Definition setItem (k v : jsstring) (st : Storage) : Storage := <[k:=v]> st.
Definition removeItem (k : jsstring) (st : Storage) : Storage := delete k st.

Definition STORAGE_KEY : jsstring := js "ai_quiz_leaderboard".

(** ** Entries as JSON values *)

(** The object literal of [saveScore], members in the order written. *)
Definition encode_entry (e : LeaderboardEntry) : json :=
  JObject [(js "id", JString (e_id e)); (js "name", JString (name e));
           (js "score", JNumber (score e));
           (js "timestamp", JNumber (timestamp e))].

Definition encode_entries (l : list LeaderboardEntry) : json :=
  JArray (encode_entry <$> l).

(** The parsed value read as a [LeaderboardEntry]. *)
Definition decode_entry (v : json) : option LeaderboardEntry :=
  match v with
  | JObject [(k1, JString i); (k2, JString n); (k3, JNumber s);
             (k4, JNumber t)] =>
      if decide (k1 = js "id" ∧ k2 = js "name" ∧ k3 = js "score"
                 ∧ k4 = js "timestamp")
      then Some (mkEntry i n s t) else None
  | _ => None
  end.

Definition decode_entries (v : json) : option (list LeaderboardEntry) :=
  match v with
  | JArray l => mapM decode_entry l
  | _ => None
  end.

(** An entry whose JSON value every engine prints and parses back. *)
Definition entry_json_ok (e : LeaderboardEntry) : Prop :=
  jsstring_ok (e_id e) ∧ jsstring_ok (name e) ∧
  safe_integer (score e) ∧ safe_integer (timestamp e).

#[export] Instance entry_json_ok_dec e : Decision (entry_json_ok e).
Proof. unfold entry_json_ok, jsstring_ok. apply _. Defined.

(** ** The comparator of [saveScore] *)

(** [(a, b) => b.score - a.score]: higher scores first. *)
Definition compare_score (a b : LeaderboardEntry) : Z := score b - score a.

Section storage.
Context `{JsonCodec}.

(** ** [getLeaderboard] *)

Definition getLeaderboard (st : Storage) : option (list LeaderboardEntry) :=
  try_catch
    (match getItem STORAGE_KEY st with
     | None => Ok (Some [])
     | Some data =>
         if negb (truthy data) then Ok (Some [])
         else result_map decode_entries (JSON_parse data)
     end)
    (λ _, Some []).

(** ** [saveScore] *)

Definition newEntry (name : jsstring) (score : Z) (uuid : jsstring) (now : Z) :
    LeaderboardEntry :=
  {| e_id := uuid; name := name; score := score; timestamp := now |}.

(** The new list: append, sort by score, keep the first hundred. *)
Definition updated (current : list LeaderboardEntry) (e : LeaderboardEntry) :
    list LeaderboardEntry :=
  slice0 100 (sort compare_score (spread_push current e)).

Definition saveScore (name : jsstring) (score : Z) (uuid : jsstring) (now : Z)
    (st : Storage) : option (list LeaderboardEntry * Storage) :=
  current ← getLeaderboard st;
  let l := updated current (newEntry name score uuid now) in
  Some (l, setItem STORAGE_KEY (JSON_stringify (encode_entries l)) st).

(** ** [resetLeaderboard] *)

Definition resetLeaderboard (st : Storage) : Storage :=
  removeItem STORAGE_KEY st.

(** ** The invariant of the store *)

(** A leaderboard as the program keeps it: ordered by score, at most a
    hundred entries, each printable. *)
Definition leaderboard_ok (l : list LeaderboardEntry) : Prop :=
  sorted compare_score l ∧ (length l ≤ 100)%nat ∧ Forall entry_json_ok l.

(** The store holds nothing under the key, or the text of a leaderboard. *)
Definition storage_inv (st : Storage) : Prop :=
  st !! STORAGE_KEY = None ∨
  ∃ l, st !! STORAGE_KEY = Some (JSON_stringify (encode_entries l))
       ∧ leaderboard_ok l.
End storage.

(** Two states of [localStorage] with the same item under the key of the
    leaderboard: what other code of the origin keeps under other keys is
    of no concern to the store. *)
Definition same_item (st st' : Storage) : Prop :=
  getItem STORAGE_KEY st = getItem STORAGE_KEY st'.

(** ** Example data *)

(** A store that holds two entries, and a full leaderboard
    of one hundred entries that score 50. *)
Definition example_entry (n : jsstring) (s : Z) : LeaderboardEntry :=
  {| e_id := js "id-" ++ n; name := n; score := s; timestamp := 1700000000000 |}.

Definition example_board : list LeaderboardEntry :=
  [example_entry (js "Amy") 90; example_entry (js "Bob") 70].

Definition example_store : Storage :=
  setItem STORAGE_KEY (stringify (encode_entries example_board)) ∅.

Definition full_board : list LeaderboardEntry :=
  replicate 100 (example_entry (js "Zoe") 50).

Definition full_store : Storage :=
  setItem STORAGE_KEY (stringify (encode_entries full_board)) ∅.

(** A store whose text is not JSON. *)
Definition corrupt_store : Storage := setItem STORAGE_KEY (js "[{oops") ∅.

(** The number of entries of [current] that score at least [sc]: the new
    entry goes behind them. *)
Definition ahead (sc : Z) (current : list LeaderboardEntry) : nat :=
  length (filter (λ y, sc ≤ score y) current).

(** ** The comparator is consistent *)

#[export] Instance compare_score_consistent : Consistent compare_score.
Proof. split; unfold compare_score; intros; lia. Qed.

Lemma precedes_score a b : precedes compare_score a b ↔ score b ≤ score a.
Proof. unfold precedes, compare_score. lia. Qed.

Lemma tied_score a b : tied compare_score a b ↔ score a = score b.
Proof. unfold tied, compare_score. lia. Qed.

(** An ordered leaderboard lists the scores from high to low. *)
Lemma sorted_scores l :
  sorted compare_score l ↔
  ∀ i j a b, l !! i = Some a → l !! j = Some b → (i < j)%nat → score b ≤ score a.
Proof.
  unfold sorted. rewrite StronglySorted_lookup.
  split; intros Hl i j a b Hi Hj Hij; apply precedes_score; eauto.
Qed.

(** ** Typing of the stored value *)

Lemma decode_encode_entry e : decode_entry (encode_entry e) = Some e.
Proof. by destruct e. Qed.

Lemma decode_encode_entries l : decode_entries (encode_entries l) = Some l.
Proof.
  unfold decode_entries, encode_entries. apply mapM_Some. 
  apply Forall2_fmap_l, Forall_Forall2_diag, Forall_forall.
  intros e _. apply decode_encode_entry.
Qed.

(** Decoding accepts nothing but the encoding of an entry. *)
Lemma decode_entry_Some v e : decode_entry v = Some e → v = encode_entry e.
Proof.
  unfold decode_entry. intros Hd.
  repeat (case_match; simplify_eq; try done).
  destruct_and!. by simplify_eq.
Qed.

Lemma decode_entries_Some v l : decode_entries v = Some l → v = encode_entries l.
Proof.
  destruct v as [| | | |vs|]; try done. simpl. intros Hl%mapM_Some.
  unfold encode_entries. f_equal.
  induction Hl as [|v e vs l Hv _ IH]; [done|].
  simpl. by rewrite (decode_entry_Some _ _ Hv), IH.
Qed.

Lemma entry_json_ok_encode e : entry_json_ok e → json_ok (encode_entry e).
Proof.
  intros (? & ? & ? & ?). apply json_ok_object. split.
  - by apply (bool_decide_unpack _).
  - repeat (apply Forall_cons; split;
              [split; [by apply (bool_decide_unpack _)|by simpl]|]).
    constructor.
Qed.

Lemma entries_json_ok_encode l :
  Forall entry_json_ok l → json_ok (encode_entries l).
Proof.
  intros Hl. apply json_ok_array, Forall_fmap.
  eapply Forall_impl; [done|]. apply entry_json_ok_encode.
Qed.

(** ** [getLeaderboard], branch by branch *)

Section storage_facts.
Context `{JsonCodec}.
Implicit Types (st : Storage) (l current : list LeaderboardEntry).
Implicit Types (e : LeaderboardEntry) (nm uuid : jsstring) (sc now : Z).

(** Nothing stored: the empty list. *)
Lemma getLeaderboard_absent st :
  st !! STORAGE_KEY = None → getLeaderboard st = Some [].
Proof. unfold getLeaderboard, getItem. by intros ->. Qed.

(** The empty string is falsy: the empty list, without parsing. *)
Lemma getLeaderboard_empty_text st :
  st !! STORAGE_KEY = Some [] → getLeaderboard st = Some [].
Proof. unfold getLeaderboard, getItem. by intros ->. Qed.

(** A text that does not parse: the error is caught, the empty list. *)
Lemma getLeaderboard_corrupt st data x :
  st !! STORAGE_KEY = Some data → JSON_parse data = Throw x →
  getLeaderboard st = Some [].
Proof.
  unfold getLeaderboard, getItem. intros -> Hp.
  destruct (truthy data); simpl; [by rewrite Hp|done].
Qed.

Lemma truthy_stringify v : truthy (JSON_stringify v) = true.
Proof.
  pose proof (JSON_stringify_nonempty v). by destruct (JSON_stringify v).
Qed.

(** The text of a leaderboard: that leaderboard. *)
Lemma getLeaderboard_stored st l :
  st !! STORAGE_KEY = Some (JSON_stringify (encode_entries l)) →
  Forall entry_json_ok l → getLeaderboard st = Some l.
Proof.
  unfold getLeaderboard, getItem. intros -> Hl.
  rewrite truthy_stringify. simpl.
  rewrite JSON_parse_stringify by by apply entries_json_ok_encode.
  simpl. apply decode_encode_entries.
Qed.

Lemma getLeaderboard_inv st :
  storage_inv st → ∃ l, getLeaderboard st = Some l ∧ leaderboard_ok l.
Proof.
  intros [Hst|(l & Hst & Hl)].
  - exists []. split; [by apply getLeaderboard_absent|].
    split_and!; [constructor|simpl; lia|constructor].
  - exists l. split; [|done]. apply getLeaderboard_stored; [done|apply Hl].
Qed.

(** ** The new list *)

Lemma updated_sorted current e : sorted compare_score (updated current e).
Proof. apply StronglySorted_take, sort_sorted, _. Qed.

Lemma updated_length current e :
  length (updated current e) = (100 `min` S (length current))%nat.
Proof.
  unfold updated, slice0, spread_push.
  rewrite length_take, sort_length, length_app. cbn [length]. lia.
Qed.

Lemma updated_elem_of current e x :
  x ∈ updated current e → x = e ∨ x ∈ current.
Proof.
  unfold updated, slice0, spread_push.
  intros Hx%elem_of_take_elem%elem_of_sort. set_solver.
Qed.

Lemma updated_Forall (P : LeaderboardEntry → Prop) current e :
  Forall P current → P e → Forall P (updated current e).
Proof.
  intros Hc He. apply Forall_take, Forall_sort, Forall_app. by repeat constructor.
Qed.

(** The identifiers stay different from each other when the new one is
    fresh. *)
Lemma updated_ids current e :
  NoDup (e_id <$> current) → e_id e ∉ e_id <$> current →
  NoDup (e_id <$> updated current e).
Proof.
  intros Hn He. unfold updated, slice0, spread_push. rewrite fmap_take.
  eapply sublist_NoDup; [|apply sublist_take].
  rewrite sort_Permutation, fmap_app. apply NoDup_app. split_and!; [done| |].
  - by intros x Hx [->|[]%elem_of_nil]%elem_of_cons.
  - apply NoDup_singleton.
Qed.

Lemma updated_ok current e :
  Forall entry_json_ok current → entry_json_ok e →
  leaderboard_ok (updated current e).
Proof.
  intros Hc He. split_and!.
  - apply updated_sorted.
  - rewrite updated_length. lia.
  - by apply updated_Forall.
Qed.

(** On an ordered leaderboard, sorting the extended list is inserting the
    new entry behind the entries that score at least as much. *)
Lemma updated_place current e :
  sorted compare_score current →
  updated current e = take 100 (place compare_score e current).
Proof.
  intros Hc. unfold updated, slice0.
  by rewrite sort_snoc_sorted by (done || apply _).
Qed.

(** ** [saveScore] *)

Lemma saveScore_unfold nm sc uuid now st current :
  getLeaderboard st = Some current →
  saveScore nm sc uuid now st =
    let l := updated current (newEntry nm sc uuid now) in
    Some (l, <[STORAGE_KEY := JSON_stringify (encode_entries l)]> st).
Proof. unfold saveScore. by intros ->. Qed.

(** [saveScore] returns whenever the store holds a leaderboard. *)
Lemma saveScore_total nm sc uuid now st :
  storage_inv st → is_Some (saveScore nm sc uuid now st).
Proof.
  intros (current & Hg & _)%getLeaderboard_inv.
  rewrite (saveScore_unfold _ _ _ _ _ _ Hg). by eexists.
Qed.

(** Only the key of the leaderboard is written. *)
Lemma saveScore_frame nm sc uuid now st l st' k :
  saveScore nm sc uuid now st = Some (l, st') → k ≠ STORAGE_KEY →
  st' !! k = st !! k.
Proof.
  unfold saveScore. intros Hs Hk.
  destruct (getLeaderboard st); simplify_eq/=.
  unfold setItem. by rewrite lookup_insert_ne.
Qed.

(** What [saveScore] returns is what it stores. *)
Lemma saveScore_stored nm sc uuid now st l st' :
  saveScore nm sc uuid now st = Some (l, st') →
  st' !! STORAGE_KEY = Some (JSON_stringify (encode_entries l)).
Proof.
  unfold saveScore. intros Hs.
  destruct (getLeaderboard st); simplify_eq/=.
  unfold setItem. by rewrite lookup_insert_eq.
Qed.

(** The invariant of the store is kept, and the list returned is a
    leaderboard. *)
Lemma saveScore_inv nm sc uuid now st l st' :
  storage_inv st → entry_json_ok (newEntry nm sc uuid now) →
  saveScore nm sc uuid now st = Some (l, st') →
  leaderboard_ok l ∧ storage_inv st'.
Proof.
  intros (current & Hg & Hc)%getLeaderboard_inv He Hs.
  assert (leaderboard_ok l) as Hl.
  { rewrite (saveScore_unfold _ _ _ _ _ _ Hg) in Hs. simplify_eq/=.
    apply updated_ok; [apply Hc|done]. }
  split; [done|]. right. exists l. split; [|done].
  by eapply saveScore_stored.
Qed.

(** Reading after writing returns the list written. *)
Lemma saveScore_read_back nm sc uuid now st l st' :
  storage_inv st → entry_json_ok (newEntry nm sc uuid now) →
  saveScore nm sc uuid now st = Some (l, st') →
  getLeaderboard st' = Some l.
Proof.
  intros Hst He Hs. destruct (saveScore_inv _ _ _ _ _ _ _ Hst He Hs) as [Hl _].
  apply getLeaderboard_stored; [by eapply saveScore_stored|apply Hl].
Qed.

(** ** [resetLeaderboard] *)

Lemma resetLeaderboard_empty st : getLeaderboard (resetLeaderboard st) = Some [].
Proof.
  apply getLeaderboard_absent. unfold resetLeaderboard, removeItem.
  apply lookup_delete_eq.
Qed.

Lemma resetLeaderboard_inv st : storage_inv (resetLeaderboard st).
Proof. left. unfold resetLeaderboard, removeItem. apply lookup_delete_eq. Qed.

Lemma resetLeaderboard_frame st k :
  k ≠ STORAGE_KEY → resetLeaderboard st !! k = st !! k.
Proof. intros Hk. unfold resetLeaderboard, removeItem. by rewrite lookup_delete_ne. Qed.

Lemma storage_inv_empty : storage_inv ∅.
Proof. by left. Qed.

(** ** The store is one item *)

(** The three functions read and write the item of the leaderboard and
    nothing else: on states with the same item they return the same list
    and leave the same item. *)
#[export] Instance same_item_equiv : Equivalence same_item.
Proof.
  unfold same_item. split; [done|by intros ?? ->|by intros ??? -> ->].
Qed.

#[export] Instance getLeaderboard_proper :
  Proper (same_item ==> (=)) getLeaderboard.
Proof. intros st st' Hst. unfold getLeaderboard. by rewrite Hst. Qed.

#[export] Instance storage_inv_proper : Proper (same_item ==> iff) storage_inv.
Proof.
  intros st st' Hst. unfold storage_inv, same_item, getItem in *.
  by rewrite Hst.
Qed.

#[export] Instance resetLeaderboard_proper :
  Proper (same_item ==> same_item) resetLeaderboard.
Proof.
  unfold same_item, resetLeaderboard, getItem, removeItem. intros st st' Hst.
  by rewrite ?lookup_delete_eq.
Qed.

#[export] Instance saveScore_proper nm sc uuid now :
  Proper (same_item ==> option_Forall2 (prod_relation (=) same_item))
    (saveScore nm sc uuid now).
Proof.
  intros st st' Hst. unfold saveScore. rewrite <-Hst.
  destruct (getLeaderboard st) as [current|]; simpl; constructor.
  split; [done|]. unfold same_item, getItem, setItem. simpl.
  by rewrite !lookup_insert_eq.
Qed.

(** A write under another key is not seen. *)
Lemma same_item_setItem k v st :
  k ≠ STORAGE_KEY → same_item (setItem k v st) st.
Proof.
  intros Hk. unfold same_item, getItem, setItem. by rewrite lookup_insert_ne.
Qed.

Lemma same_item_removeItem k st :
  k ≠ STORAGE_KEY → same_item (removeItem k st) st.
Proof.
  intros Hk. unfold same_item, getItem, removeItem.
  by rewrite lookup_delete_ne.
Qed.

Lemma getLeaderboard_other_key k v st :
  k ≠ STORAGE_KEY → getLeaderboard (setItem k v st) = getLeaderboard st.
Proof. intros Hk. by rewrite same_item_setItem. Qed.
End storage_facts.

(** ** Where the new entry lands *)

Section position.
Implicit Types (current : list LeaderboardEntry) (e : LeaderboardEntry).

Lemma rank_score e current :
  rank compare_score e current
  = length (filter (λ y, score e ≤ score y) current).
Proof.
  unfold rank. f_equal. apply list_filter_iff. intros y. apply precedes_score.
Qed.

(** The new entry stands at the index that counts the entries scoring at
    least as much, when that index is below one hundred. *)
Lemma new_entry_position current e :
  sorted compare_score current →
  (rank compare_score e current < 100)%nat →
  updated current e !! rank compare_score e current = Some e.
Proof.
  intros Hc Hr. rewrite updated_place by done.
  rewrite lookup_take_lt by done. by apply place_lookup_rank; [apply _|].
Qed.

(** Otherwise the new entry is cut off and the leaderboard is as before. *)
Lemma new_entry_dropped current e :
  sorted compare_score current →
  (100 ≤ rank compare_score e current)%nat →
  updated current e = take 100 current.
Proof.
  intros Hc Hr.
  rewrite updated_place, (place_rank compare_score) by (done || apply _).
  pose proof (rank_le_length compare_score e current).
  rewrite take_app_le by (rewrite length_take; lia).
  rewrite take_take. f_equal. lia.
Qed.

(** The entries that stay keep their order, and at most the last one
    leaves. *)
Lemma updated_truncation current e :
  sorted compare_score current →
  (rank compare_score e current < 100)%nat →
  updated current e =
    take (rank compare_score e current) current
    ++ e :: take (99 - rank compare_score e current)
              (drop (rank compare_score e current) current).
Proof.
  intros Hc Hr.
  rewrite updated_place, (place_rank compare_score) by (done || apply _).
  pose proof (rank_le_length compare_score e current).
  rewrite take_app_ge by (rewrite length_take; lia).
  rewrite length_take.
  replace (100 - rank compare_score e current `min` length current)%nat
    with (S (99 - rank compare_score e current)) by lia.
  done.
Qed.

(** A score above all others goes to the top. *)
Lemma new_entry_top current e :
  sorted compare_score current →
  Forall (λ y, score y < score e) current →
  head (updated current e) = Some e.
Proof.
  intros Hc Hall.
  assert (rank compare_score e current = 0%nat) as Hr.
  { rewrite rank_score, filter_none; [done|].
    eapply Forall_impl; [done|]. simpl. lia. }
  rewrite head_lookup, <-Hr. apply new_entry_position; [done|lia].
Qed.
End position.

(** ** The theorems of the store *)

Section main.
Context `{JsonCodec}.
Implicit Types (st : Storage) (l current : list LeaderboardEntry).
Implicit Types (e : LeaderboardEntry) (nm uuid : jsstring) (sc now : Z).

Lemma rank_ahead nm sc uuid now current :
  rank compare_score (newEntry nm sc uuid now) current = ahead sc current.
Proof. by rewrite rank_score. Qed.

Lemma storage_inv_sorted st current :
  storage_inv st → getLeaderboard st = Some current →
  sorted compare_score current ∧ (length current ≤ 100)%nat.
Proof.
  intros (l & Hl & Hs & Hlen & _)%getLeaderboard_inv Hg.
  rewrite Hl in Hg. by simplify_eq.
Qed.

(** C1: [saveScore] keeps the leaderboard in order and within bounds.
    On a store that holds a leaderboard (or nothing) it returns; the list
    it returns has the scores from high to low and at most 100 entries;
    the store it leaves holds that list, so that [getLeaderboard] returns
    it, and is again a store that holds a leaderboard. *)
Theorem saveScore_correct nm sc uuid now st :
  storage_inv st → entry_json_ok (newEntry nm sc uuid now) →
  ∃ l st', saveScore nm sc uuid now st = Some (l, st')
    ∧ (∀ i j a b, l !! i = Some a → l !! j = Some b → (i < j)%nat →
                  score b ≤ score a)
    ∧ (length l ≤ 100)%nat
    ∧ getLeaderboard st' = Some l
    ∧ storage_inv st'.
Proof.
  intros Hst He.
  destruct (saveScore_total nm sc uuid now st Hst) as [[l st'] Hs].
  destruct (saveScore_inv _ _ _ _ _ _ _ Hst He Hs) as [(Hl & Hlen & _) Hst'].
  exists l, st'. split_and!; [done|by apply sorted_scores|done| |done].
  exact (saveScore_read_back _ _ _ _ _ _ _ Hst He Hs).
Qed.

(** C9: where the new entry lands.  When fewer than 100 entries score at
    least as much as the new one, the new leaderboard is the earlier
    entries that score at least as much, in their order, then the new
    entry, then the other earlier entries in their order, cut so that 100
    remain: an entry with an equal score stays ahead of the new one, and
    at most the last entry leaves. *)
Theorem saveScore_position nm sc uuid now st current :
  storage_inv st → getLeaderboard st = Some current →
  (ahead sc current < 100)%nat →
  ∃ st', saveScore nm sc uuid now st
    = Some (take (ahead sc current) current
            ++ newEntry nm sc uuid now
               :: take (99 - ahead sc current)
                    (drop (ahead sc current) current), st').
Proof.
  intros Hst Hg Hr. destruct (storage_inv_sorted st current Hst Hg) as [Hs _].
  rewrite (saveScore_unfold _ _ _ _ _ current Hg). eexists. cbn zeta.
  rewrite updated_truncation by (by rewrite ?rank_ahead).
  by rewrite rank_ahead.
Qed.

(** C14: a full leaderboard drops a score that does not beat its last
    entry.  When 100 entries score at least as much as the new one, the
    list [saveScore] returns and stores is the earlier list: the new entry
    is not in it. *)
Theorem saveScore_dropped nm sc uuid now st current :
  storage_inv st → getLeaderboard st = Some current →
  (100 ≤ ahead sc current)%nat →
  ∃ st', saveScore nm sc uuid now st = Some (current, st')
    ∧ getLeaderboard st' = Some current.
Proof.
  intros Hst Hg Hr.
  destruct (storage_inv_sorted st current Hst Hg) as [Hs Hlen].
  rewrite (saveScore_unfold _ _ _ _ _ current Hg). eexists. cbn zeta.
  rewrite new_entry_dropped, take_ge by (by rewrite ?rank_ahead).
  split; [done|]. apply getLeaderboard_stored; [apply lookup_insert_eq|].
  destruct (getLeaderboard_inv st Hst) as (l & Hl & _ & _ & Hok).
  rewrite Hl in Hg. by simplify_eq.
Qed.

(** C12: [getLeaderboard] recovers from a missing or corrupt store.  When
    nothing is stored under the key, or the empty string, or a text that
    [JSON.parse] rejects, the result is the empty list and nothing is
    thrown. *)
Theorem getLeaderboard_recovers st :
  st !! STORAGE_KEY = None ∨ st !! STORAGE_KEY = Some []
  ∨ (∃ data x, st !! STORAGE_KEY = Some data ∧ JSON_parse data = Throw x) →
  getLeaderboard st = Some [].
Proof.
  intros [Hn|[He|(data & x & Hd & Hp)]];
    eauto using getLeaderboard_absent, getLeaderboard_empty_text,
      getLeaderboard_corrupt.
Qed.

(** [resetLeaderboard] empties the leaderboard and nothing else.
    After it [getLeaderboard] returns the empty list whatever was stored,
    the store holds a leaderboard, and every other key keeps its value. *)
Lemma resetLeaderboard_clears st :
  getLeaderboard (resetLeaderboard st) = Some []
  ∧ storage_inv (resetLeaderboard st)
  ∧ ∀ k, k ≠ STORAGE_KEY → resetLeaderboard st !! k = st !! k.
Proof.
  split_and!; [apply resetLeaderboard_empty|apply resetLeaderboard_inv|].
  intros k Hk. by apply resetLeaderboard_frame.
Qed.

(** [saveScore] writes one key.  The text under the key of the
    leaderboard is the JSON text of the list returned, and every other
    key of [localStorage] keeps its value. *)
Lemma saveScore_writes_one_key nm sc uuid now st l st' :
  saveScore nm sc uuid now st = Some (l, st') →
  st' !! STORAGE_KEY = Some (JSON_stringify (encode_entries l))
  ∧ ∀ k, k ≠ STORAGE_KEY → st' !! k = st !! k.
Proof.
  intros Hs. split; [by eapply saveScore_stored|].
  intros k Hk. by eapply saveScore_frame.
Qed.

(** C30: a new best score is read back first.  When the new score is
    above every score of the leaderboard, [getLeaderboard] after
    [saveScore] returns a list whose first entry is the new one. *)
Theorem saveScore_top nm sc uuid now st current :
  storage_inv st → entry_json_ok (newEntry nm sc uuid now) →
  getLeaderboard st = Some current →
  Forall (λ y, score y < sc) current →
  ∃ l st', saveScore nm sc uuid now st = Some (l, st')
    ∧ getLeaderboard st' = Some l
    ∧ head l = Some (newEntry nm sc uuid now).
Proof.
  intros Hst He Hg Hall.
  destruct (storage_inv_sorted st current Hst Hg) as [Hs _].
  destruct (saveScore_total nm sc uuid now st Hst) as [[l st'] Hsave].
  exists l, st'.
  split_and!; [done|exact (saveScore_read_back _ _ _ _ _ _ _ Hst He Hsave)|].
  rewrite (saveScore_unfold _ _ _ _ _ current Hg) in Hsave. simplify_eq/=.
  by apply new_entry_top.
Qed.

End main.

(** ** The theorems on the example stores, with the reference codec *)



Lemma example_store_inv : storage_inv (H := ref_codec) example_store.
Proof.
  right. exists example_board. split; [apply lookup_insert_eq|].
  split_and!; [|simpl; lia|]; by apply (bool_decide_unpack _).
Qed.

Lemma full_store_inv : storage_inv (H := ref_codec) full_store.
Proof.
  right. exists full_board. split; [apply lookup_insert_eq|].
  split_and!; [|simpl; lia|]; by apply (bool_decide_unpack _).
Qed.

Lemma example_store_board :
  getLeaderboard (H := ref_codec) example_store = Some example_board.
Proof.
  apply getLeaderboard_stored; [apply lookup_insert_eq|].
  by apply (bool_decide_unpack _).
Qed.

Lemma full_store_board :
  getLeaderboard (H := ref_codec) full_store = Some full_board.
Proof.
  apply getLeaderboard_stored; [apply lookup_insert_eq|].
  by apply (bool_decide_unpack _).
Qed.

Lemma saveScore_correct_witness :
  ∃ l st',
    saveScore (H := ref_codec) (js "Cy") 80 (js "id-Cy") 1700000000001
      example_store = Some (l, st')
    ∧ (∀ i j a b, l !! i = Some a → l !! j = Some b → (i < j)%nat →
                  score b ≤ score a)
    ∧ (length l ≤ 100)%nat
    ∧ getLeaderboard (H := ref_codec) st' = Some l
    ∧ storage_inv (H := ref_codec) st'.
Proof.
  apply (saveScore_correct (H := ref_codec) (js "Cy") 80 (js "id-Cy")
           1700000000001 example_store);
    [apply example_store_inv|by apply (bool_decide_unpack _)].
Defined.

Lemma saveScore_position_witness :
  ∃ st',
    saveScore (H := ref_codec) (js "Cy") 80 (js "id-Cy") 1700000000001
      example_store
    = Some (take (ahead 80 example_board) example_board
            ++ newEntry (js "Cy") 80 (js "id-Cy") 1700000000001
               :: take (99 - ahead 80 example_board)
                    (drop (ahead 80 example_board) example_board), st').
Proof.
  apply (saveScore_position (H := ref_codec) (js "Cy") 80 (js "id-Cy")
           1700000000001 example_store example_board);
    [apply example_store_inv|apply example_store_board|vm_compute; lia].
Defined.

Lemma saveScore_dropped_witness :
  ∃ st',
    saveScore (H := ref_codec) (js "Cy") 50 (js "id-Cy") 1700000000001
      full_store = Some (full_board, st')
    ∧ getLeaderboard (H := ref_codec) st' = Some full_board.
Proof.
  apply (saveScore_dropped (H := ref_codec) (js "Cy") 50 (js "id-Cy")
           1700000000001 full_store full_board);
    [apply full_store_inv|apply full_store_board|vm_compute; lia].
Defined.

Lemma getLeaderboard_recovers_witness :
  getLeaderboard (H := ref_codec) corrupt_store = Some [].
Proof.
  apply (getLeaderboard_recovers (H := ref_codec) corrupt_store).
  right. right. exists (js "[{oops"), SyntaxError.
  split; [apply lookup_insert_eq|vm_compute; reflexivity].
Defined.

Lemma saveScore_writes_one_key_witness :
  let l := updated example_board
             (newEntry (js "Cy") 80 (js "id-Cy") 1700000000001) in
  let st' := setItem STORAGE_KEY (stringify (encode_entries l)) example_store in
  st' !! STORAGE_KEY = Some (stringify (encode_entries l))
  ∧ ∀ k, k ≠ STORAGE_KEY → st' !! k = example_store !! k.
Proof.
  intros l st'.
  apply (saveScore_writes_one_key (H := ref_codec) (js "Cy") 80 (js "id-Cy")
           1700000000001 example_store l st').
  apply (saveScore_unfold (H := ref_codec)), example_store_board.
Defined.

Lemma saveScore_top_witness :
  ∃ l st',
    saveScore (H := ref_codec) (js "Cy") 95 (js "id-Cy") 1700000000001
      example_store = Some (l, st')
    ∧ getLeaderboard (H := ref_codec) st' = Some l
    ∧ head l = Some (newEntry (js "Cy") 95 (js "id-Cy") 1700000000001).
Proof.
  apply (saveScore_top (H := ref_codec) (js "Cy") 95 (js "id-Cy")
           1700000000001 example_store example_board);
    [apply example_store_inv|by apply (bool_decide_unpack _)
    |apply example_store_board|by apply (bool_decide_unpack _)].
Defined.



(** The store after the first score of a browser: one entry, printed as
    the engine prints it. *)
Example saveScore_first_text :
  saveScore (H := ref_codec) (js "Amy") 100 (js "u1") 1700000000000 ∅
  = Some ([mkEntry (js "u1") (js "Amy") 100 1700000000000],
          {[ STORAGE_KEY :=
               [91; 123]%N ++ [34]%N ++ js "id" ++ [34; 58; 34]%N ++ js "u1"
               ++ [34; 44; 34]%N ++ js "name" ++ [34; 58; 34]%N ++ js "Amy"
               ++ [34; 44; 34]%N ++ js "score" ++ [34; 58]%N ++ js "100"
               ++ [44; 34]%N ++ js "timestamp" ++ [34; 58]%N
               ++ js "1700000000000" ++ [125; 93]%N ]}).
Proof. vm_compute. reflexivity. Qed.
