(* ===== verification/Store.v ===== *)
(** * The leaderboard store as an interface

    Section 4.2 of the specification describes the store by three
    operations: [load], [record] and [clear].  [LeaderboardStore] is that
    description as a class: the operations over a state of some type, the
    invariant of the state, and the laws that say what [load] returns
    after each operation.  The entry [record] is given is the new entry
    complete, with the identifier and the time stamp the environment
    supplied.

    Two instances follow: [list_store], the store as the list it stands
    for, and [local_store], the functions of [src/services/storage.ts]
    over [localStorage].  What is proved from the laws holds for both; and
    since the laws determine what every operation returns, the two cannot
    be told apart by any sequence of operations ([stores_agree]). *)

From stdpp Require Import gmap.
From S2P Require Import Prelude JsString JsArray Types Json JsonRef Storage.

#[local] Open Scope Z_scope.

(** ** The interface *)

Class LeaderboardStore (St : Type) : Type := {
  (** The invariant of the state. *)
  store_ok : St → Prop;
  load : St → list LeaderboardEntry;
  record : LeaderboardEntry → St → list LeaderboardEntry * St;
  clear : St → St;
}.

Class LeaderboardStoreLaws (St : Type) `{LeaderboardStore St} : Prop := {
  (** What [load] returns is ordered by score, has at most a hundred
      entries, and each can be stored. *)
  load_ok s : store_ok s → leaderboard_ok (load s);
  (** [record] returns the loaded list with the new entry appended, sorted
      and cut, and persists it. *)
  record_returns e s :
    store_ok s → entry_json_ok e → (record e s).1 = updated (load s) e;
  record_persists e s :
    store_ok s → entry_json_ok e →
    load (record e s).2 = (record e s).1 ∧ store_ok (record e s).2;
  (** After [clear], [load] returns the empty list. *)
  clear_empties s : load (clear s) = [] ∧ store_ok (clear s);
}.

(** An operation of the store, and what it returns to its caller. *)
Inductive StoreOp : Type :=
  | op_load
  | op_record (e : LeaderboardEntry)
  | op_clear.

Definition op_ok (op : StoreOp) : Prop :=
  match op with
  | op_record e => entry_json_ok e
  | _ => True
  end.

#[export] Instance op_ok_dec op : Decision (op_ok op).
Proof. destruct op; simpl; apply _. Defined.

Section operations.
Context {St : Type} `{!LeaderboardStore St}.

(** One operation: the list returned ([None] for [clear], which returns
    nothing) and the state after it. *)
Definition exec (op : StoreOp) (s : St) :
    option (list LeaderboardEntry) * St :=
  match op with
  | op_load => (Some (load s), s)
  | op_record e => let r := record e s in (Some r.1, r.2)
  | op_clear => (None, clear s)
  end.

(** A sequence of operations: what each returned, and the last state. *)
Fixpoint observe (ops : list StoreOp) (s : St) :
    list (option (list LeaderboardEntry)) * St :=
  match ops with
  | [] => ([], s)
  | op :: rest =>
      let r := exec op s in
      let r' := observe rest r.2 in
      (r.1 :: r'.1, r'.2)
  end.
End operations.

(** ** The store as a list *)

#[export] Instance list_store : LeaderboardStore (list LeaderboardEntry) :=
  {| store_ok := leaderboard_ok;
     load l := l;
     record e l := (updated l e, updated l e);
     clear _ := [] |}.

(** ** The store over [localStorage] *)

Section local.
Context `{JsonCodec}.

(** [saveScore] with the fields of the entry as its arguments. *)
Definition record_local (e : LeaderboardEntry) (st : Storage) :
    list LeaderboardEntry * Storage :=
  default ([], st) (saveScore (name e) (score e) (e_id e) (timestamp e) st).

#[export] Instance local_store : LeaderboardStore Storage :=
  {| store_ok := storage_inv;
     load st := default [] (getLeaderboard st);
     record := record_local;
     clear := resetLeaderboard |}.
End local.

(** A sequence of operations for the examples: a player is recorded, the
    leaderboard is read, cleared and read again. *)
Definition example_ops : list StoreOp :=
  [op_load; op_record (example_entry (js "Cy") 80); op_load; op_clear;
   op_load].

(** ** Sequences of calls *)

Section observe.
Context {St : Type} `{!LeaderboardStore St}.

(** The calls of a sequence in two parts: the second part starts where
    the first ended. *)
Lemma observe_app ops1 ops2 (s : St) :
  observe (ops1 ++ ops2) s
  = ((observe ops1 s).1 ++ (observe ops2 (observe ops1 s).2).1,
     (observe ops2 (observe ops1 s).2).2).
Proof.
  revert s. induction ops1 as [|op ops1 IH]; intros s; simpl;
    [by destruct (observe ops2 s)|by rewrite IH].
Qed.
End observe.

(** ** The two stores keep the laws *)

Lemma list_store_laws : LeaderboardStoreLaws (list LeaderboardEntry).
Proof.
  split; simpl; [done..| |].
  - intros e l Hl He. split; [done|]. apply updated_ok; [apply Hl|done].
  - intros _. split; [done|]. split_and!; [constructor|simpl; lia|constructor].
Qed.

Section local_laws.
Context `{JsonCodec}.

Lemma newEntry_fields e :
  newEntry (name e) (score e) (e_id e) (timestamp e) = e.
Proof. by destruct e. Qed.

Lemma saveScore_entry e st current :
  getLeaderboard st = Some current →
  saveScore (name e) (score e) (e_id e) (timestamp e) st
  = Some (updated current e,
          setItem STORAGE_KEY
            (JSON_stringify (encode_entries (updated current e))) st).
Proof.
  intros Hg. by rewrite (saveScore_unfold _ _ _ _ _ _ Hg), newEntry_fields.
Qed.

Lemma local_store_laws : LeaderboardStoreLaws Storage.
Proof.
  split; simpl; unfold record_local.
  - by intros st (l & -> & Hl)%getLeaderboard_inv.
  - intros e st (l & Hg & Hl)%getLeaderboard_inv He.
    by rewrite (saveScore_entry _ _ _ Hg), Hg.
  - intros e st Hst He. pose proof Hst as (l & Hg & Hl)%getLeaderboard_inv.
    pose proof (saveScore_entry e _ _ Hg) as Hs. rewrite Hs. simpl.
    rewrite <-(newEntry_fields e) in He.
    rewrite (saveScore_read_back _ _ _ _ _ _ _ Hst He Hs).
    split; [done|]. by eapply saveScore_inv.
  - intros st. rewrite resetLeaderboard_empty. split; [done|].
    apply resetLeaderboard_inv.
Qed.
End local_laws.

(** ** The store over [localStorage] is one item *)

Section local_item.
Context `{JsonCodec}.

(** What a call returns, and the item it leaves, depend on the item of the
    leaderboard only. *)
#[export] Instance exec_proper op :
  Proper (same_item ==> prod_relation (=) same_item) (exec (St := Storage) op).
Proof.
  intros st st' Hst. destruct op as [|e|]; simpl.
  - split; simpl; [by rewrite Hst|done].
  - unfold record_local.
    destruct (saveScore_proper (name e) (score e) (e_id e) (timestamp e)
                _ _ Hst) as [[l s] [l' s'] [Hl Hs]|]; simpl in *;
      [by subst|done].
  - split; simpl; [done|by rewrite Hst].
Qed.

#[export] Instance observe_proper ops :
  Proper (same_item ==> prod_relation (=) same_item)
    (observe (St := Storage) ops).
Proof.
  induction ops as [|op ops IH]; intros st st' Hst; simpl; [done|].
  destruct (exec_proper op _ _ Hst) as [Hr Hs].
  destruct (IH _ _ Hs) as [Hr' Hs']. split; simpl; [by rewrite Hr, Hr'|done].
Qed.

(** What other code writes under its own keys between two calls changes
    nothing of what the calls return. *)
Lemma observe_other_key (ops : list StoreOp) (k v : jsstring) (st : Storage) :
  k ≠ STORAGE_KEY → (observe ops (setItem k v st)).1 = (observe ops st).1.
Proof. intros Hk. by rewrite (same_item_setItem k v st Hk). Qed.
End local_item.

(** ** What the laws give *)

Section laws.
Context {St : Type} `{!LeaderboardStore St, !LeaderboardStoreLaws St}.
Implicit Types (s : St) (e : LeaderboardEntry).

(** The state after an operation is a state of the invariant. *)
Lemma exec_ok op s : store_ok s → op_ok op → store_ok (exec op s).2.
Proof.
  intros Hs Hop. destruct op as [|e|]; simpl; [done| |apply clear_empties].
  by apply record_persists.
Qed.

(** What [load] returns after an operation, from what it returned
    before. *)
Lemma load_exec op s :
  store_ok s → op_ok op →
  load (exec op s).2
  = match op with
    | op_load => load s
    | op_record e => updated (load s) e
    | op_clear => []
    end.
Proof.
  intros Hs Hop. destruct op as [|e|]; simpl; [done| |apply clear_empties].
  destruct (record_persists e s Hs Hop) as [-> _]. by apply record_returns.
Qed.

(** Whatever the operations, the store keeps a leaderboard. *)
Lemma observe_ok ops s :
  store_ok s → Forall op_ok ops → store_ok (observe ops s).2.
Proof.
  intros Hs Hops. revert s Hs.
  induction Hops as [|op ops Hop _ IH]; intros s Hs; simpl; [done|].
  by apply IH, exec_ok.
Qed.

(** [record] returns the list [load] returns next. *)
Lemma record_then_load e s :
  store_ok s → entry_json_ok e →
  (observe [op_record e; op_load] s).1
  = [Some (updated (load s) e); Some (updated (load s) e)].
Proof.
  intros Hs He. simpl. destruct (record_persists e s Hs He) as [-> _].
  by rewrite record_returns.
Qed.
End laws.

(** Two stores that hold the same list return the same lists, whatever
    the operations. *)
Lemma stores_agree {St T : Type}
    `{!LeaderboardStore St, !LeaderboardStoreLaws St}
    `{!LeaderboardStore T, !LeaderboardStoreLaws T} ops (s : St) (t : T) :
  store_ok s → store_ok t → load s = load t → Forall op_ok ops →
  (observe ops s).1 = (observe ops t).1
  ∧ load (observe ops s).2 = load (observe ops t).2.
Proof.
  intros Hs Ht Hl Hops. revert s t Hs Ht Hl.
  induction Hops as [|op ops Hop _ IH]; intros s t Hs Ht Hl; simpl; [done|].
  destruct (IH (exec op s).2 (exec op t).2) as [-> ->];
    [by apply exec_ok..| |].
  - by rewrite !load_exec, Hl.
  - split; [|done]. f_equal. destruct op as [|e|]; simpl; [by rewrite Hl| |done].
    by rewrite !record_returns, Hl.
Qed.

(** ** The store of the program *)

Section main.
Context `{JsonCodec}.

(** C7: the functions of [src/services/storage.ts] implement the store
    of the specification.  From a [localStorage] that holds a leaderboard,
    whatever the sequence of calls of [getLeaderboard], [saveScore] and
    [resetLeaderboard], each call returns the list the same call returns
    on the list the store stood for at the start, with [saveScore] as
    append, stable sort by score and cut at a hundred; the store stands
    for the same list at the end, and holds a leaderboard. *)
Theorem localStorage_refines (ops : list StoreOp) (st : Storage) :
  storage_inv st → Forall op_ok ops →
  (observe ops st).1 = (observe ops (load st)).1
  ∧ load (observe ops st).2 = (observe ops (load st)).2
  ∧ storage_inv (observe ops st).2.
Proof.
  intros Hst Hops.
  pose proof local_store_laws as Hlocal. pose proof list_store_laws as Hlist.
  destruct (stores_agree ops st (load st)) as [Hobs Hload];
    [done|by apply load_ok|done..|].
  split_and!; [done..|]. exact (observe_ok ops st Hst Hops).
Qed.
End main.

Lemma localStorage_refines_witness :
  (observe (LeaderboardStore0 := local_store (H := ref_codec)) example_ops
     example_store).1
  = (observe example_ops example_board).1
  ∧ load (LeaderboardStore := local_store (H := ref_codec))
      (observe (LeaderboardStore0 := local_store (H := ref_codec))
         example_ops example_store).2
    = (observe example_ops example_board).2
  ∧ storage_inv (H := ref_codec)
      (observe (LeaderboardStore0 := local_store (H := ref_codec))
         example_ops example_store).2.
Proof.
  apply (localStorage_refines (H := ref_codec) example_ops example_store);
    [apply example_store_inv|by apply (bool_decide_unpack _)].
Defined.
