(* ===== verification/Quiz.v ===== *)
(** * The component [QuizScreen] of [src/App.tsx]

    The screen keeps four state variables ([currentIndex], [score],
    [selectedOption], [isAnswered]) and receives the questions and the
    callback [onFinish] as properties.  [handleOptionClick] and
    [handleNext] are its two handlers; [getOptionStyle] chooses the style
    of an option button.

    A handler is a function from the state to the state after the handler;
    [handleNext] either continues with a new state or calls [onFinish]
    with the rounded score, which is the constructor [onFinish] of [Next].
    Reading a property of [currentQuestion] when the index is outside the
    questions throws a [TypeError]; the updates a handler queued before it
    threw are not modelled, and the page never calls a handler in such a
    state, since the screen cannot render it ([quiz_renders] in [App]).
    [Math.round] of a score that is not finite is not an integer:
    [handleNext] is [None] there, and the theorems show that the scores
    the screen reaches are finite. *)

From S2P Require Import Prelude JsString JsNumber Types.

#[local] Open Scope Z_scope.

Module QuizScreen.

(** ** State *)

Record State : Type := mkState {
  currentIndex : nat;
  score : number;
  selectedOption : option nat;
  isAnswered : bool;
}.

#[export] Instance State_eq_dec : EqDecision State.
Proof. solve_decision. Defined.

(** The initial values of the four [useState] calls. *)
Definition initial : State :=
  {| currentIndex := 0; score := of_Z 0; selectedOption := None;
     isAnswered := false |}.

(** What [handleNext] does: go on with the next question, or finish. *)
Inductive Next : Type :=
  | Continue (st : State)
  | onFinish (rounded : Z).

#[export] Instance Next_eq_dec : EqDecision Next.
Proof. solve_decision. Defined.

Section handlers.
Context (questions : list Question).

(** [questions[currentIndex]], [undefined] outside the array. *)
Definition currentQuestion (st : State) : option Question :=
  questions !! currentIndex st.

(** [((currentIndex + 1) / questions.length) * 100]. *)
Definition progress (st : State) : number :=
  mul (div (of_Z (Z.of_nat (currentIndex st) + 1))
           (of_Z (Z.of_nat (length questions))))
      (of_Z 100).

(** ** [handleOptionClick] *)

Definition handleOptionClick (index : nat) (st : State) : result exn State :=
  if isAnswered st then Ok st
  else
    match currentQuestion st with
    | None => Throw TypeError
    | Some q =>
        Ok {| currentIndex := currentIndex st;
              selectedOption := Some index;
              isAnswered := true;
              score :=
                if bool_decide (Z.of_nat index = correctAnswerIndex q)
                then add (score st) (div (of_Z 100)
                                         (of_Z (Z.of_nat (length questions))))
                else score st |}
    end.

(** ** [handleNext] *)

Definition handleNext (st : State) : option Next :=
  if bool_decide (Z.of_nat (currentIndex st) < Z.of_nat (length questions) - 1)
  then Some (Continue {| currentIndex := S (currentIndex st);
                         score := score st;
                         selectedOption := None;
                         isAnswered := false |})
  else rounded ← Math_round (score st); Some (onFinish rounded).

(** ** [getOptionStyle] *)

Definition baseStyle : jsstring :=
  js "w-full p-4 rounded-xl border text-left transition-all relative overflow-hidden group ".

Definition style_open : jsstring :=
  baseStyle ++ js "border-slate-600 hover:border-blue-500 hover:bg-slate-800 bg-slate-800/30 text-slate-200".

Definition style_correct : jsstring :=
  baseStyle ++ js "border-green-500 bg-green-500/10 text-green-100 ring-1 ring-green-500".

Definition style_wrong : jsstring :=
  baseStyle ++ js "border-red-500 bg-red-500/10 text-red-100".

Definition style_other : jsstring :=
  baseStyle ++ js "border-slate-700 opacity-50 cursor-not-allowed".

Definition getOptionStyle (st : State) (index : nat) : result exn jsstring :=
  if negb (isAnswered st) then Ok style_open
  else
    match currentQuestion st with
    | None => Throw TypeError
    | Some q =>
        if bool_decide (Z.of_nat index = correctAnswerIndex q)
        then Ok style_correct
        else if bool_decide (Some index = selectedOption st)
                && negb (bool_decide (Z.of_nat index = correctAnswerIndex q))
        then Ok style_wrong
        else Ok style_other
    end.

(** ** What the screen renders *)

(** The button of option [idx] exists and is not disabled: the options of
    the current question are mapped to buttons, each disabled once the
    question is answered. *)
Definition option_enabled (st : State) (idx : nat) : bool :=
  match currentQuestion st with
  | Some q => bool_decide (idx < length (options q))%nat && negb (isAnswered st)
  | None => false
  end.

(** The feedback, and the button below it that calls [handleNext], are
    rendered. *)
Definition feedback_shown (st : State) : bool := isAnswered st.

(** The label of that button. *)
Definition next_label (st : State) : jsstring :=
  if bool_decide (Z.of_nat (currentIndex st) = Z.of_nat (length questions) - 1)
  then js "查看結果" else js "下一題".

(** The score on display: [Math.round(score)]. *)
Definition score_shown (st : State) : option Z := Math_round (score st).

(** ** A whole quiz *)

(** The click at [index] is the correct answer to the current question. *)
Definition is_correct (st : State) (index : nat) : bool :=
  match currentQuestion st with
  | Some q => bool_decide (Z.of_nat index = correctAnswerIndex q)
  | None => false
  end.

(** One click on an option and one on the button below, for each choice
    in turn, until the screen finishes. *)
Fixpoint play (choices : list nat) (st : State) : option Next :=
  match choices with
  | [] => Some (Continue st)
  | index :: rest =>
      match handleOptionClick index st with
      | Throw _ => None
      | Ok st1 =>
          match handleNext st1 with
          | Some (Continue st2) => play rest st2
          | other => other
          end
      end
  end.

(** The number of choices that are the correct answer of the question at
    the same position. *)
Fixpoint count_correct (qs : list Question) (choices : list nat) : nat :=
  match qs, choices with
  | q :: qs', index :: rest =>
      (if bool_decide (Z.of_nat index = correctAnswerIndex q) then 1 else 0)
      + count_correct qs' rest
  | _, _ => 0
  end%nat.

(** ** The invariant of the screen *)

(** The index is inside the questions, an option is selected exactly when
    the question is answered, and the score is the sum of at most one
    increment for each question answered so far. *)
Definition wf (st : State) : Prop :=
  (currentIndex st < length questions)%nat ∧
  (isAnswered st = false → selectedOption st = None) ∧
  (isAnswered st = true → is_Some (selectedOption st)) ∧
  ∃ k, (k ≤ currentIndex st + (if isAnswered st then 1 else 0))%nat
       ∧ score st = score_after k (length questions).
End handlers.

(** ** Example data *)

(** Three questions whose correct answers are the options
    0, 1 and 2, and a batch of twenty of them. *)
Definition example_question (answer : Z) : Question :=
  {| q_id := answer + 1; text := js "Q";
     options := [js "A"; js "B"; js "C"; js "D"];
     correctAnswerIndex := answer; explanation := js "E" |}.

Definition example_questions : list Question :=
  [example_question 0; example_question 1; example_question 2].

Definition example_batch : list Question := replicate 20 (example_question 1).

(** ** One answer for each question *)

Section facts.
Context (questions : list Question).
Implicit Types (st : State) (index : nat) (q : Question).

(** On an answered question a click changes nothing. *)
Lemma handleOptionClick_answered index st :
  isAnswered st = true → handleOptionClick questions index st = Ok st.
Proof. unfold handleOptionClick. by intros ->. Qed.

(** On an open question a click selects the option, locks the question
    and adds the increment when the option is the correct one. *)
Lemma handleOptionClick_open index st q :
  isAnswered st = false → currentQuestion questions st = Some q →
  handleOptionClick questions index st =
    Ok {| currentIndex := currentIndex st;
          selectedOption := Some index;
          isAnswered := true;
          score := if bool_decide (Z.of_nat index = correctAnswerIndex q)
                   then add (score st) (increment (length questions))
                   else score st |}.
Proof. unfold handleOptionClick. by intros -> ->. Qed.

(** Where the index is outside the questions the handler throws. *)
Lemma handleOptionClick_undefined index st :
  isAnswered st = false → currentQuestion questions st = None →
  handleOptionClick questions index st = Throw TypeError.
Proof. unfold handleOptionClick. by intros -> ->. Qed.

Lemma handleOptionClick_locks index st st1 :
  handleOptionClick questions index st = Ok st1 → isAnswered st1 = true.
Proof.
  unfold handleOptionClick. destruct (isAnswered st) eqn:Ha; [naive_solver|].
  destruct (currentQuestion questions st); naive_solver.
Qed.

(** The four styles are different strings. *)
Lemma styles_distinct :
  style_open ≠ style_correct ∧ style_open ≠ style_wrong
  ∧ style_open ≠ style_other ∧ style_correct ≠ style_wrong
  ∧ style_correct ≠ style_other ∧ style_wrong ≠ style_other.
Proof. split_and!; by apply (bool_decide_unpack _). Qed.

(** ** [handleNext] on each branch *)

Lemma handleNext_continue st :
  (S (currentIndex st) < length questions)%nat →
  handleNext questions st =
    Some (Continue {| currentIndex := S (currentIndex st); score := score st;
                      selectedOption := None; isAnswered := false |}).
Proof. intros Hi. unfold handleNext. rewrite bool_decide_true by lia. done. Qed.

Lemma handleNext_finish st :
  (length questions ≤ S (currentIndex st))%nat →
  handleNext questions st = rounded ← Math_round (score st); Some (onFinish rounded).
Proof. intros Hi. unfold handleNext. rewrite bool_decide_false by lia. done. Qed.

(** ** The invariant *)

Lemma wf_initial : questions ≠ [] → wf questions initial.
Proof.
  intros Hq. split_and!; simpl; [|done|done|by exists 0%nat].
  destruct questions; simpl; [done|lia].
Qed.

(** A click keeps the invariant and does not throw. *)
Lemma handleOptionClick_wf index st :
  wf questions st →
  ∃ st1, handleOptionClick questions index st = Ok st1 ∧ wf questions st1.
Proof.
  intros Hwf. destruct (isAnswered st) eqn:Ha.
  { exists st. by rewrite handleOptionClick_answered. }
  destruct Hwf as (Hi & Hnone & _ & k & Hk & Hs).
  destruct (lookup_lt_is_Some_2 questions _ Hi) as [q Hq].
  rewrite (handleOptionClick_open _ _ q) by done. eexists. split; [done|].
  split_and!; simpl; [done|done|by eexists|]. rewrite Ha in Hk.
  case_bool_decide.
  - exists (S k). split; [lia|]. by rewrite Hs.
  - exists k. split; [lia|done].
Qed.

(** Going on to the next question keeps the invariant. *)
Lemma handleNext_wf st st' :
  wf questions st → handleNext questions st = Some (Continue st') →
  wf questions st'.
Proof.
  intros (Hi & _ & _ & k & Hk & Hs). unfold handleNext.
  case_bool_decide as Hlt; [|by destruct (Math_round _)].
  intros [= <-]. split_and!; simpl; [lia|done|done|].
  exists k. split; [destruct (isAnswered st); lia|done].
Qed.

(** The button below the options continues exactly when the question is
    not the last one. *)
Lemma handleNext_Continue_iff st st' :
  handleNext questions st = Some (Continue st') →
  (S (currentIndex st) < length questions)%nat ∧
  currentIndex st' = S (currentIndex st) ∧ score st' = score st ∧
  selectedOption st' = None ∧ isAnswered st' = false.
Proof.
  unfold handleNext. case_bool_decide as Hlt; [|by destruct (Math_round _)].
  intros [= <-]. split_and!; simpl; [lia|done..].
Qed.

Lemma handleNext_onFinish st r :
  handleNext questions st = Some (onFinish r) →
  (length questions ≤ S (currentIndex st))%nat ∧ Math_round (score st) = Some r.
Proof.
  unfold handleNext. case_bool_decide as Hlt; [done|].
  destruct (Math_round _) eqn:Hr; [|done]. intros [= <-]. split; [lia|done].
Qed.

(** From a state of the invariant [handleNext] returns, and the score it
    finishes with is an integer between 0 and 100, for a batch of at most
    [max_batch] questions. *)
Lemma handleNext_total st :
  (length questions ≤ max_batch)%nat → wf questions st →
  is_Some (handleNext questions st).
Proof.
  intros Hq (Hi & _ & _ & k & Hk & Hs). unfold handleNext.
  case_bool_decide as Hlt; [done|].
  destruct (score_after_in_range k (length questions)) as (r & Hr & _);
    [lia|destruct (isAnswered st); lia|].
  by rewrite Hs, Hr.
Qed.

Lemma handleNext_onFinish_range st r :
  (length questions ≤ max_batch)%nat → wf questions st →
  handleNext questions st = Some (onFinish r) → 0 ≤ r ≤ 100.
Proof.
  intros Hq (Hi & _ & _ & k & Hk & Hs) [Hlast Hr]%handleNext_onFinish.
  destruct (score_after_in_range k (length questions)) as (r' & Hr' & Hrange);
    [lia|destruct (isAnswered st); lia|].
  rewrite Hs, Hr' in Hr. by simplify_eq.
Qed.

(** ** The score of a whole quiz *)

Lemma count_correct_le qs choices :
  (count_correct qs choices ≤ length qs)%nat.
Proof.
  revert choices. induction qs as [|q qs IH]; intros [|c rest]; simpl; try lia.
  specialize (IH rest). case_bool_decide; lia.
Qed.

(** From an open question at index [i] with [k] increments so far, as
    many choices as questions remain finish the quiz with the rounded sum
    of [k] and the correct choices. *)
Lemma play_from choices st k :
  isAnswered st = false →
  (currentIndex st < length questions)%nat →
  score st = score_after k (length questions) →
  length choices = (length questions - currentIndex st)%nat →
  play questions choices st =
    rounded ← Math_round (score_after
      (k + count_correct (drop (currentIndex st) questions) choices)
      (length questions));
    Some (onFinish rounded).
Proof.
  revert st k. induction choices as [|c rest IH]; intros st k Ha Hi Hs Hlen;
    [simpl in Hlen; lia|].
  destruct (lookup_lt_is_Some_2 questions _ Hi) as [q Hq].
  rewrite (drop_S _ q) by done. cbn [play count_correct].
  rewrite (handleOptionClick_open _ _ q) by done.
  set (st1 := {| currentIndex := currentIndex st |}).
  assert (score st1 = score_after
    (k + if bool_decide (Z.of_nat c = correctAnswerIndex q) then 1 else 0)
    (length questions)) as Hs1.
  { simpl. case_bool_decide; rewrite Hs;
      [by rewrite Nat.add_1_r|by rewrite Nat.add_0_r]. }
  simpl in Hlen.
  destruct (decide (S (currentIndex st) < length questions)%nat) as [Hlt|Hge].
  - rewrite handleNext_continue by done.
    rewrite (IH _ (k + if bool_decide (Z.of_nat c = correctAnswerIndex q)
                       then 1 else 0)%nat);
      simpl; [by rewrite Nat.add_assoc|done|lia|done|lia].
  - rewrite handleNext_finish by (simpl; lia).
    destruct rest; [|simpl in Hlen; lia].
    rewrite Hs1. destruct (drop _ _); simpl; rewrite Nat.add_0_r;
      by destruct (Math_round _).
Qed.

(** A quiz played from the start, one choice for each question: the
    screen finishes with the rounded sum of one increment for each correct
    choice. *)
Lemma play_score choices :
  questions ≠ [] → length choices = length questions →
  play questions choices initial =
    rounded ← Math_round (score_after (count_correct questions choices)
                                      (length questions));
    Some (onFinish rounded).
Proof.
  intros Hq Hlen.
  rewrite (play_from choices initial 0); simpl; [done..| |done|lia].
  destruct questions; simpl; [done|lia].
Qed.

(** Twenty questions: five points for each correct choice. *)
Lemma play_score_20 choices :
  length questions = 20%nat → length choices = 20%nat →
  play questions choices initial
  = Some (onFinish (5 * Z.of_nat (count_correct questions choices))).
Proof.
  intros Hq Hc. rewrite play_score; [|by destruct questions|congruence].
  rewrite Hq, Math_round_score_20; [done|].
  rewrite <-Hq. apply count_correct_le.
Qed.

End facts.

(** ** The theorems of the screen *)

Section main.
Context (questions : list Question).
Implicit Types (st : State) (index : nat) (q : Question).

(** C2: one answer for each question.  On an open question a click on
    option [index] is accepted and selects it; any later click, on
    whatever option, leaves the state as the first click left it: the
    selected option and the score do not change. *)
Theorem first_answer_binds index index' st q :
  isAnswered st = false → currentQuestion questions st = Some q →
  ∃ st1, handleOptionClick questions index st = Ok st1
    ∧ selectedOption st1 = Some index
    ∧ handleOptionClick questions index' st1 = Ok st1.
Proof.
  intros Ha Hq. eexists. split; [by apply handleOptionClick_open|].
  split; [done|]. by apply handleOptionClick_answered.
Qed.

(** C21: the state of the screen stays well formed.  From a well-formed
    state (index inside the questions, an option selected exactly when the
    question is answered, score the binary64 sum of at most one increment
    for each question answered) a click never throws and gives a
    well-formed state, and [handleNext] gives a well-formed state when it
    continues. *)
Theorem handlers_preserve_wf st :
  wf questions st →
  (∀ index, ∃ st1, handleOptionClick questions index st = Ok st1
                   ∧ wf questions st1)
  ∧ (∀ st', handleNext questions st = Some (Continue st') → wf questions st').
Proof.
  intros Hwf. split; [intros index; by apply handleOptionClick_wf|].
  intros st'. by apply handleNext_wf.
Qed.

(** C22: [handleNext] always returns, for a batch of at most [max_batch]
    questions: from a well-formed state it continues with the next
    question, or it calls [onFinish] with an integer between 0 and 100. *)
Theorem handleNext_finishes_in_range st :
  (length questions ≤ max_batch)%nat → wf questions st →
  (∃ st', handleNext questions st = Some (Continue st')
          ∧ currentIndex st' = S (currentIndex st))
  ∨ (∃ r, handleNext questions st = Some (onFinish r) ∧ 0 ≤ r ≤ 100
          ∧ S (currentIndex st) = length questions).
Proof.
  intros Hq Hwf. destruct (handleNext_total questions st Hq Hwf) as [[st'|r] Hn].
  - left. exists st'. split; [done|].
    by apply handleNext_Continue_iff in Hn as (_ & ? & _).
  - right. exists r. split; [done|].
    split; [by eapply handleNext_onFinish_range|].
    apply handleNext_onFinish in Hn as [? _]. destruct Hwf as [? _]. lia.
Qed.

(** C10: the score of a quiz of twenty questions.  Answering the twenty
    questions in turn finishes the quiz with five points for each correct
    choice, which is the integer nearest to [100 * K / 20] for [K] correct
    choices. *)
Theorem quiz_20_score choices :
  length questions = 20%nat → length choices = 20%nat →
  play questions choices initial
  = Some (onFinish (5 * Z.of_nat (count_correct questions choices)))
  ∧ 5 * Z.of_nat (count_correct questions choices)
    = exact_score (count_correct questions choices) 20.
Proof.
  intros Hq Hc. split; [by apply play_score_20|].
  pose proof (count_correct_le questions choices) as Hle. rewrite Hq in Hle.
  pose proof (score_20_exact _ Hle) as He.
  rewrite Math_round_score_20 in He by done. by simplify_eq.
Qed.

(** C23: the score of any quiz of at most [max_batch] questions.  The
    quiz finishes, and with an integer score between 0 and 100: adding
    binary64 increments and rounding at the end never leaves the range. *)
Theorem play_score_in_range choices :
  (1 ≤ length questions ≤ max_batch)%nat → length choices = length questions →
  ∃ r, play questions choices initial = Some (onFinish r) ∧ 0 ≤ r ≤ 100.
Proof.
  intros Hq Hc.
  rewrite play_score; [|destruct questions; simpl in *; [lia|done]|done].
  destruct (score_after_in_range (count_correct questions choices)
              (length questions)) as (r & -> & Hr);
    [done|apply count_correct_le|]. by exists r.
Qed.

(** C38: the style of an option button tells the feedback.  For the
    current question, a button is green exactly when the question is
    answered and the option is the correct one, and red exactly when the
    question is answered and the option is the selected one and wrong. *)
Theorem getOptionStyle_feedback st q index :
  currentQuestion questions st = Some q →
  (getOptionStyle questions st index = Ok style_correct ↔
     isAnswered st = true ∧ Z.of_nat index = correctAnswerIndex q)
  ∧ (getOptionStyle questions st index = Ok style_wrong ↔
     isAnswered st = true ∧ selectedOption st = Some index
     ∧ Z.of_nat index ≠ correctAnswerIndex q).
Proof.
  intros Hq. unfold getOptionStyle. rewrite Hq.
  pose proof styles_distinct as Hd. revert Hd.
  generalize style_open, style_correct, style_wrong, style_other.
  intros s_open s_correct s_wrong s_other (?&?&?&?&?&?).
  destruct (isAnswered st); simpl; repeat case_bool_decide; simpl;
    (split; (split; [intros ?; simplify_eq|intros ?; destruct_and?]));
    try done; try congruence; by split_and!.
Qed.
End main.

Lemma first_answer_binds_witness :
  ∃ st1, handleOptionClick example_questions 1 initial = Ok st1
    ∧ selectedOption st1 = Some 1%nat
    ∧ handleOptionClick example_questions 2 st1 = Ok st1.
Proof.
  apply (first_answer_binds example_questions 1 2 initial (example_question 0));
    reflexivity.
Defined.

Lemma handlers_preserve_wf_witness :
  (∀ index, ∃ st1, handleOptionClick example_questions index initial = Ok st1
                   ∧ wf example_questions st1)
  ∧ (∀ st', handleNext example_questions initial = Some (Continue st') →
            wf example_questions st').
Proof.
  apply (handlers_preserve_wf example_questions initial).
  apply wf_initial. discriminate.
Defined.

Lemma handleNext_finishes_in_range_witness :
  (∃ st', handleNext example_questions initial = Some (Continue st')
          ∧ currentIndex st' = S (currentIndex initial))
  ∨ (∃ r, handleNext example_questions initial = Some (onFinish r)
          ∧ 0 ≤ r ≤ 100
          ∧ S (currentIndex initial) = length example_questions).
Proof.
  apply (handleNext_finishes_in_range example_questions initial).
  - unfold max_batch. simpl. lia.
  - apply wf_initial. discriminate.
Defined.

Lemma quiz_20_score_witness :
  play example_batch (replicate 16 1%nat ++ replicate 4 0%nat) initial
  = Some (onFinish (5 * Z.of_nat (count_correct example_batch
                                    (replicate 16 1%nat ++ replicate 4 0%nat))))
  ∧ 5 * Z.of_nat (count_correct example_batch
                    (replicate 16 1%nat ++ replicate 4 0%nat))
    = exact_score (count_correct example_batch
                     (replicate 16 1%nat ++ replicate 4 0%nat)) 20.
Proof.
  apply (quiz_20_score example_batch (replicate 16 1%nat ++ replicate 4 0%nat));
    reflexivity.
Defined.

Lemma play_score_in_range_witness :
  ∃ r, play example_questions [0; 1; 0]%nat initial = Some (onFinish r)
       ∧ 0 ≤ r ≤ 100.
Proof.
  apply (play_score_in_range example_questions [0; 1; 0]%nat);
    [unfold max_batch; simpl; lia|reflexivity].
Defined.

Lemma getOptionStyle_feedback_witness :
  (getOptionStyle example_questions initial 0 = Ok style_correct ↔
     isAnswered initial = true
     ∧ Z.of_nat 0 = correctAnswerIndex (example_question 0))
  ∧ (getOptionStyle example_questions initial 0 = Ok style_wrong ↔
     isAnswered initial = true ∧ selectedOption initial = Some 0%nat
     ∧ Z.of_nat 0 ≠ correctAnswerIndex (example_question 0)).
Proof.
  apply (getOptionStyle_feedback example_questions initial
           (example_question 0) 0).
  reflexivity.
Defined.


(** The scenario of the specification: sixteen correct answers out of
    twenty give 80, seven give 35. *)
Example quiz_16_of_20 :
  play example_batch (replicate 16 1%nat ++ replicate 4 0%nat) initial
  = Some (onFinish 80).
Proof. vm_compute. reflexivity. Qed.

Example quiz_7_of_20 :
  play example_batch (replicate 7 1%nat ++ replicate 13 3%nat) initial
  = Some (onFinish 35).
Proof. vm_compute. reflexivity. Qed.
End QuizScreen.
