(* ===== verification/Result.v ===== *)
(** * The component [ResultScreen] of [src/App.tsx]

    The screen has no state.  It shows the score, one of three messages,
    and the first five entries of the leaderboard; a row is highlighted
    when [isHighScore] holds and the row has the score on display.
    [isHighScore] reads the clock: [now] is the value of [Date.now()]
    while the screen renders, taken once for the whole render. *)

From S2P Require Import Prelude JsString JsArray Types.

#[local] Open Scope Z_scope.

Module ResultScreen.

(** [leaderboard.some(l => l.score === score && Date.now() - l.timestamp <
    1000)]. *)
Definition isHighScore (score : Z) (leaderboard : list LeaderboardEntry)
    (now : Z) : bool :=
  some (λ l, bool_decide (Types.score l = score)
             && bool_decide (now - timestamp l < 1000)) leaderboard.

(** The message under the score. *)
Definition message_expert : jsstring := js "太棒了！您是 AI 專家！".
Definition message_good : jsstring := js "不錯喔，掌握了基礎知識！".
Definition message_more : jsstring := js "再接再厲，AI 世界很大！".

Definition message (score : Z) : jsstring :=
  if bool_decide (80 ≤ score) then message_expert
  else if bool_decide (60 ≤ score) then message_good
  else message_more.

(** The class of a row. *)
Definition row_highlight : jsstring :=
  js "bg-blue-500/20 border border-blue-500/50".
Definition row_plain : jsstring := js "bg-slate-700/30".

Definition row_style (score : Z) (leaderboard : list LeaderboardEntry)
    (now : Z) (entry : LeaderboardEntry) : jsstring :=
  if isHighScore score leaderboard now
     && bool_decide (Types.score entry = score)
  then row_highlight else row_plain.

(** The class of the badge that shows the rank. *)
Definition badge_style (idx : nat) : jsstring :=
  match idx with
  | 0%nat => js "bg-yellow-500 text-yellow-950"
  | 1%nat => js "bg-slate-300 text-slate-900"
  | 2%nat => js "bg-amber-700 text-amber-100"
  | _ => js "bg-slate-600 text-slate-300"
  end.

(** A row as rendered: rank, name, score and the two classes. *)
Record Row : Type := mkRow {
  row_rank : nat;
  row_name : jsstring;
  row_score : Z;
  row_class : jsstring;
  badge_class : jsstring;
}.

(** [leaderboard.slice(0, 5).map((entry, idx) => ...)]. *)
Definition rows (score : Z) (leaderboard : list LeaderboardEntry) (now : Z) :
    list Row :=
  imap (λ idx entry,
          {| row_rank := idx + 1; row_name := name entry;
             row_score := Types.score entry;
             row_class := row_style score leaderboard now entry;
             badge_class := badge_style idx |})
       (slice0 5 leaderboard).

(** ** Example data *)

(** Bob scored 80 a day ago; Amy scores 80 now. *)
Definition example_now : Z := 1700000000000.

Definition example_leaderboard : list LeaderboardEntry :=
  [mkEntry (js "b") (js "Bob") 80 (example_now - 86400000);
   mkEntry (js "a") (js "Amy") 80 example_now].

(** ** Lemmas *)

Lemma isHighScore_true score leaderboard now :
  isHighScore score leaderboard now = true ↔
  ∃ e, e ∈ leaderboard ∧ Types.score e = score ∧ now - timestamp e < 1000.
Proof.
  unfold isHighScore, some. rewrite existsb_exists. split.
  - intros (e & Hin & He). bool_to_prop. exists e.
    by rewrite list_elem_of_In.
  - intros (e & Hin & Hs & Ht). exists e. rewrite <-list_elem_of_In.
    split; [done|]. by rewrite !bool_decide_true.
Qed.

Lemma row_classes_distinct : row_highlight ≠ row_plain.
Proof. by apply (bool_decide_unpack _). Qed.

Lemma messages_distinct :
  message_expert ≠ message_good ∧ message_expert ≠ message_more
  ∧ message_good ≠ message_more.
Proof. split_and!; by apply (bool_decide_unpack _). Qed.

Lemma rows_length score leaderboard now :
  length (rows score leaderboard now) = (5 `min` length leaderboard)%nat.
Proof. unfold rows, slice0. by rewrite length_imap, length_take. Qed.

(** ** The theorems of the screen *)

(** C39: which rows are highlighted.  A row is highlighted exactly when
    its score is the score on display and some entry of the leaderboard,
    not necessarily the one of the row, has that score and a time stamp
    less than a second old: every row with the score on display is then
    highlighted, whoever it belongs to. *)
Theorem row_style_highlight score leaderboard now entry :
  row_style score leaderboard now entry = row_highlight ↔
  Types.score entry = score
  ∧ ∃ e, e ∈ leaderboard ∧ Types.score e = score
         ∧ now - timestamp e < 1000.
Proof.
  unfold row_style. rewrite <-isHighScore_true.
  pose proof row_classes_distinct as Hd. revert Hd.
  generalize row_highlight, row_plain. intros hi lo Hd.
  destruct (isHighScore _ _ _); simpl; try case_bool_decide;
    split; intros; destruct_and?; first [done | congruence].
Qed.

(** The message follows the score.  The screen congratulates an
    expert exactly from 80 points, acknowledges the basics exactly from 60
    to 79, and encourages below 60. *)
Lemma message_thresholds score :
  (message score = message_expert ↔ 80 ≤ score)
  ∧ (message score = message_good ↔ 60 ≤ score < 80)
  ∧ (message score = message_more ↔ score < 60).
Proof.
  unfold message. pose proof messages_distinct as Hd. revert Hd.
  generalize message_expert, message_good, message_more.
  intros m1 m2 m3 (?&?&?).
  repeat case_bool_decide; (split; [|split]); split; intros;
    first [done | lia | congruence].
Qed.

(** Bob's row is highlighted with Amy's. *)
Example both_rows_highlighted :
  row_class <$> rows 80 example_leaderboard (example_now + 5)
  = [row_highlight; row_highlight].
Proof. vm_compute. reflexivity. Qed.

Example rows_of_example :
  (λ r, (row_rank r, row_name r, row_score r))
    <$> rows 80 example_leaderboard (example_now + 5)
  = [(1%nat, js "Bob", 80); (2%nat, js "Amy", 80)].
Proof. vm_compute. reflexivity. Qed.
End ResultScreen.
