(* ===== verification/Gemini.v ===== *)
(** * The question provider of [src/services/gemini.ts]

    [getApiKey] reads the key from [process.env]; [generateQuizQuestions]
    refuses to run without a key, sends one request, parses the text of
    the answer and re-numbers the questions.  The answer of the service is
    an argument of the model: [upstream] maps the request to the text of
    the response ([None] for a response without text) or to the value the
    call throws.

    [JSON.parse] returns a value of any shape, and the code returns the
    re-numbered elements as [Question[]] unchecked.  The model reads each
    element as a [Question] by its properties [text], [options],
    [correctAnswerIndex] and [explanation], which are the ones the screens
    read; the result is [None] where an element has not this shape, and
    the behaviour of the program on such an element is outside this
    model.  The system instruction, a constant text, is not modelled. *)

From stdpp Require Import gmap.
From S2P Require Import Prelude JsString Types Json JsonRef.

#[local] Open Scope Z_scope.

(** ** The key *)

(** [process.env] as the module finds it: [None] when [process] is not
    defined or [process.env] is falsy, as in a browser. *)
Definition getApiKey (env : option (gmap jsstring jsstring)) :
    option jsstring :=
  match env with
  | Some vars => vars !! js "API_KEY"
  | None => None
  end.

(** [!apiKey]: the key is [undefined] or the empty string. *)
Definition key_missing (apiKey : option jsstring) : bool :=
  match apiKey with
  | Some k => negb (truthy k)
  | None => true
  end.

(** The key the client is built with: [apiKey || 'MISSING_KEY']. *)
Definition client_key (apiKey : option jsstring) : jsstring :=
  match apiKey with
  | Some k => if truthy k then k else js "MISSING_KEY"
  | None => js "MISSING_KEY"
  end.

(** ** The request *)

Definition c_newline : code_unit := 0x0A.

(** The lines of a template literal that begins and ends with a line
    break. *)
Definition template_lines (lines : list jsstring) : jsstring :=
  flat_map (λ line, c_newline :: line) lines ++ [c_newline].

(** The instruction sent with every request.  It asks for four options a
    question and an index that counts from zero; the program checks
    neither. *)
Definition SYSTEM_INSTRUCTION : jsstring :=
  template_lines
    [js "You are an expert AI consultant creating a high-quality quiz for company executives and management. ";
     js "Create a set of multiple-choice questions specifically focusing on the following three categories:";
     [];
     js "1. **AI Terminology (AI 專有名詞)**: ";
     js "   - Deeply test understanding of key terms like LLM, RAG, Fine-tuning, Token, Temperature, Zero-shot prompting, Hallucination, Multimodal, Agent, etc.";
     js "   - Explain what they mean in a business or practical context.";
     [];
     js "2. **AI Tool Usage (AI 工具用途)**:";
     js "   - Practical application of specific tools. ";
     js "   - Examples: When to use Midjourney vs. Stable Diffusion? What is the specific strength of Claude 3.5 Sonnet vs. GPT-4o? What is GitHub Copilot best for? How to use Gemini for data analysis?";
     js "   - Focus on distinct features and best use cases for productivity.";
     [];
     js "3. **AI Industry Information & Trends (AI 產業資訊)**:";
     js "   - Major industry moves (e.g., Microsoft/OpenAI partnership, Google's DeepMind updates, Anthropic).";
     js "   - Enterprise adoption trends, regulatory landscape (EU AI Act basics), and major tech company strategies.";
     js "   - Recent significant AI news from late 2024 to present.";
     [];
     js "**Requirements:**";
     js "- The target audience is **Management Executives**. The questions should be practical but strictly check their knowledge.";
     js "- **Strictly output in Traditional Chinese (Taiwan/zh-TW).**";
     js "- Ensure the " ++ [c_quote] ++ js "correctAnswerIndex" ++ [c_quote] ++ js " is 0-based.";
     js "- Ensure there are exactly 4 options per question."].

(** The schema language of the request, as far as the request uses it.
    [described d s] is the schema [s] with the property
    [description: d]. *)
#[local] Unset Elimination Schemes.
Inductive Schema : Type :=
  | ARRAY (items : Schema)
  | OBJECT (properties : list (jsstring * Schema)) (required : list jsstring)
  | INTEGER
  | STRING
  | described (description : jsstring) (s : Schema).
#[local] Set Elimination Schemes.

Record Request : Type := mkRequest {
  model : jsstring;
  contents : jsstring;
  systemInstruction : jsstring;
  responseMimeType : jsstring;
  responseSchema : Schema;
}.

Definition question_schema : Schema :=
  OBJECT
    [(js "id", INTEGER);
     (js "text",
      described (js "The question text in Traditional Chinese") STRING);
     (js "options",
      described (js "List of 4 possible answers in Traditional Chinese")
        (ARRAY STRING));
     (js "correctAnswerIndex",
      described (js "Index of the correct answer (0-3)") INTEGER);
     (js "explanation",
      described (js "Brief explanation of why the answer is correct in Traditional Chinese")
        STRING)]
    [js "id"; js "text"; js "options"; js "correctAnswerIndex";
     js "explanation"].

(** The argument of [generateContent] for [count] questions. *)
Definition request (count : Z) : Request :=
  {| model := js "gemini-3-flash-preview";
     contents :=
       js "Generate " ++ print_Z count
       ++ js " difficult and practical AI knowledge questions for managers in Traditional Chinese (Taiwan). Focus strictly on Terminology, Tool Usage, and Industry Info.";
     systemInstruction := SYSTEM_INSTRUCTION;
     responseMimeType := js "application/json";
     responseSchema := ARRAY question_schema |}.

(** ** Reading the response *)

(** The value of property [k] of a parsed object: the last member of that
    name. *)
Definition property (k : jsstring) (fs : list (jsstring * json)) :
    option json :=
  snd <$> last (filter (λ kv, kv.1 = k) fs).

Definition as_string (v : json) : option jsstring :=
  match v with JString s => Some s | _ => None end.

Definition as_number (v : json) : option Z :=
  match v with JNumber n => Some n | _ => None end.

Definition as_strings (v : json) : option (list jsstring) :=
  match v with JArray l => mapM as_string l | _ => None end.

(** [{...q, id: index + 1}] read as a [Question]. *)
Definition renumbered (index : nat) (q : json) : option Question :=
  match q with
  | JObject fs =>
      t ← property (js "text") fs ≫= as_string;
      o ← property (js "options") fs ≫= as_strings;
      c ← property (js "correctAnswerIndex") fs ≫= as_number;
      e ← property (js "explanation") fs ≫= as_string;
      Some {| q_id := Z.of_nat index + 1; text := t; options := o;
              correctAnswerIndex := c; explanation := e |}
  | _ => None
  end.

(** [data.map((q, index) => ({...q, id: index + 1}))]: a [TypeError] when
    [data] is not an array. *)
Definition renumber_all (data : json) : result exn (option (list Question)) :=
  match data with
  | JArray l => Ok (mapM id (imap renumbered l))
  | _ => Throw TypeError
  end.

Definition MISSING_KEY_MESSAGE : jsstring :=
  js "API Key 未設定。請在部署平台 (Vercel) 設定環境變數 API_KEY。".

Definition NO_DATA_MESSAGE : jsstring := js "No data returned from Gemini".

(** A schema without the descriptions around it. *)
Fixpoint undescribed (sch : Schema) : Schema :=
  match sch with
  | described _ s => undescribed s
  | _ => sch
  end.

(** What the service promises for a schema: the value has the shape the
    schema describes, every required property present. *)
Fixpoint conforms (sch : Schema) (v : json) {struct v} : bool :=
  match undescribed sch, v with
  | INTEGER, JNumber _ => true
  | STRING, JString _ => true
  | ARRAY items, JArray l => forallb (conforms items) l
  | OBJECT properties required, JObject fs =>
      forallb (λ k, bool_decide (k ∈ fs.*1)) required
      && forallb (λ kv, match list_find (λ p, p.1 = kv.1) properties with
                        | Some (_, (_, s)) => conforms s kv.2
                        | None => false
                        end) fs
  | _, _ => false
  end.

Section provider.
Context `{JsonCodec}.

(** [generateQuizQuestions(count)].  The [catch] block logs the error and
    throws it again, so a failure inside the [try] is the failure of the
    call. *)
Definition generateQuizQuestions (apiKey : option jsstring) (count : Z)
    (upstream : Request → result exn (option jsstring)) :
    result exn (option (list Question)) :=
  if key_missing apiKey then Throw (Error MISSING_KEY_MESSAGE)
  else
    try_catch_with
      (response ←! upstream (request count);
       match response with
       | Some text =>
           if truthy text then data ←! JSON_parse text; renumber_all data
           else Throw (Error NO_DATA_MESSAGE)
       | None => Throw (Error NO_DATA_MESSAGE)
       end)%js
      (λ error, Throw error).
End provider.

(** ** Example data *)

(** A response of one question that has the shape of the schema, but two
    options and a correct answer outside them. *)
Definition odd_question : json :=
  JObject [(js "id", JNumber 41); (js "text", JString (js "Q"));
           (js "options", JArray [JString (js "A"); JString (js "B")]);
           (js "correctAnswerIndex", JNumber 7);
           (js "explanation", JString (js "E"))].

Definition odd_response : jsstring := stringify (JArray [odd_question]).

Definition answer_with (text : jsstring) (r : Request) :
    result exn (option jsstring) :=
  Ok (Some text).

(** ** Reading properties *)

Section reading.
Implicit Types (fs : list (jsstring * json)) (k : jsstring) (v : json).

Lemma property_elem_of k fs v : property k fs = Some v → (k, v) ∈ fs.
Proof.
  unfold property. intros Hp.
  destruct (last (filter _ fs)) as [[k' v']|] eqn:Hl; simplify_eq/=.
  apply last_Some_elem_of, list_elem_of_filter in Hl as [Hk Hin].
  simpl in Hk. by subst.
Qed.

Lemma property_is_Some k fs : k ∈ fs.*1 → is_Some (property k fs).
Proof.
  intros ([k' v] & -> & Hin)%list_elem_of_fmap. unfold property.
  assert ((k', v) ∈ filter (λ kv, kv.1 = (k', v).1) fs) as Hf
    by (by apply list_elem_of_filter).
  destruct (filter _ fs) as [|x l] using rev_ind; [by apply elem_of_nil in Hf|].
  rewrite last_snoc. by eexists.
Qed.

Lemma renumbered_id index q x :
  renumbered index q = Some x → q_id x = Z.of_nat index + 1.
Proof. unfold renumbered. destruct q; intros; by simplify_option_eq. Qed.

(** The re-numbering keeps the number of elements and writes the
    position, counted from one. *)
Lemma renumber_lookup (l : list json) (qs : list Question) :
  mapM id (imap renumbered l) = Some qs →
  length qs = length l
  ∧ ∀ i x, qs !! i = Some x → q_id x = Z.of_nat i + 1.
Proof.
  intros Hall%mapM_Some_1. split.
  { by rewrite <-(Forall2_length _ _ _ Hall), length_imap. }
  intros i x Hx.
  destruct (Forall2_lookup_r _ _ _ _ _ Hall Hx) as (o & Ho & Hid).
  rewrite list_lookup_imap in Ho. destruct (l !! i) as [q|]; simplify_eq/=.
  by eapply renumbered_id.
Qed.

Lemma renumber_ids (l : list json) (qs : list Question) :
  mapM id (imap renumbered l) = Some qs →
  q_id <$> qs = seqZ 1 (Z.of_nat (length qs)).
Proof.
  intros [_ Hid]%renumber_lookup. apply list_eq. intros i.
  rewrite list_lookup_fmap. destruct (qs !! i) as [x|] eqn:Hx; simpl.
  - rewrite (Hid _ _ Hx), lookup_seqZ_lt; [f_equal; lia|].
    apply lookup_lt_Some in Hx. lia.
  - apply lookup_ge_None in Hx. symmetry. apply lookup_seqZ_ge. lia.
Qed.
End reading.

(** ** A response of the shape of the schema is a batch of questions *)

Section schema.
Implicit Types (fs : list (jsstring * json)) (k : jsstring) (v : json).

Lemma conforms_STRING sch v :
  undescribed sch = STRING → conforms sch v = true → is_Some (as_string v).
Proof. intros Hs. destruct v; simpl; rewrite Hs; by eauto. Qed.

Lemma conforms_INTEGER sch v :
  undescribed sch = INTEGER → conforms sch v = true → is_Some (as_number v).
Proof. intros Hs. destruct v; simpl; rewrite Hs; by eauto. Qed.

Lemma conforms_STRINGS sch v :
  undescribed sch = ARRAY STRING → conforms sch v = true →
  is_Some (as_strings v).
Proof.
  intros Hs. destruct v as [| | | |l|]; simpl; rewrite Hs; try done.
  intros Hl%Is_true_true%forallb_True. apply mapM_is_Some_2.
  eapply Forall_impl; [done|]. intros v Hv.
  by apply (conforms_STRING STRING), Is_true_true.
Qed.

(** A required property is present and has the shape of its schema. *)
Lemma conforms_property properties required fs k i s :
  conforms (OBJECT properties required) (JObject fs) = true →
  k ∈ required →
  list_find (λ p, p.1 = k) properties = Some (i, (k, s)) →
  ∃ v, property k fs = Some v ∧ conforms s v = true.
Proof.
  cbn [conforms].
  intros [Hreq%Is_true_true%forallb_True Hfs%Is_true_true%forallb_True]
    %andb_true_iff Hk Hfind.
  rewrite Forall_forall in Hreq. rewrite Forall_forall in Hfs.
  destruct (property_is_Some k fs) as [v Hv].
  { specialize (Hreq _ Hk). simpl in Hreq. by apply bool_decide_unpack in Hreq. }
  exists v. split; [done|]. apply property_elem_of in Hv.
  specialize (Hfs _ Hv). simpl in Hfs. rewrite Hfind in Hfs.
  by apply Is_true_true.
Qed.

Lemma conforms_renumbered index q :
  conforms question_schema q = true → is_Some (renumbered index q).
Proof.
  destruct q as [| | | | |fs]; try done. intros Hq. unfold renumbered.
  pose proof (λ k i s, conforms_property _ _ fs k i s Hq) as Hp.
  edestruct (Hp (js "text") 1%nat) as (t & Ht & Ht');
    [compute_done|reflexivity|].
  edestruct (Hp (js "options") 2%nat) as (o & Ho & Ho');
    [compute_done|reflexivity|].
  edestruct (Hp (js "correctAnswerIndex") 3%nat) as (c & Hc & Hc');
    [compute_done|reflexivity|].
  edestruct (Hp (js "explanation") 4%nat) as (e & He & He');
    [compute_done|reflexivity|].
  apply conforms_STRING in Ht' as [? Ht']; [|done].
  apply conforms_STRINGS in Ho' as [? Ho']; [|done].
  apply conforms_INTEGER in Hc' as [? Hc']; [|done].
  apply conforms_STRING in He' as [? He']; [|done].
  rewrite Ht, Ho, Hc, He. simpl. rewrite Ht', Ho', Hc', He'. simpl.
  by eexists.
Qed.

Lemma conforms_renumber_all v :
  conforms (ARRAY question_schema) v = true →
  ∃ l qs, v = JArray l ∧ renumber_all v = Ok (Some qs)
          ∧ length qs = length l.
Proof.
  destruct v as [| | | |l|]; try done. cbn [conforms renumber_all].
  intros Hl%Is_true_true%forallb_True.
  destruct (mapM_is_Some_2 id (imap renumbered l)) as [qs Hqs].
  { apply Forall_lookup. intros i o. rewrite list_lookup_imap.
    destruct (l !! i) as [q|] eqn:Hq; intros; simplify_eq/=.
    apply conforms_renumbered, Is_true_true.
    exact (Forall_lookup_1 _ l i q Hl Hq). }
  exists l, qs. rewrite Hqs. split_and!; [done..|].
  by apply renumber_lookup in Hqs as [? _].
Qed.
End schema.

(** ** The theorems of the provider *)

Section main.
Context `{JsonCodec}.
Implicit Types (apiKey : option jsstring) (count : Z).
Implicit Types (upstream : Request → result exn (option jsstring)).

Lemma generateQuizQuestions_with_key apiKey count upstream :
  key_missing apiKey = false →
  generateQuizQuestions apiKey count upstream
  = match upstream (request count) with
    | Ok (Some text) =>
        if truthy text then result_bind renumber_all (JSON_parse text)
        else Throw (Error NO_DATA_MESSAGE)
    | Ok None => Throw (Error NO_DATA_MESSAGE)
    | Throw e => Throw e
    end.
Proof.
  unfold generateQuizQuestions. intros ->.
  destruct (upstream _) as [[text|]|e]; simpl; try done.
  destruct (truthy text); [|done]. by destruct (JSON_parse text) as [[]|].
Qed.

Lemma getApiKey_missing env :
  (∀ vars k, env = Some vars → vars !! js "API_KEY" = Some k → k = []) ↔
  key_missing (getApiKey env) = true.
Proof.
  destruct env as [vars|]; simpl; [|by split].
  destruct (vars !! js "API_KEY") as [k|] eqn:Hk; simpl.
  - split.
    + intros Henv. by rewrite (Henv vars k eq_refl Hk).
    + intros Ht vars' k' [= <-] Hk'. rewrite Hk in Hk'.
      injection Hk' as <-. by destruct k.
  - split; [done|]. intros _ vars' k' [= <-] Hk'. congruence.
Qed.

Lemma provider_missing_key_aux env count upstream :
  (∀ vars k, env = Some vars → vars !! js "API_KEY" = Some k → k = []) →
  generateQuizQuestions (getApiKey env) count upstream
  = Throw (Error MISSING_KEY_MESSAGE).
Proof.
  intros Henv%getApiKey_missing. unfold generateQuizQuestions. by rewrite Henv.
Qed.

(** C26: without a key no request is sent.  The call throws the error
    that asks for the key, whatever the service would answer, exactly
    when [process.env] is not defined or holds no key or the empty
    string. *)
Theorem provider_missing_key env count :
  (∀ vars k, env = Some vars → vars !! js "API_KEY" = Some k → k = []) ↔
  ∀ upstream, generateQuizQuestions (getApiKey env) count upstream
              = Throw (Error MISSING_KEY_MESSAGE).
Proof.
  split; [intros Henv upstream; by apply provider_missing_key_aux|].
  intros Hall. apply getApiKey_missing.
  specialize (Hall (λ _, Throw TypeError)).
  destruct (key_missing (getApiKey env)) eqn:Hk; [done|].
  by rewrite generateQuizQuestions_with_key in Hall.
Qed.

Lemma provider_fails_closed_aux apiKey count upstream r :
  generateQuizQuestions apiKey count upstream = Ok r ↔
  key_missing apiKey = false
  ∧ ∃ text l, upstream (request count) = Ok (Some text) ∧ text ≠ []
      ∧ JSON_parse text = Ok (JArray l)
      ∧ r = mapM id (imap renumbered l).
Proof.
  destruct (key_missing apiKey) eqn:Hk.
  { unfold generateQuizQuestions. rewrite Hk. by split; [|intros [? _]]. }
  rewrite generateQuizQuestions_with_key by done. split.
  - destruct (upstream _) as [[text|]|e]; try done.
    destruct (truthy text) eqn:Ht; [|done].
    destruct (JSON_parse text) as [[| | | |l|]|] eqn:Hp; try done.
    intros [= <-]. split; [done|]. exists text, l.
    by apply truthy_true_iff in Ht.
  - intros (_ & text & l & -> & Ht%truthy_true_iff & Hp & ->).
    by rewrite Ht, Hp.
Qed.

(** C11: the provider fails closed.  The call returns a batch only when
    there is a key, the service answered with a text that is not empty,
    and the text parsed into an array; in every other case it throws:
    the error that asks for the key, the value the request threw, the
    error for a response without text, the [SyntaxError] of [JSON.parse],
    or a [TypeError] for a value that is not an array. *)
Theorem provider_fails_closed apiKey count upstream :
  match generateQuizQuestions apiKey count upstream with
  | Ok r =>
      key_missing apiKey = false
      ∧ ∃ text l, upstream (request count) = Ok (Some text) ∧ text ≠ []
          ∧ JSON_parse text = Ok (JArray l)
          ∧ r = mapM id (imap renumbered l)
  | Throw e =>
      e = Error MISSING_KEY_MESSAGE ∨ e = Error NO_DATA_MESSAGE
      ∨ e = SyntaxError ∨ e = TypeError
      ∨ upstream (request count) = Throw e
  end.
Proof.
  destruct (generateQuizQuestions _ _ _) as [r|e] eqn:Hg.
  { by apply provider_fails_closed_aux. }
  destruct (key_missing apiKey) eqn:Hk.
  { unfold generateQuizQuestions in Hg. rewrite Hk in Hg. by simplify_eq; left. }
  rewrite generateQuizQuestions_with_key in Hg by done.
  destruct (upstream _) as [[text|]|e']; simplify_eq; auto.
  destruct (truthy text); simplify_eq; auto.
  destruct (JSON_parse text) as [v|e'] eqn:Hp; simplify_eq/=.
  - destruct v; simplify_eq/=; auto.
  - apply JSON_parse_throws in Hp as ->. auto.
Qed.

(** C24: the questions are numbered from one.  Whatever identifiers the
    service supplied, the questions of a batch the call returns carry the
    identifiers 1, 2, ... in their order. *)
Theorem provider_ids apiKey count upstream qs :
  generateQuizQuestions apiKey count upstream = Ok (Some qs) →
  q_id <$> qs = seqZ 1 (Z.of_nat (length qs)).
Proof.
  intros (_ & text & l & _ & _ & _ & Hqs)%provider_fails_closed_aux.
  by eapply renumber_ids.
Qed.
(** C25: a response of the shape of the schema is accepted.  With a key,
    when the service answers with the JSON text of a value that has the
    shape the request's schema describes, the call returns as many
    questions as the value has elements, numbered from one. *)
Theorem provider_schema apiKey count upstream v :
  key_missing apiKey = false →
  upstream (request count) = Ok (Some (JSON_stringify v)) →
  json_ok v → conforms (responseSchema (request count)) v = true →
  ∃ l qs, v = JArray l
    ∧ generateQuizQuestions apiKey count upstream = Ok (Some qs)
    ∧ length qs = length l
    ∧ q_id <$> qs = seqZ 1 (Z.of_nat (length qs)).
Proof.
  intros Hk Hup Hok (l & qs & -> & Hqs & Hlen)%conforms_renumber_all.
  exists l, qs. rewrite generateQuizQuestions_with_key, Hup by done.
  pose proof (JSON_stringify_nonempty (JArray l)) as Hne.
  destruct (JSON_stringify (JArray l)) as [|c text] eqn:Ht; [done|].
  cbn [truthy]. rewrite <-Ht, JSON_parse_stringify by done.
  split_and!; [done..|]. simpl in Hqs. simplify_eq. by eapply renumber_ids.
Qed.
End main.

(** ** The theorems on example data, with the reference codec *)

Lemma odd_question_ok : json_ok (JArray [odd_question]).
Proof.
  cbn [json_ok foldr odd_question fmap list_fmap fst snd].
  split_and!; try done; by apply (bool_decide_unpack _).
Qed.

Lemma provider_ids_witness :
  q_id <$> [mkQuestion 1 (js "Q") [js "A"; js "B"] 7 (js "E")]
  = seqZ 1 (Z.of_nat (length
      [mkQuestion 1 (js "Q") [js "A"; js "B"] 7 (js "E")])).
Proof.
  apply (provider_ids (H := ref_codec) (Some (js "key")) 20
           (answer_with odd_response)).
  vm_compute. reflexivity.
Defined.

Lemma provider_schema_witness :
  ∃ l qs, JArray [odd_question] = JArray l
    ∧ generateQuizQuestions (H := ref_codec) (Some (js "key")) 20
        (answer_with odd_response) = Ok (Some qs)
    ∧ length qs = length l
    ∧ q_id <$> qs = seqZ 1 (Z.of_nat (length qs)).
Proof.
  apply (provider_schema (H := ref_codec) (Some (js "key")) 20
           (answer_with odd_response) (JArray [odd_question]));
    [reflexivity|reflexivity|apply odd_question_ok|vm_compute; reflexivity].
Defined.


(** The request for twenty questions. *)
Example request_contents :
  contents (request 20)
  = js "Generate 20 difficult and practical AI knowledge questions for managers in Traditional Chinese (Taiwan). Focus strictly on Terminology, Tool Usage, and Industry Info.".
Proof. vm_compute. reflexivity. Qed.
