(* ===== verification/App.v ===== *)
(** * The component [App] of [src/App.tsx] and the page as a whole

    [App] keeps six state variables and renders one screen for each value
    of [appState].  Its handlers are [handleStart] (an [async] function:
    the part before the [await] of the provider call is
    [handleStart_begin], the parts after it are [handleStart_resolved] and
    [handleStart_rejected]), [handleQuizFinish], [handleResetLeaderboard],
    [handleRestart] and the two buttons of the error screen.
    [WelcomeScreen] keeps the text of its input and calls [onStart] from
    [handleSubmit].

    The page is a transition system.  A state [System] is the state of
    [App], the state of the screens that keep one, [localStorage], and the
    number of provider calls that have not completed.  An [Event] is a
    control of the screen on display being used, or a provider call
    completing; [step] has one rule for each, with the condition under
    which the control is rendered and enabled as its premise, and
    [dispatch] is the same as a function.  The state of a screen that is
    not on display is not read; it takes its initial value when the screen
    is mounted ([render]).

    The theorems are about the states the page reaches ([reachable]) from
    a store that holds a leaderboard, under the events the environment can
    supply ([env_ok]); [inv] is the invariant they rest on.  [handleStart]
    composes the page with the provider of [Gemini]. *)

From stdpp Require Import gmap.
From S2P Require Import Prelude JsString JsArray JsNumber Types Json JsonRef.
From S2P Require Import Storage Quiz Gemini.

#[local] Open Scope Z_scope.

(** ** The state of [App] *)

Record AppData : Type := mkApp {
  appState : AppState;
  userName : jsstring;
  questions : list Question;
  leaderboard : list LeaderboardEntry;
  currentScore : Z;
  errorMsg : jsstring;
}.

(** The initial values of the six [useState] calls. *)
Definition App_initial : AppData :=
  {| appState := WELCOME; userName := []; questions := []; leaderboard := [];
     currentScore := 0; errorMsg := [] |}.

Definition setAppState (s : AppState) (a : AppData) : AppData :=
  {| appState := s; userName := userName a; questions := questions a;
     leaderboard := leaderboard a; currentScore := currentScore a;
     errorMsg := errorMsg a |}.

Definition setUserName (n : jsstring) (a : AppData) : AppData :=
  {| appState := appState a; userName := n; questions := questions a;
     leaderboard := leaderboard a; currentScore := currentScore a;
     errorMsg := errorMsg a |}.

Definition setQuestions (q : list Question) (a : AppData) : AppData :=
  {| appState := appState a; userName := userName a; questions := q;
     leaderboard := leaderboard a; currentScore := currentScore a;
     errorMsg := errorMsg a |}.

Definition setLeaderboard (l : list LeaderboardEntry) (a : AppData) : AppData :=
  {| appState := appState a; userName := userName a; questions := questions a;
     leaderboard := l; currentScore := currentScore a;
     errorMsg := errorMsg a |}.

Definition setCurrentScore (s : Z) (a : AppData) : AppData :=
  {| appState := appState a; userName := userName a; questions := questions a;
     leaderboard := leaderboard a; currentScore := s; errorMsg := errorMsg a |}.

Definition setErrorMsg (m : jsstring) (a : AppData) : AppData :=
  {| appState := appState a; userName := userName a; questions := questions a;
     leaderboard := leaderboard a; currentScore := currentScore a;
     errorMsg := m |}.

(** ** The handlers of [App] *)

(** The number of questions [handleStart] asks the provider for. *)
Definition QUESTION_COUNT : Z := 20.

(** The message of the error screen. *)
Definition ERROR_MESSAGE : jsstring :=
  js "生成題目失敗。請確認網路連線，或檢查您的 API Key 是否正確設定。".

(** [handleStart] up to its [await]. *)
Definition handleStart_begin (name : jsstring) (a : AppData) : AppData :=
  setAppState LOADING (setUserName name a).

(** [handleStart] after the provider call returned [q]. *)
Definition handleStart_resolved (q : list Question) (a : AppData) : AppData :=
  setAppState QUIZ (setQuestions q a).

(** [handleStart] after the provider call threw: the [catch] block. *)
Definition handleStart_rejected (a : AppData) : AppData :=
  setAppState ERROR (setErrorMsg ERROR_MESSAGE a).

Definition handleRestart (a : AppData) : AppData :=
  setCurrentScore 0 (setUserName [] (setAppState WELCOME a)).

Section handlers.
Context `{JsonCodec}.

(** The effect that runs once after the first render. *)
Definition load_effect (st : Storage) (a : AppData) : option AppData :=
  l ← getLeaderboard st; Some (setLeaderboard l a).

Definition handleQuizFinish (score : Z) (uuid : jsstring) (now : Z)
    (st : Storage) (a : AppData) : option (AppData * Storage) :=
  '(newLeaderboard, st') ← saveScore (userName a) score uuid now st;
  Some (setAppState RESULT
          (setLeaderboard newLeaderboard (setCurrentScore score a)), st').

(** [confirmed] is the answer to the [confirm] dialogue. *)
Definition handleResetLeaderboard (confirmed : bool) (st : Storage)
    (a : AppData) : AppData * Storage :=
  if confirmed then (setLeaderboard [] a, resetLeaderboard st) else (a, st).
End handlers.

(** ** [WelcomeScreen] *)

(** What [handleSubmit] does with the text of the input: it calls
    [onStart] with the trimmed text when that is not empty. *)
Definition handleSubmit (name : jsstring) : option jsstring :=
  if truthy (trim name) then Some (trim name) else None.

(** The submit button is disabled. *)
Definition submit_disabled (name : jsstring) : bool := negb (truthy (trim name)).

(** The leaderboard table is rendered, and the reset button with it. *)
Definition shows_leaderboard (l : list LeaderboardEntry) : bool :=
  bool_decide (0 < length l)%nat.

(** The rows of the table of the welcome screen: rank and entry. *)
Definition welcome_rows (l : list LeaderboardEntry) :
    list (nat * LeaderboardEntry) :=
  imap (λ idx entry, (idx + 1, entry)%nat) (slice0 10 l).

(** ** The page *)

Record System : Type := mkSystem {
  app : AppData;
  welcome_name : jsstring;
  quiz : QuizScreen.State;
  storage : Storage;
  pending : nat;
}.

Inductive Event : Type :=
  | TypeName (text : jsstring)
  | Submit
  | ResetLeaderboard (confirmed : bool)
  | Resolved (q : list Question)
  | Rejected
  | SelectOption (index : nat)
  | NextQuestion (uuid : jsstring) (now : Z)
  | Restart
  | Retry
  | Home.

#[export] Instance Event_eq_dec : EqDecision Event.
Proof. solve_decision. Defined.

Definition set_welcome_name (text : jsstring) (s : System) : System :=
  {| app := app s; welcome_name := text; quiz := quiz s;
     storage := storage s; pending := pending s |}.

Definition set_quiz (q : QuizScreen.State) (s : System) : System :=
  {| app := app s; welcome_name := welcome_name s; quiz := q;
     storage := storage s; pending := pending s |}.

Definition set_storage (st : Storage) (s : System) : System :=
  {| app := app s; welcome_name := welcome_name s; quiz := quiz s;
     storage := st; pending := pending s |}.

Definition set_pending (n : nat) (s : System) : System :=
  {| app := app s; welcome_name := welcome_name s; quiz := quiz s;
     storage := storage s; pending := n |}.

(** Mounting [WelcomeScreen] or [QuizScreen]: a screen that was on display
    already keeps its state. *)
Definition mount_welcome (before : AppState) (name : jsstring) : jsstring :=
  if decide (before = WELCOME) then name else [].

Definition mount_quiz (before : AppState) (q : QuizScreen.State) :
    QuizScreen.State :=
  if decide (before = QUIZ) then q else QuizScreen.initial.

(** The page with the state of [App] replaced by [a], and the screens
    mounted as the change of [appState] requires. *)
Definition render (a : AppData) (s : System) : System :=
  {| app := a;
     welcome_name :=
       if decide (appState a = WELCOME)
       then mount_welcome (appState (app s)) (welcome_name s)
       else welcome_name s;
     quiz :=
       if decide (appState a = QUIZ)
       then mount_quiz (appState (app s)) (quiz s)
       else quiz s;
     storage := storage s; pending := pending s |}.

(** [onStart], which is [handleStart]: the state changes before the
    [await], and one more call is outstanding. *)
Definition onStart (name : jsstring) (s : System) : System :=
  render (handleStart_begin name (app s)) (set_pending (S (pending s)) s).

(** The quiz screen renders: the current question exists.  Otherwise
    reading [currentQuestion.text] throws and the page goes blank. *)
Definition quiz_renders (s : System) : Prop :=
  is_Some (QuizScreen.currentQuestion (questions (app s)) (quiz s)).

#[export] Instance quiz_renders_dec s : Decision (quiz_renders s).
Proof. unfold quiz_renders. apply _. Defined.

(** What the environment may supply: a name typed is a string of code
    units, a batch has at most [max_batch] questions, an identifier is a
    string of code units and a time stamp is a safe integer. *)
Definition env_ok (ev : Event) : Prop :=
  match ev with
  | TypeName text => jsstring_ok text
  | Resolved q => (length q ≤ max_batch)%nat
  | NextQuestion uuid now => jsstring_ok uuid ∧ safe_integer now
  | _ => True
  end.

#[export] Instance env_ok_dec ev : Decision (env_ok ev).
Proof. destruct ev; simpl; apply _. Defined.

Section system.
Context `{JsonCodec}.

(** The page after the first render and its effect. *)
Definition boot (st : Storage) : option System :=
  a ← load_effect st App_initial;
  Some {| app := a; welcome_name := []; quiz := QuizScreen.initial;
          storage := st; pending := 0 |}.

(** The transition relation: one rule for each control and each way a
    provider call completes.  The premises are the conditions under which
    the control is rendered and enabled. *)
Inductive step : System → Event → System → Prop :=
  | step_TypeName s text :
      appState (app s) = WELCOME →
      step s (TypeName text) (set_welcome_name text s)
  | step_Submit_start s name :
      appState (app s) = WELCOME →
      handleSubmit (welcome_name s) = Some name →
      step s Submit (onStart name s)
  | step_Submit_blank s :
      appState (app s) = WELCOME →
      handleSubmit (welcome_name s) = None →
      step s Submit s
  | step_ResetLeaderboard s confirmed a st :
      appState (app s) = WELCOME →
      shows_leaderboard (leaderboard (app s)) = true →
      handleResetLeaderboard confirmed (storage s) (app s) = (a, st) →
      step s (ResetLeaderboard confirmed) (render a (set_storage st s))
  | step_Resolved s n q :
      pending s = S n →
      step s (Resolved q)
        (render (handleStart_resolved q (app s)) (set_pending n s))
  | step_Rejected s n :
      pending s = S n →
      step s Rejected (render (handleStart_rejected (app s)) (set_pending n s))
  | step_SelectOption s index q quiz' :
      appState (app s) = QUIZ →
      QuizScreen.currentQuestion (questions (app s)) (quiz s) = Some q →
      (index < length (options q))%nat →
      QuizScreen.isAnswered (quiz s) = false →
      QuizScreen.handleOptionClick (questions (app s)) index (quiz s)
        = Ok quiz' →
      step s (SelectOption index) (set_quiz quiz' s)
  | step_NextQuestion_continue s uuid now quiz' :
      appState (app s) = QUIZ →
      quiz_renders s →
      QuizScreen.isAnswered (quiz s) = true →
      QuizScreen.handleNext (questions (app s)) (quiz s)
        = Some (QuizScreen.Continue quiz') →
      step s (NextQuestion uuid now) (set_quiz quiz' s)
  | step_NextQuestion_finish s uuid now finalScore a st :
      appState (app s) = QUIZ →
      quiz_renders s →
      QuizScreen.isAnswered (quiz s) = true →
      QuizScreen.handleNext (questions (app s)) (quiz s)
        = Some (QuizScreen.onFinish finalScore) →
      handleQuizFinish finalScore uuid now (storage s) (app s) = Some (a, st) →
      step s (NextQuestion uuid now) (render a (set_storage st s))
  | step_Restart s :
      appState (app s) = RESULT →
      step s Restart (render (handleRestart (app s)) s)
  | step_Retry_start s :
      appState (app s) = ERROR →
      truthy (userName (app s)) = true →
      step s Retry (onStart (userName (app s)) s)
  | step_Retry_home s :
      appState (app s) = ERROR →
      truthy (userName (app s)) = false →
      step s Retry (render (setAppState WELCOME (app s)) s)
  | step_Home s :
      appState (app s) = ERROR →
      step s Home (render (setAppState WELCOME (app s)) s).

(** What the button below the feedback does once the screen has decided
    to go on or to finish. *)
Definition after_next (next : option QuizScreen.Next) (uuid : jsstring)
    (now : Z) (s : System) : option System :=
  match next with
  | Some (QuizScreen.Continue quiz') => Some (set_quiz quiz' s)
  | Some (QuizScreen.onFinish finalScore) =>
      r ← handleQuizFinish finalScore uuid now (storage s) (app s);
      Some (render r.1 (set_storage r.2 s))
  | None => None
  end.

(** The same as a function: [None] where no rule applies. *)
Definition dispatch (ev : Event) (s : System) : option System :=
  match ev, appState (app s) with
  | TypeName text, WELCOME => Some (set_welcome_name text s)
  | Submit, WELCOME =>
      match handleSubmit (welcome_name s) with
      | Some name => Some (onStart name s)
      | None => Some s
      end
  | ResetLeaderboard confirmed, WELCOME =>
      if shows_leaderboard (leaderboard (app s)) then
        let r := handleResetLeaderboard confirmed (storage s) (app s) in
        Some (render r.1 (set_storage r.2 s))
      else None
  | Resolved q, _ =>
      match pending s with
      | O => None
      | S n => Some (render (handleStart_resolved q (app s)) (set_pending n s))
      end
  | Rejected, _ =>
      match pending s with
      | O => None
      | S n => Some (render (handleStart_rejected (app s)) (set_pending n s))
      end
  | SelectOption index, QUIZ =>
      if QuizScreen.option_enabled (questions (app s)) (quiz s) index then
        match QuizScreen.handleOptionClick (questions (app s)) index (quiz s)
        with
        | Ok quiz' => Some (set_quiz quiz' s)
        | Throw _ => None
        end
      else None
  | NextQuestion uuid now, QUIZ =>
      if bool_decide (quiz_renders s) && QuizScreen.feedback_shown (quiz s)
      then
        after_next (QuizScreen.handleNext (questions (app s)) (quiz s))
          uuid now s
      else None
  | Restart, RESULT => Some (render (handleRestart (app s)) s)
  | Retry, ERROR =>
      if truthy (userName (app s)) then Some (onStart (userName (app s)) s)
      else Some (render (setAppState WELCOME (app s)) s)
  | Home, ERROR => Some (render (setAppState WELCOME (app s)) s)
  | _, _ => None
  end.

(** A sequence of events from a state. *)
Fixpoint run (evs : list Event) (s : System) : option System :=
  match evs with
  | [] => Some s
  | ev :: rest => s' ← dispatch ev s; run rest s'
  end.

(** The states the page reaches from a store that holds a leaderboard of
    scores between 0 and 100, or nothing. *)
Inductive reachable : System → Prop :=
  | reachable_boot st s :
      storage_inv st →
      (∀ l, getLeaderboard st = Some l → Forall Entry_ok l) →
      boot st = Some s → reachable s
  | reachable_step s ev s' :
      reachable s → env_ok ev → step s ev s' → reachable s'.

(** The events the user and the questions determine for one question
    answered with [choice], and for a whole quiz. *)
Definition answer_events (choice : nat) (uuid : jsstring) (now : Z) :
    list Event :=
  [SelectOption choice; NextQuestion uuid now].

Definition quiz_events (choices : list nat) (uuid : jsstring) (now : Z) :
    list Event :=
  choices ≫= λ choice, answer_events choice uuid now.

(** The choices that answer every question correctly. *)
Definition correct_choices (qs : list Question) : list nat :=
  (λ q, Z.to_nat (correctAnswerIndex q)) <$> qs.

(** The value of [appState] after each event of a sequence. *)
Fixpoint visits (evs : list Event) (s : System) : list AppState :=
  match evs with
  | [] => []
  | ev :: rest =>
      match dispatch ev s with
      | Some s' => appState (app s') :: visits rest s'
      | None => []
      end
  end.

(** The arrows of the session state machine: which value of [appState]
    may follow which. *)
Definition transition (from to : AppState) : bool :=
  match from, to with
  | WELCOME, LOADING
  | LOADING, QUIZ
  | LOADING, ERROR
  | QUIZ, RESULT
  | RESULT, WELCOME
  | ERROR, LOADING
  | ERROR, WELCOME => true
  | _, _ => false
  end.

(** Each choice is one of the options of its question. *)
Definition choices_ok (qs : list Question) (choices : list nat) : Prop :=
  Forall2 (λ q choice, (choice < length (options q))%nat) qs choices.

(** No rule applies: the page accepts no event. *)
Definition stuck (s : System) : Prop := ∀ ev s', ¬ step s ev s'.

(** The event with which a call of the provider completes: [handleStart]
    continues after its [await] when the call returns and enters its
    [catch] block when it throws. *)
Definition completion (r : result exn (option (list Question))) :
    option Event :=
  match r with
  | Ok (Some q) => Some (Resolved q)
  | Ok None => None
  | Throw _ => Some Rejected
  end.

(** [handleStart] with the provider of [src/services/gemini.ts]: the page
    after the call it issues has completed. *)
Definition handleStart (name : jsstring) (env : option (gmap jsstring jsstring))
    (upstream : Request → result exn (option jsstring)) (s : System) :
    option System :=
  ev ← completion (generateQuizQuestions (getApiKey env) QUESTION_COUNT
                     upstream);
  dispatch ev (onStart name s).

(** ** The invariant of the page *)

Record inv (s : System) : Prop := mkInv {
  inv_pending :
    pending s = if decide (appState (app s) = LOADING) then 1%nat else 0%nat;
  inv_userName :
    appState (app s) ≠ WELCOME →
    userName (app s) ≠ [] ∧ trimmed (userName (app s));
  inv_userName_ok : jsstring_ok (userName (app s));
  inv_welcome_name : jsstring_ok (welcome_name s);
  inv_quiz :
    appState (app s) = QUIZ → questions (app s) ≠ [] →
    QuizScreen.wf (questions (app s)) (quiz s);
  inv_batch : (length (questions (app s)) ≤ max_batch)%nat;
  inv_storage : storage_inv (storage s);
  inv_mirror : getLeaderboard (storage s) = Some (leaderboard (app s));
  inv_entries : Forall Entry_ok (leaderboard (app s));
}.

(** ** The quiz ends *)

(** What is left of the quiz: two events for each question from the
    current one, one less once it is answered. *)
Definition quiz_measure (s : System) : nat :=
  2 * (length (questions (app s)) - QuizScreen.currentIndex (quiz s))
  - (if QuizScreen.isAnswered (quiz s) then 1 else 0).

(** A step of the page that begins and ends on the quiz screen. *)
Definition quiz_step (s s' : System) : Prop :=
  inv s ∧ appState (app s) = QUIZ ∧ appState (app s') = QUIZ
  ∧ ∃ ev, step s ev s'.
End system.

(** ** Example data *)

(** The page in a browser that has stored nothing, and the
    page after a sequence of events from there, with the reference
    codec. *)
Definition page_welcome : System :=
  {| app := App_initial; welcome_name := []; quiz := QuizScreen.initial;
     storage := ∅; pending := 0 |}.

Definition page_after (evs : list Event) : System :=
  default page_welcome (run (H := ref_codec) evs page_welcome).

Definition typed_Amy : list Event := [TypeName (js "  Amy  "); Submit].

Definition example_uuid : jsstring := js "3f2b8c1e".
Definition example_now : Z := 1700000000000.

(** Amy receives the three example questions and answers them all
    correctly. *)
Definition loaded : list Event :=
  typed_Amy ++ [Resolved QuizScreen.example_questions].

Definition played : list Event :=
  loaded ++ quiz_events [0; 1; 2]%nat example_uuid example_now.

(** ** The relation and the function agree *)

Section system_facts.
Context `{JsonCodec}.
Implicit Types (s : System) (ev : Event) (a : AppData).

Lemma step_dispatch_1 s ev s' : step s ev s' → dispatch ev s = Some s'.
Proof.
  destruct 1;
    unfold dispatch, after_next, QuizScreen.option_enabled,
      QuizScreen.feedback_shown;
    repeat match goal with
           | H : appState _ = _ |- _ => rewrite H
           | H : pending _ = _ |- _ => rewrite H
           | H : handleSubmit _ = _ |- _ => rewrite H
           | H : shows_leaderboard _ = _ |- _ => rewrite H
           | H : handleResetLeaderboard _ _ _ = _ |- _ => rewrite H
           | H : truthy _ = _ |- _ => rewrite H
           | H : QuizScreen.currentQuestion _ _ = _ |- _ => rewrite H
           | H : QuizScreen.isAnswered _ = _ |- _ => rewrite H
           | H : QuizScreen.handleOptionClick _ _ _ = _ |- _ => rewrite H
           | H : QuizScreen.handleNext _ _ = _ |- _ => rewrite H
           | H : handleQuizFinish _ _ _ _ _ = _ |- _ => rewrite H
           end; simpl; try done.
  all: first [by destruct (appState _) | by rewrite bool_decide_true by done].
Qed.

Lemma step_dispatch_2 s ev s' : dispatch ev s = Some s' → step s ev s'.
Proof.
  unfold dispatch, after_next, QuizScreen.option_enabled,
    QuizScreen.feedback_shown. intros Hd.
  destruct ev, (appState (app s)) eqn:Hs; try done;
    repeat case_match; simplify_option_eq;
    repeat case_match; simplify_eq; bool_to_prop;
    try match goal with p : (_ * _)%type |- _ => destruct p eqn:? end;
    eauto using step, surjective_pairing.
Qed.

(** ** The invariant holds of every reachable state *)

Lemma handleSubmit_Some name n :
  handleSubmit name = Some n ↔ n = trim name ∧ n ≠ [].
Proof.
  unfold handleSubmit. destruct (truthy (trim name)) eqn:Ht.
  - apply truthy_true_iff in Ht. split; [by intros [= <-]|by intros [-> _]].
  - destruct (trim name); [|done]. split; [done|by intros [-> ?]].
Qed.

Lemma boot_Some st s :
  boot st = Some s ↔
  ∃ l, getLeaderboard st = Some l
    ∧ s = {| app := setLeaderboard l App_initial; welcome_name := [];
             quiz := QuizScreen.initial; storage := st; pending := 0 |}.
Proof.
  unfold boot, load_effect. destruct (getLeaderboard st) as [l|]; simpl.
  - split; [intros [= <-]; by exists l|by intros (? & [= <-] & ->)].
  - split; [done|by intros (? & ? & _)].
Qed.

Lemma inv_boot st s :
  storage_inv st → (∀ l, getLeaderboard st = Some l → Forall Entry_ok l) →
  boot st = Some s → inv s.
Proof.
  intros Hst Hl (l & Hg & ->)%boot_Some.
  split; simpl; try done; [constructor|constructor|unfold max_batch; lia|auto].
Qed.

(** The state of [App] while no call is outstanding or while one is. *)
Lemma inv_pending_S s n : inv s → pending s = S n → appState (app s) = LOADING ∧ n = 0%nat.
Proof. intros [Hp _ _ _ _ _ _ _ _] Hn. case_decide; [split; [done|lia]|lia]. Qed.

Lemma inv_pending_0 s : inv s → appState (app s) ≠ LOADING → pending s = 0%nat.
Proof. intros [Hp _ _ _ _ _ _ _ _] Hn. by case_decide. Qed.

Ltac inv_split :=
  split; simpl; unfold mount_welcome, mount_quiz; repeat case_decide;
  try done; try congruence; try (by constructor).

Lemma inv_set_welcome_name text s :
  inv s → jsstring_ok text → inv (set_welcome_name text s).
Proof. intros [] ?. inv_split. Qed.

Lemma inv_onStart name s :
  inv s → appState (app s) ≠ LOADING →
  name ≠ [] → trimmed name → jsstring_ok name → inv (onStart name s).
Proof.
  intros Hi Hs ???. pose proof (inv_pending_0 s Hi Hs). destruct Hi.
  inv_split.
Qed.

Lemma inv_home s :
  inv s → appState (app s) ≠ LOADING →
  inv (render (setAppState WELCOME (app s)) s).
Proof.
  intros Hi Hs. pose proof (inv_pending_0 s Hi Hs). destruct Hi. inv_split.
Qed.

Lemma inv_handleRestart s :
  inv s → appState (app s) ≠ LOADING → inv (render (handleRestart (app s)) s).
Proof.
  intros Hi Hs. pose proof (inv_pending_0 s Hi Hs). destruct Hi. inv_split.
Qed.

Lemma inv_handleResetLeaderboard confirmed s :
  inv s → appState (app s) = WELCOME →
  inv (render (handleResetLeaderboard confirmed (storage s) (app s)).1
         (set_storage (handleResetLeaderboard confirmed (storage s) (app s)).2 s)).
Proof.
  intros Hi Hs. destruct Hi, confirmed; inv_split;
    auto using resetLeaderboard_inv, resetLeaderboard_empty.
Qed.

Lemma inv_handleStart_resolved q s n :
  inv s → pending s = S n → (length q ≤ max_batch)%nat →
  inv (render (handleStart_resolved q (app s)) (set_pending n s)).
Proof.
  intros Hi Hn Hq. destruct (inv_pending_S s n Hi Hn) as [Hs ->].
  destruct Hi. inv_split; [intros _; apply inv_userName0; congruence|].
  auto using QuizScreen.wf_initial.
Qed.

Lemma inv_handleStart_rejected s n :
  inv s → pending s = S n →
  inv (render (handleStart_rejected (app s)) (set_pending n s)).
Proof.
  intros Hi Hn. destruct (inv_pending_S s n Hi Hn) as [Hs ->].
  destruct Hi. inv_split. intros _; apply inv_userName0; congruence.
Qed.

Lemma inv_set_quiz quiz' s :
  inv s →
  (questions (app s) ≠ [] → QuizScreen.wf (questions (app s)) quiz') →
  inv (set_quiz quiz' s).
Proof. intros [] ?. inv_split. Qed.

Lemma quiz_renders_questions s : quiz_renders s → questions (app s) ≠ [].
Proof.
  unfold quiz_renders, QuizScreen.currentQuestion. intros [q Hq] Hnil.
  by rewrite Hnil in Hq.
Qed.

Lemma inv_handleOptionClick index quiz' s :
  inv s → appState (app s) = QUIZ →
  QuizScreen.handleOptionClick (questions (app s)) index (quiz s) = Ok quiz' →
  inv (set_quiz quiz' s).
Proof.
  intros Hi Hs Hc. apply inv_set_quiz; [done|]. intros Hq.
  destruct (QuizScreen.handleOptionClick_wf (questions (app s)) index (quiz s))
    as (st1 & Hst1 & Hwf); [by apply Hi|]. congruence.
Qed.

Lemma inv_handleNext quiz' s :
  inv s → appState (app s) = QUIZ →
  QuizScreen.handleNext (questions (app s)) (quiz s)
    = Some (QuizScreen.Continue quiz') →
  inv (set_quiz quiz' s).
Proof.
  intros Hi Hs Hc. apply inv_set_quiz; [done|]. intros Hq.
  eapply QuizScreen.handleNext_wf; [by apply Hi|done].
Qed.

Lemma inv_handleQuizFinish finalScore uuid now a st s :
  inv s → appState (app s) = QUIZ → 0 ≤ finalScore ≤ 100 →
  jsstring_ok uuid → safe_integer now →
  handleQuizFinish finalScore uuid now (storage s) (app s) = Some (a, st) →
  inv (render a (set_storage st s)).
Proof.
  intros Hi Hs Hr Hu Hn. unfold handleQuizFinish. intros Hf.
  destruct (saveScore _ _ _ _ _) as [[l st']|] eqn:Hsave; simplify_option_eq.
  pose proof (inv_pending_0 s Hi ltac:(congruence)).
  assert (userName (app s) ≠ [] ∧ trimmed (userName (app s))) as [??]
    by (apply Hi; congruence).
  assert (entry_json_ok (newEntry (userName (app s)) finalScore uuid now)).
  { split_and!; simpl; [done|apply Hi|apply safe_integer_small; lia|done]. }
  destruct (saveScore_inv _ _ _ _ _ _ _ (inv_storage s Hi) ltac:(done) Hsave).
  pose proof (saveScore_read_back _ _ _ _ _ _ _ (inv_storage s Hi)
                ltac:(done) Hsave).
  assert (Forall Entry_ok l).
  { destruct (getLeaderboard (storage s)) as [current|] eqn:Hg;
      [|by rewrite (inv_mirror s Hi) in Hg].
    rewrite (saveScore_unfold _ _ _ _ _ current) in Hsave by done.
    simplify_eq/=. apply updated_Forall; [|done].
    rewrite (inv_mirror s Hi) in Hg. simplify_eq. apply Hi. }
  destruct Hi. inv_split.
Qed.

Lemma step_inv s ev s' : inv s → env_ok ev → step s ev s' → inv s'.
Proof.
  intros Hi Hev Hstep. destruct Hstep; simpl in Hev.
  - by apply inv_set_welcome_name.
  - apply handleSubmit_Some in H1 as [-> ?].
    apply inv_onStart; [done|congruence|done|apply trim_trimmed|].
    apply trim_ok, Hi.
  - done.
  - pose proof (inv_handleResetLeaderboard confirmed s Hi H0) as Hr.
    by rewrite H2 in Hr.
  - by apply inv_handleStart_resolved.
  - by apply inv_handleStart_rejected.
  - by eapply inv_handleOptionClick.
  - by eapply inv_handleNext.
  - destruct Hev. eapply inv_handleQuizFinish; [done..| | | |done]; try done.
    eapply QuizScreen.handleNext_onFinish_range; [apply Hi| |done].
    apply Hi; [done|by apply quiz_renders_questions].
  - apply inv_handleRestart; [done|congruence].
  - apply inv_onStart; [done|congruence|apply Hi; congruence..|apply Hi].
  - apply inv_home; [done|congruence].
  - apply inv_home; [done|congruence].
Qed.

Lemma reachable_inv s : reachable s → inv s.
Proof. induction 1; eauto using inv_boot, step_inv. Qed.

Lemma handleQuizFinish_Some finalScore uuid now st a a' st' :
  handleQuizFinish finalScore uuid now st a = Some (a', st') ↔
  ∃ l, saveScore (userName a) finalScore uuid now st = Some (l, st')
       ∧ a' = setAppState RESULT
                (setLeaderboard l (setCurrentScore finalScore a)).
Proof.
  unfold handleQuizFinish.
  destruct (saveScore _ _ _ _ _) as [[l g]|]; simpl; [|by split; [|intros (?&?&?)]].
  split; [intros [= <- <-]; by exists l|by intros (? & [= <- <-] & ->)].
Qed.

(** ** The controls of the quiz are enabled *)

Lemma step_NextQuestion_enabled s uuid now :
  inv s → appState (app s) = QUIZ → questions (app s) ≠ [] →
  QuizScreen.isAnswered (quiz s) = true →
  ∃ s', step s (NextQuestion uuid now) s'.
Proof.
  intros Hi Hs Hq Ha. pose proof (inv_quiz s Hi Hs Hq) as Hwf.
  assert (quiz_renders s) as Hr by apply lookup_lt_is_Some_2, Hwf.
  destruct (QuizScreen.handleNext_total _ _ (inv_batch s Hi) Hwf)
    as [[quiz'|r] Hn].
  - eexists. by eapply step_NextQuestion_continue.
  - destruct (saveScore_total (userName (app s)) r uuid now (storage s)
                (inv_storage s Hi)) as [[l st'] Hsave].
    eexists. eapply step_NextQuestion_finish; [done..|].
    apply handleQuizFinish_Some. by exists l.
Qed.

Lemma step_SelectOption_enabled s q index :
  appState (app s) = QUIZ →
  QuizScreen.currentQuestion (questions (app s)) (quiz s) = Some q →
  (index < length (options q))%nat →
  QuizScreen.isAnswered (quiz s) = false →
  ∃ s', step s (SelectOption index) s'.
Proof.
  intros Hs Hcur Hindex Ha. eexists. eapply step_SelectOption; [done..|].
  by apply QuizScreen.handleOptionClick_open.
Qed.

(** ** The measure of the quiz *)

(** Every step inside the quiz uses up one event of the measure. *)
Lemma quiz_step_measure s s' :
  quiz_step s s' → S (quiz_measure s') = quiz_measure s.
Proof.
  intros (Hi & Hs & Hs' & ev & Hstep). unfold quiz_measure.
  destruct Hstep; simpl in *; try congruence;
    try match goal with
        | Hp : pending _ = S _ |- _ =>
            destruct (inv_pending_S _ _ Hi Hp) as [? _]; congruence
        end.
  - match goal with
    | Hc : QuizScreen.currentQuestion _ _ = Some ?q,
      Ha : QuizScreen.isAnswered _ = false,
      Hk : QuizScreen.handleOptionClick _ _ _ = Ok _ |- _ =>
        rewrite (QuizScreen.handleOptionClick_open _ _ _ q Ha Hc) in Hk;
        injection Hk as <-; apply lookup_lt_Some in Hc; simpl; rewrite Ha
    end. lia.
  - match goal with
    | Ha : QuizScreen.isAnswered _ = true,
      Hn : QuizScreen.handleNext _ _ = Some _ |- _ =>
        apply QuizScreen.handleNext_Continue_iff
          in Hn as (? & -> & _ & _ & ->); rewrite Ha
    end. lia.
  - match goal with
    | Hf : handleQuizFinish _ _ _ _ _ = Some _ |- _ =>
        apply handleQuizFinish_Some in Hf as (l & _ & ->)
    end. done.
Qed.

(** A run inside the quiz is no longer than the measure of its first
    state. *)
Lemma quiz_steps_bound k s s' :
  nsteps quiz_step k s s' → (k + quiz_measure s' = quiz_measure s)%nat.
Proof.
  induction 1 as [|k s1 s2 s3 H12 _ IH]; [done|].
  apply quiz_step_measure in H12. lia.
Qed.

(** ** The controls of the other screens are enabled *)

Lemma step_Submit_enabled s :
  appState (app s) = WELCOME → ∃ s', step s Submit s'.
Proof.
  intros Hs. destruct (handleSubmit (welcome_name s)) eqn:Hn;
    eauto using step.
Qed.

Lemma step_ResetLeaderboard_enabled s confirmed :
  appState (app s) = WELCOME →
  shows_leaderboard (leaderboard (app s)) = true →
  ∃ s', step s (ResetLeaderboard confirmed) s'.
Proof. intros Hs Hl. eauto using step, surjective_pairing. Qed.

Lemma step_Retry_enabled s : appState (app s) = ERROR → ∃ s', step s Retry s'.
Proof.
  intros Hs. destruct (truthy (userName (app s))) eqn:Hn; eauto using step.
Qed.

(** ** Running a quiz *)

Lemma dispatch_SelectOption s q index :
  appState (app s) = QUIZ →
  QuizScreen.currentQuestion (questions (app s)) (quiz s) = Some q →
  (index < length (options q))%nat →
  QuizScreen.isAnswered (quiz s) = false →
  ∃ quiz', QuizScreen.handleOptionClick (questions (app s)) index (quiz s)
           = Ok quiz'
    ∧ QuizScreen.isAnswered quiz' = true
    ∧ QuizScreen.currentIndex quiz' = QuizScreen.currentIndex (quiz s)
    ∧ dispatch (SelectOption index) s = Some (set_quiz quiz' s).
Proof.
  intros Hs Hq Hi Ha. eexists. split_and!;
    [by apply QuizScreen.handleOptionClick_open|done|done|].
  apply step_dispatch_1. econstructor; try done.
  by apply QuizScreen.handleOptionClick_open.
Qed.

Lemma dispatch_NextQuestion s uuid now :
  appState (app s) = QUIZ → quiz_renders s →
  QuizScreen.isAnswered (quiz s) = true →
  dispatch (NextQuestion uuid now) s
  = after_next (QuizScreen.handleNext (questions (app s)) (quiz s)) uuid now s.
Proof.
  intros Hs Hr Ha. unfold dispatch, QuizScreen.feedback_shown.
  rewrite Hs, Ha. by rewrite bool_decide_true by done.
Qed.

Lemma quiz_events_cons choice rest uuid now :
  quiz_events (choice :: rest) uuid now
  = SelectOption choice :: NextQuestion uuid now :: quiz_events rest uuid now.
Proof. done. Qed.

(** The events of a quiz drive the page as [QuizScreen.play] says: the
    page runs the two handlers for each choice and finishes where [play]
    finishes, with the state the screen has then. *)
Lemma run_quiz_from choices uuid now s :
  appState (app s) = QUIZ → QuizScreen.isAnswered (quiz s) = false →
  (QuizScreen.currentIndex (quiz s) < length (questions (app s)))%nat →
  choices_ok (drop (QuizScreen.currentIndex (quiz s)) (questions (app s)))
    choices →
  match QuizScreen.play (questions (app s)) choices (quiz s) with
  | Some (QuizScreen.onFinish r) =>
      ∃ quiz',
        run (quiz_events choices uuid now) s
        = after_next (Some (QuizScreen.onFinish r)) uuid now (set_quiz quiz' s)
  | _ => run (quiz_events choices uuid now) s = None
  end.
Proof.
  revert s. induction choices as [|c rest IH]; intros s Hs Ha Hi Hc.
  { apply Forall2_nil_inv_r in Hc. apply drop_nil_inv in Hc; [lia..]. }
  destruct (lookup_lt_is_Some_2 _ _ Hi) as [q Hq].
  rewrite (drop_S _ q) in Hc by done. apply Forall2_cons in Hc as [Hcq Hc].
  destruct (dispatch_SelectOption s q c) as (st1 & Hst1 & Ha1 & Hi1 & Hd);
    [done..|].
  rewrite quiz_events_cons. cbn [run]. rewrite Hd.
  cbn [option_bind mbind QuizScreen.play]. rewrite Hst1.
  rewrite dispatch_NextQuestion; [|done| |done]; [|by exists q; simpl;
    unfold QuizScreen.currentQuestion; rewrite Hi1].
  cbn [set_quiz questions app quiz].
  destruct (QuizScreen.handleNext _ st1) as [[st2|r]|] eqn:Hn; [| |done].
  - apply QuizScreen.handleNext_Continue_iff in Hn as (Hlt & Hi2 & _ & _ & Ha2).
    apply (IH (set_quiz st2 (set_quiz st1 s))); [done..| |]; simpl.
    + lia.
    + by rewrite Hi2, Hi1.
  - apply QuizScreen.handleNext_onFinish in Hn as [Hlast _].
    rewrite drop_ge in Hc by lia. apply Forall2_nil_inv_l in Hc as ->.
    exists st1. cbn [after_next]. by destruct (handleQuizFinish _ _ _ _ _).
Qed.

Lemma run_app evs1 evs2 s :
  run (evs1 ++ evs2) s = s' ← run evs1 s; run evs2 s'.
Proof.
  revert s. induction evs1 as [|ev evs1 IH]; intros s; simpl; [done|].
  destruct (dispatch ev s); simpl; [apply IH|done].
Qed.

Lemma count_correct_choices qs :
  Forall answerable qs →
  QuizScreen.count_correct qs (correct_choices qs) = length qs.
Proof.
  induction 1 as [|q qs [Hq _] _ IH]; simpl; [done|].
  rewrite bool_decide_true by lia. by rewrite IH.
Qed.

Lemma choices_ok_correct qs :
  Forall answerable qs → choices_ok qs (correct_choices qs).
Proof.
  induction 1 as [|q qs Hq _ IH]; constructor; [|done].
  unfold answerable in Hq. lia.
Qed.

(** From the welcome screen to the quiz: the name typed is trimmed and
    stored, the batch is loaded and the screen starts at its first
    question. *)
Lemma run_to_quiz st s0 text qs :
  boot st = Some s0 → truthy (trim text) = true →
  ∃ s, run [TypeName text; Submit; Resolved qs] s0 = Some s
    ∧ visits [TypeName text; Submit; Resolved qs] s0 = [WELCOME; LOADING; QUIZ]
    ∧ app s = handleStart_resolved qs (handleStart_begin (trim text) (app s0))
    ∧ quiz s = QuizScreen.initial ∧ storage s = st ∧ pending s = 0%nat.
Proof.
  intros (l & _ & ->)%boot_Some Ht.
  eexists. unfold handleSubmit. simpl. unfold handleSubmit. simpl.
  rewrite !Ht. simpl. done.
Qed.

(** The error screen is entered only when a provider call fails. *)
Lemma step_ERROR s ev s' :
  step s ev s' → appState (app s') = ERROR →
  appState (app s) = ERROR ∨ ev = Rejected.
Proof.
  destruct 1; simpl; auto; try congruence.
  - destruct confirmed; simplify_eq/=; auto.
  - apply handleQuizFinish_Some in H4 as (l & _ & ->). done.
Qed.

Lemma visits_no_ERROR evs s :
  appState (app s) ≠ ERROR → Rejected ∉ evs → ERROR ∉ visits evs s.
Proof.
  revert s. induction evs as [|ev evs IH]; intros s Hs Hev; simpl;
    [apply not_elem_of_nil|].
  destruct (dispatch ev s) as [s'|] eqn:Hd; [|apply not_elem_of_nil].
  apply step_dispatch_2 in Hd. apply not_elem_of_cons in Hev as [Hev1 Hev2].
  assert (appState (app s') ≠ ERROR).
  { intros He. by destruct (step_ERROR _ _ _ Hd He). }
  apply not_elem_of_cons. auto.
Qed.

Lemma quiz_events_no_Rejected choices uuid now :
  Rejected ∉ quiz_events choices uuid now.
Proof.
  induction choices as [|c rest IH]; [apply not_elem_of_nil|].
  rewrite quiz_events_cons. by rewrite !not_elem_of_cons.
Qed.

(** A run from a reachable state ends in a reachable state. *)
Lemma run_reachable evs s s' :
  reachable s → Forall env_ok evs → run evs s = Some s' → reachable s'.
Proof.
  intros Hr Hevs. revert s Hr. induction Hevs as [|ev evs Hev _ IH];
    intros s Hr; simpl; [by intros [= <-]|].
  destruct (dispatch ev s) as [s1|] eqn:Hd; [|done]. simpl.
  apply IH. eapply reachable_step; [done..|]. by apply step_dispatch_2.
Qed.
End system_facts.

(** ** The theorems of the page *)

Section main.
Context `{JsonCodec}.
Implicit Types (s : System) (ev : Event).

(** C3: the end-to-end scenario.  From the welcome screen, typing a
    name, submitting it, receiving twenty answerable questions and
    answering each correctly leads to the result screen without a visit
    to the error screen; the name stored is the trimmed name, the score is
    100, and the leaderboard, on the page and in the store, is the earlier
    one with the new entry in its place. *)
Theorem scenario_all_correct st s0 text qs uuid now :
  boot st = Some s0 → truthy (trim text) = true →
  length qs = 20%nat → Forall answerable qs →
  let evs := ([TypeName text; Submit; Resolved qs]
              ++ quiz_events (correct_choices qs) uuid now) in
  let l := updated (leaderboard (app s0)) (newEntry (trim text) 100 uuid now) in
  ∃ s', run evs s0 = Some s'
    ∧ (ERROR ∉ visits evs s0)
    ∧ appState (app s') = RESULT
    ∧ userName (app s') = trim text
    ∧ currentScore (app s') = 100
    ∧ leaderboard (app s') = l
    ∧ storage s' = setItem STORAGE_KEY (JSON_stringify (encode_entries l)) st.
Proof.
  intros Hb Ht Hlen Hqs evs l.
  destruct (run_to_quiz st s0 text qs Hb Ht) as (s & Hrun & _ & Ha & Hq & Hst & _).
  assert (getLeaderboard st = Some (leaderboard (app s0))
          ∧ appState (app s0) = WELCOME) as [Hg Hs0]
    by (by apply boot_Some in Hb as (l0 & Hg & ->)).
  pose proof (run_quiz_from (correct_choices qs) uuid now s) as Hquiz.
  rewrite Ha, Hq in Hquiz. simpl in Hquiz.
  rewrite QuizScreen.play_score_20, count_correct_choices in Hquiz;
    [|done|done|by unfold correct_choices; rewrite length_fmap].
  rewrite Hlen in Hquiz. destruct Hquiz as [quiz' Hquiz];
    [done|done|lia|by apply choices_ok_correct|].
  unfold after_next, handleQuizFinish in Hquiz. simpl in Hquiz.
  rewrite Ha, Hst in Hquiz. simpl in Hquiz.
  rewrite (saveScore_unfold _ _ _ _ _ _ Hg) in Hquiz. simpl in Hquiz.
  eexists. subst evs. split; [by rewrite run_app, Hrun; simpl; rewrite Hquiz|].
  split; [|done].
  apply visits_no_ERROR; [congruence|]. apply not_elem_of_app. split;
    [by apply (bool_decide_unpack _)|apply quiz_events_no_Rejected].
Qed.

(** C4: a provider call is outstanding exactly in state LOADING.  In
    every reachable state either the page shows the loading screen and one
    call is outstanding, or it shows another screen and none is: no call
    completes into a screen that does not wait for it, and no second call
    is issued while one runs. *)
Theorem reachable_pending s :
  reachable s →
  (appState (app s) = LOADING ∧ pending s = 1%nat)
  ∨ (appState (app s) ≠ LOADING ∧ pending s = 0%nat).
Proof.
  intros [Hp _ _ _ _ _ _ _ _]%reachable_inv. case_decide; auto.
Qed.

(** C13: the page shows what the store holds.  In every reachable state
    the leaderboard of the page is the one [getLeaderboard] reads from the
    store; its scores go from high to low, it has at most 100 entries, and
    each entry has a trimmed, non-empty name and a score between 0 and
    100. *)
Theorem reachable_leaderboard s :
  reachable s →
  getLeaderboard (storage s) = Some (leaderboard (app s))
  ∧ (∀ i j a b, leaderboard (app s) !! i = Some a →
                leaderboard (app s) !! j = Some b → (i < j)%nat →
                score b ≤ score a)
  ∧ (length (leaderboard (app s)) ≤ 100)%nat
  ∧ Forall Entry_ok (leaderboard (app s)).
Proof.
  intros Hi%reachable_inv.
  destruct (storage_inv_sorted _ _ (inv_storage s Hi) (inv_mirror s Hi)).
  split_and!; [apply Hi|by apply sorted_scores|done|apply Hi].
Qed.

(** C33: the user name outside the welcome screen.  In every reachable
    state other than WELCOME the stored name is not empty and has no white
    space at its ends. *)
Theorem reachable_userName s :
  reachable s → appState (app s) ≠ WELCOME →
  userName (app s) ≠ [] ∧ trimmed (userName (app s)).
Proof. intros Hi%reachable_inv. apply Hi. Qed.

(** C15: the page follows the session state machine.  A step from a
    reachable state leaves [appState] as it is or follows one of the
    arrows WELCOME to LOADING, LOADING to QUIZ or ERROR, QUIZ to RESULT,
    RESULT to WELCOME, ERROR to LOADING or WELCOME. *)
Theorem reachable_transition s ev s' :
  reachable s → step s ev s' →
  appState (app s') = appState (app s)
  ∨ transition (appState (app s)) (appState (app s')) = true.
Proof.
  intros Hi%reachable_inv Hstep. destruct Hstep; simpl; auto;
    try (destruct (inv_pending_S _ _ Hi ltac:(done)) as [-> _]);
    repeat match goal with H : appState _ = _ |- _ => rewrite H end; auto.
  - destruct confirmed; simplify_eq/=; auto.
  - apply handleQuizFinish_Some in H4 as (l & _ & ->). auto.
Qed.

(** C34: the retry button always retries.  On the error screen of a
    reachable state the stored name is not empty, so the button starts a
    new call with that name; the branch of the handler that returns to the
    welcome screen is never taken. *)
Theorem reachable_retry s s' :
  reachable s → step s Retry s' →
  appState (app s') = LOADING ∧ userName (app s') = userName (app s)
  ∧ pending s' = 1%nat.
Proof.
  intros Hi%reachable_inv Hstep. inv Hstep.
  - simpl. by rewrite (inv_pending_0 s Hi) by congruence.
  - destruct (inv_userName s Hi) as [Hn _]; [congruence|].
    by apply truthy_true_iff in Hn; congruence.
Qed.

(** C35: an empty batch of questions blocks the page.  The page accepts
    a batch without questions and shows the quiz screen, which cannot
    render its current question: no event is enabled afterwards. *)
Theorem empty_batch_blocks s s' :
  reachable s → step s (Resolved []) s' →
  appState (app s') = QUIZ ∧ stuck s'.
Proof.
  intros Hi%reachable_inv Hstep. inv Hstep.
  destruct (inv_pending_S _ _ Hi ltac:(done)) as [Hs ->].
  split; [done|]. intros ev s'' Hstep. inv Hstep; simpl in *;
    try done; try congruence;
    match goal with H : quiz_renders _ |- _ =>
      by apply quiz_renders_questions in H end.
Qed.

(** C36: the quiz never blocks on a batch with questions.  In a reachable
    state that shows the quiz with at least one question, every option of
    the current question can be clicked while the question is open, and
    the button below the feedback can be clicked once it is answered. *)
Theorem reachable_quiz_progress s :
  reachable s → appState (app s) = QUIZ → questions (app s) ≠ [] →
  if QuizScreen.isAnswered (quiz s)
  then ∀ uuid now, ∃ s', step s (NextQuestion uuid now) s'
  else ∃ q, QuizScreen.currentQuestion (questions (app s)) (quiz s) = Some q
         ∧ ∀ index, (index < length (options q))%nat →
                    ∃ s', step s (SelectOption index) s'.
Proof.
  intros Hi%reachable_inv Hs Hq.
  destruct (QuizScreen.isAnswered (quiz s)) eqn:Ha.
  - intros uuid now. by apply step_NextQuestion_enabled.
  - destruct (lookup_lt_is_Some_2 (questions (app s))
                (QuizScreen.currentIndex (quiz s))) as [q Hcur];
      [by apply inv_quiz|].
    exists q. split; [done|]. intros index Hindex.
    by eapply step_SelectOption_enabled.
Qed.

(** The transition relation is the function [dispatch].  A rule of
    [step] applies exactly when [dispatch] returns the state the rule
    gives; in particular the successor of a state under an event is
    unique. *)
Lemma step_function s ev s' : step s ev s' ↔ dispatch ev s = Some s'.
Proof. split; [apply step_dispatch_1 | apply step_dispatch_2].
Qed.

(** C16: the page runs a quiz as [QuizScreen.play] does.  From the first
    question, the events of one click on an option and one on the button
    below for each choice end where [play] finishes, with the effect of
    [handleQuizFinish] on the rounded score [play] computes. *)
Theorem run_quiz choices uuid now s :
  appState (app s) = QUIZ → quiz s = QuizScreen.initial →
  questions (app s) ≠ [] → choices_ok (questions (app s)) choices →
  match QuizScreen.play (questions (app s)) choices QuizScreen.initial with
  | Some (QuizScreen.onFinish r) =>
      ∃ quiz',
        run (quiz_events choices uuid now) s
        = after_next (Some (QuizScreen.onFinish r)) uuid now (set_quiz quiz' s)
  | _ => run (quiz_events choices uuid now) s = None
  end.
Proof.
  intros Hs Hq Hne Hc. pose proof (run_quiz_from choices uuid now s) as Hrun.
  rewrite Hq in Hrun. apply Hrun; [done..| |done].
  simpl. destruct (questions (app s)); simpl; [done|lia].
Qed.

(** C29: what [handleSubmit] passes on.  The name it calls [onStart]
    with is not empty, has no white space at its ends, and is the text of
    the input with white space removed at the two ends only; it does not
    call [onStart] exactly when the text is empty or all white space. *)
Theorem handleSubmit_trims (name : jsstring) :
  match handleSubmit name with
  | Some n =>
      n ≠ [] ∧ trimmed n
      ∧ ∃ w1 w2, name = w1 ++ n ++ w2
                 ∧ all_white_space w1 ∧ all_white_space w2
  | None => all_white_space name
  end.
Proof.
  destruct (handleSubmit name) as [n|] eqn:Hn.
  - apply handleSubmit_Some in Hn as [-> Hn].
    split_and!; [done|apply trim_trimmed|apply trim_split].
  - unfold handleSubmit in Hn. apply trim_nil_iff.
    by destruct (trim name).
Qed.

(** C27: a missing key leads to the error screen.  When [process.env]
    holds no key, starting a quiz with any name shows the error screen
    with the message of [handleStart], keeps the name for a retry, and
    leaves no call outstanding, whatever the service would answer. *)
Theorem missing_key_shows_error name env upstream s :
  (∀ vars k, env = Some vars → vars !! js "API_KEY" = Some k → k = []) →
  ∃ s', handleStart name env upstream s = Some s'
    ∧ appState (app s') = ERROR
    ∧ errorMsg (app s') = ERROR_MESSAGE
    ∧ userName (app s') = name
    ∧ pending s' = pending s.
Proof.
  intros Henv. unfold handleStart.
  rewrite provider_missing_key_aux by done. simpl. by eexists.
Qed.

(** Submitting the name.  On the welcome screen a submission with a
    name that is not only white space stores the trimmed name, issues one
    provider call and shows the loading screen; a submission with an empty
    or blank name changes nothing. *)
Lemma submit_starts s s' :
  appState (app s) = WELCOME → step s Submit s' →
  if truthy (trim (welcome_name s))
  then appState (app s') = LOADING
       ∧ userName (app s') = trim (welcome_name s)
       ∧ pending s' = S (pending s)
  else s' = s.
Proof.
  intros Hs Hstep. inv Hstep;
    match goal with Hh : handleSubmit _ = _ |- _ => rename Hh into Hsub end.
  - apply handleSubmit_Some in Hsub as [-> Hn].
    apply truthy_true_iff in Hn. by rewrite Hn.
  - unfold handleSubmit in Hsub. by destruct (truthy _).
Qed.

(** C37: the leaderboard is reset only after confirmation.  When the
    dialogue is declined the store and the page keep the leaderboard;
    when it is confirmed both are empty afterwards. *)
Theorem reset_after_confirmation s confirmed s' :
  step s (ResetLeaderboard confirmed) s' →
  if confirmed
  then leaderboard (app s') = [] ∧ getLeaderboard (storage s') = Some []
  else s' = s.
Proof.
  intros Hstep. inv Hstep.
  match goal with Hh : appState _ = WELCOME |- _ => rename Hh into Hs end.
  destruct confirmed; simplify_eq/=.
  - split; [done|apply resetLeaderboard_empty].
  - unfold render, set_storage, mount_welcome. simpl.
    destruct s as [a ? ? ? ?]; simpl in *. rewrite Hs.
    by repeat case_decide.
Qed.

(** Restarting clears the session.  From the result screen the
    restart button shows the welcome screen with an empty name field and
    clears the stored name and score; the leaderboard and the store stay
    as they are. *)
Lemma restart_clears s s' :
  step s Restart s' →
  appState (app s') = WELCOME ∧ userName (app s') = []
  ∧ currentScore (app s') = 0 ∧ welcome_name s' = []
  ∧ leaderboard (app s') = leaderboard (app s) ∧ storage s' = storage s.
Proof.
  intros Hstep. inv Hstep. simpl. unfold mount_welcome.
  repeat case_decide; [congruence|done].
Qed.

(** C18: the quiz ends.  There is no infinite sequence of steps of the
    page that stays on the quiz screen: every such step, an answer or the
    move to the next question, uses up one of the two events the screen
    has for each question that is left. *)
Theorem quiz_terminates : well_founded (flip quiz_step).
Proof.
  apply (wf_projected (<)%nat quiz_measure); [|apply lt_wf].
  intros s' s Hstep%quiz_step_measure. lia.
Qed.
End main.

(** ** The theorems on the example page, with the reference codec *)

Lemma page_welcome_reachable : reachable (H := ref_codec) page_welcome.
Proof.
  eapply reachable_boot; [apply storage_inv_empty| |reflexivity].
  intros l. rewrite getLeaderboard_absent by apply lookup_empty.
  intros [= <-]. constructor.
Qed.

Lemma page_after_reachable evs :
  Forall env_ok evs → is_Some (run (H := ref_codec) evs page_welcome) →
  reachable (H := ref_codec) (page_after evs).
Proof.
  intros Hevs [s Hs]. unfold page_after. rewrite Hs. simpl.
  eapply run_reachable; [apply page_welcome_reachable|done..].
Qed.

Lemma page_after_step evs ev :
  is_Some (run (H := ref_codec) (evs ++ [ev]) page_welcome) →
  step (H := ref_codec) (page_after evs) ev (page_after (evs ++ [ev])).
Proof.
  unfold page_after. rewrite run_app. intros [s' Hs'].
  destruct (run evs page_welcome) as [s|]; [|done]. simpl in *.
  apply step_dispatch_2. destruct (dispatch ev s); by simplify_eq/=.
Qed.

Ltac page_facts :=
  first [ apply page_after_reachable; [compute_done|compute_done]
        | apply page_after_step; compute_done
        | compute_done
        | vm_compute; reflexivity ].

Lemma scenario_all_correct_witness :
  let evs := ([TypeName (js "  Amy  "); Submit;
               Resolved QuizScreen.example_batch]
              ++ quiz_events (correct_choices QuizScreen.example_batch)
                   example_uuid example_now) in
  let l := updated (leaderboard (app page_welcome))
             (newEntry (trim (js "  Amy  ")) 100 example_uuid example_now) in
  ∃ s', run (H := ref_codec) evs page_welcome = Some s'
    ∧ (ERROR ∉ visits (H := ref_codec) evs page_welcome)
    ∧ appState (app s') = RESULT
    ∧ userName (app s') = trim (js "  Amy  ")
    ∧ currentScore (app s') = 100
    ∧ leaderboard (app s') = l
    ∧ storage s' = setItem STORAGE_KEY (stringify (encode_entries l)) ∅.
Proof.
  apply (scenario_all_correct (H := ref_codec) ∅ page_welcome (js "  Amy  ")
           QuizScreen.example_batch example_uuid example_now); page_facts.
Defined.

Lemma reachable_pending_witness :
  (appState (app (page_after typed_Amy)) = LOADING
   ∧ pending (page_after typed_Amy) = 1%nat)
  ∨ (appState (app (page_after typed_Amy)) ≠ LOADING
     ∧ pending (page_after typed_Amy) = 0%nat).
Proof.
  apply (reachable_pending (H := ref_codec) (page_after typed_Amy)).
  page_facts.
Defined.

Lemma reachable_leaderboard_witness :
  getLeaderboard (H := ref_codec) (storage (page_after played))
  = Some (leaderboard (app (page_after played)))
  ∧ (∀ i j a b, leaderboard (app (page_after played)) !! i = Some a →
                leaderboard (app (page_after played)) !! j = Some b →
                (i < j)%nat → score b ≤ score a)
  ∧ (length (leaderboard (app (page_after played))) ≤ 100)%nat
  ∧ Forall Entry_ok (leaderboard (app (page_after played))).
Proof.
  apply (reachable_leaderboard (H := ref_codec) (page_after played)).
  page_facts.
Defined.

Lemma reachable_userName_witness :
  userName (app (page_after typed_Amy)) ≠ []
  ∧ trimmed (userName (app (page_after typed_Amy))).
Proof.
  apply (reachable_userName (H := ref_codec) (page_after typed_Amy));
    page_facts.
Defined.

Lemma reachable_transition_witness :
  appState (app (page_after (typed_Amy ++ [Rejected])))
  = appState (app (page_after typed_Amy))
  ∨ transition (appState (app (page_after typed_Amy)))
      (appState (app (page_after (typed_Amy ++ [Rejected])))) = true.
Proof.
  apply (reachable_transition (H := ref_codec) (page_after typed_Amy)
           Rejected (page_after (typed_Amy ++ [Rejected]))); page_facts.
Defined.

Lemma reachable_retry_witness :
  appState (app (page_after ((typed_Amy ++ [Rejected]) ++ [Retry]))) = LOADING
  ∧ userName (app (page_after ((typed_Amy ++ [Rejected]) ++ [Retry])))
    = userName (app (page_after (typed_Amy ++ [Rejected])))
  ∧ pending (page_after ((typed_Amy ++ [Rejected]) ++ [Retry])) = 1%nat.
Proof.
  apply (reachable_retry (H := ref_codec)
           (page_after (typed_Amy ++ [Rejected]))
           (page_after ((typed_Amy ++ [Rejected]) ++ [Retry]))); page_facts.
Defined.

Lemma empty_batch_blocks_witness :
  appState (app (page_after (typed_Amy ++ [Resolved []]))) = QUIZ
  ∧ stuck (H := ref_codec) (page_after (typed_Amy ++ [Resolved []])).
Proof.
  apply (empty_batch_blocks (H := ref_codec) (page_after typed_Amy)
           (page_after (typed_Amy ++ [Resolved []]))); page_facts.
Defined.

Lemma reachable_quiz_progress_witness :
  if QuizScreen.isAnswered (quiz (page_after loaded))
  then ∀ uuid now,
         ∃ s', step (H := ref_codec) (page_after loaded)
                 (NextQuestion uuid now) s'
  else ∃ q, QuizScreen.currentQuestion (questions (app (page_after loaded)))
              (quiz (page_after loaded)) = Some q
         ∧ ∀ index, (index < length (options q))%nat →
                    ∃ s', step (H := ref_codec) (page_after loaded)
                            (SelectOption index) s'.
Proof.
  apply (reachable_quiz_progress (H := ref_codec) (page_after loaded));
    page_facts.
Defined.

Lemma run_quiz_witness :
  match QuizScreen.play (questions (app (page_after loaded))) [0; 1; 2]%nat
          QuizScreen.initial with
  | Some (QuizScreen.onFinish r) =>
      ∃ quiz',
        run (H := ref_codec)
          (quiz_events [0; 1; 2]%nat example_uuid example_now)
          (page_after loaded)
        = after_next (H := ref_codec) (Some (QuizScreen.onFinish r))
            example_uuid example_now (set_quiz quiz' (page_after loaded))
  | _ => run (H := ref_codec)
           (quiz_events [0; 1; 2]%nat example_uuid example_now)
           (page_after loaded) = None
  end.
Proof.
  apply (run_quiz (H := ref_codec) [0; 1; 2]%nat example_uuid example_now
           (page_after loaded)); [page_facts..|].
  repeat constructor; vm_compute; lia.
Defined.

Lemma missing_key_shows_error_witness :
  ∃ s', handleStart (H := ref_codec) (js "Amy") None
          (answer_with odd_response) page_welcome = Some s'
    ∧ appState (app s') = ERROR
    ∧ errorMsg (app s') = ERROR_MESSAGE
    ∧ userName (app s') = js "Amy"
    ∧ pending s' = pending page_welcome.
Proof.
  apply (missing_key_shows_error (H := ref_codec) (js "Amy") None
           (answer_with odd_response) page_welcome).
  intros vars k Hnone. discriminate Hnone.
Defined.

Lemma submit_starts_witness :
  if truthy (trim (welcome_name (page_after [TypeName (js "  Amy  ")])))
  then appState (app (page_after ([TypeName (js "  Amy  ")] ++ [Submit])))
       = LOADING
       ∧ userName (app (page_after ([TypeName (js "  Amy  ")] ++ [Submit])))
         = trim (welcome_name (page_after [TypeName (js "  Amy  ")]))
       ∧ pending (page_after ([TypeName (js "  Amy  ")] ++ [Submit]))
         = S (pending (page_after [TypeName (js "  Amy  ")]))
  else page_after ([TypeName (js "  Amy  ")] ++ [Submit])
       = page_after [TypeName (js "  Amy  ")].
Proof.
  apply (submit_starts (H := ref_codec)
           (page_after [TypeName (js "  Amy  ")])
           (page_after ([TypeName (js "  Amy  ")] ++ [Submit]))); page_facts.
Defined.

Lemma reset_after_confirmation_witness :
  leaderboard (app (page_after ((played ++ [Restart])
                                ++ [ResetLeaderboard true]))) = []
  ∧ getLeaderboard (H := ref_codec)
      (storage (page_after ((played ++ [Restart])
                            ++ [ResetLeaderboard true]))) = Some [].
Proof.
  apply (reset_after_confirmation (H := ref_codec)
           (page_after (played ++ [Restart])) true
           (page_after ((played ++ [Restart]) ++ [ResetLeaderboard true])));
    page_facts.
Defined.

Lemma restart_clears_witness :
  appState (app (page_after (played ++ [Restart]))) = WELCOME
  ∧ userName (app (page_after (played ++ [Restart]))) = []
  ∧ currentScore (app (page_after (played ++ [Restart]))) = 0
  ∧ welcome_name (page_after (played ++ [Restart])) = []
  ∧ leaderboard (app (page_after (played ++ [Restart])))
    = leaderboard (app (page_after played))
  ∧ storage (page_after (played ++ [Restart])) = storage (page_after played).
Proof.
  apply (restart_clears (H := ref_codec) (page_after played)
           (page_after (played ++ [Restart]))); page_facts.
Defined.

(** The page after Amy's three correct answers. *)
Example played_page :
  appState (app (page_after played)) = RESULT
  ∧ currentScore (app (page_after played)) = 100
  ∧ leaderboard (app (page_after played))
    = [mkEntry example_uuid (js "Amy") 100 example_now]
  ∧ visits (H := ref_codec) played page_welcome
    = [WELCOME; LOADING; QUIZ; QUIZ; QUIZ; QUIZ; QUIZ; QUIZ; RESULT].
Proof. vm_compute. done. Qed.
