(* ===== verification/Board.v ===== *)
(** * The page as a client of the store

    [App] of [src/App.tsx] calls the store in three places: the effect
    after the first render loads the leaderboard, [handleQuizFinish]
    records the new entry, and [handleResetLeaderboard] clears the store
    once the user confirmed.  [store_call] is the call an event makes and
    [store_calls] the calls of a sequence of events.

    The theorem of the file composes the page with the store: after any
    sequence of events, [localStorage] is what the calls of the sequence
    left, and the leaderboard on display is the list those calls make of
    the list on display at the start, by [updated] and by emptying it
    ([page_uses_store]).  The page is used through its invariant and the
    store through [observe]: nothing here looks into the text that
    [localStorage] holds. *)

From stdpp Require Import gmap.
From S2P Require Import Prelude JsString JsArray JsNumber Types Json JsonRef.
From S2P Require Import Storage Store Quiz App.

#[local] Open Scope Z_scope.

Section calls.
Context `{JsonCodec}.

(** The call of the store that an event makes when the page accepts the
    event: [resetLeaderboard()] in [handleResetLeaderboard] after the
    user confirmed, [saveScore(userName, score)] in [handleQuizFinish]
    when the button below the last question is clicked. *)
Definition store_call (s : System) (ev : Event) : option StoreOp :=
  match ev, appState (app s) with
  | ResetLeaderboard true, WELCOME => Some op_clear
  | NextQuestion uuid now, QUIZ =>
      match QuizScreen.handleNext (questions (app s)) (quiz s) with
      | Some (QuizScreen.onFinish finalScore) =>
          Some (op_record (newEntry (userName (app s)) finalScore uuid now))
      | _ => None
      end
  | _, _ => None
  end.

(** The calls of a sequence of events, in order. *)
Fixpoint store_calls (evs : list Event) (s : System) : list StoreOp :=
  match evs with
  | [] => []
  | ev :: rest =>
      match dispatch ev s with
      | Some s' => option_list (store_call s ev) ++ store_calls rest s'
      | None => []
      end
  end.
End calls.

(** The calls of the example: Amy's entry is recorded once. *)
Definition played_calls : list StoreOp :=
  store_calls (H := ref_codec) played page_welcome.

(** ** One event *)

Section facts.
Context `{JsonCodec}.
Implicit Types (s : System) (ev : Event).

(** The entry [handleQuizFinish] records can be stored. *)
Lemma finish_entry_ok s uuid now finalScore :
  inv s → appState (app s) = QUIZ → quiz_renders s →
  jsstring_ok uuid → safe_integer now →
  QuizScreen.handleNext (questions (app s)) (quiz s)
    = Some (QuizScreen.onFinish finalScore) →
  entry_json_ok (newEntry (userName (app s)) finalScore uuid now).
Proof.
  intros Hi Hs Hq Hu Hn Hf.
  assert (0 ≤ finalScore ≤ 100).
  { eapply QuizScreen.handleNext_onFinish_range; [apply Hi| |done].
    apply Hi; [done|by apply quiz_renders_questions]. }
  split_and!; simpl; [done|apply Hi|apply safe_integer_small; lia|done].
Qed.

(** What [handleQuizFinish] does to the store and to the list on
    display. *)
Lemma handleQuizFinish_store s uuid now finalScore a st :
  inv s →
  handleQuizFinish finalScore uuid now (storage s) (app s) = Some (a, st) →
  let e := newEntry (userName (app s)) finalScore uuid now in
  st = (record e (storage s)).2
  ∧ leaderboard a = updated (leaderboard (app s)) e.
Proof.
  intros Hi (l & Hsave & ->)%handleQuizFinish_Some. simpl.
  unfold record_local. simpl. rewrite Hsave. split; [done|].
  rewrite (saveScore_unfold _ _ _ _ _ _ (inv_mirror s Hi)) in Hsave.
  cbv zeta in Hsave. by simplify_eq.
Qed.

(** What [handleResetLeaderboard] does to them: nothing unless the user
    confirmed. *)
Lemma handleResetLeaderboard_store confirmed s a st :
  handleResetLeaderboard confirmed (storage s) (app s) = (a, st) →
  let ops := option_list (if confirmed then Some op_clear else None) in
  st = (observe ops (storage s)).2
  ∧ leaderboard a = (observe ops (leaderboard (app s))).2.
Proof. unfold handleResetLeaderboard. destruct confirmed; by intros [= <- <-]. Qed.

(** An event the page accepts changes the store and the list on display
    by the call it makes, and not at all when it makes none. *)
Lemma step_store s ev s' :
  inv s → env_ok ev → step s ev s' →
  let ops := option_list (store_call s ev) in
  Forall op_ok ops
  ∧ storage s' = (observe ops (storage s)).2
  ∧ leaderboard (app s') = (observe ops (leaderboard (app s))).2.
Proof.
  intros Hi Hev Hstep. unfold store_call.
  destruct Hstep;
    repeat match goal with
           | Hs : appState (app _) = _ |- _ => rewrite Hs
           | Hn : QuizScreen.handleNext _ _ = _ |- _ => rewrite Hn
           end; simpl; try done.
  - split; [by destruct confirmed; repeat constructor|].
    by apply handleResetLeaderboard_store.
  - destruct Hev. split; [|by apply handleQuizFinish_store].
    apply Forall_singleton. by eapply finish_entry_ok.
Qed.

(** ** A sequence of events *)

Lemma run_store evs s s' :
  inv s → Forall env_ok evs → run evs s = Some s' →
  let ops := store_calls evs s in
  Forall op_ok ops
  ∧ storage s' = (observe ops (storage s)).2
  ∧ leaderboard (app s') = (observe ops (leaderboard (app s))).2.
Proof.
  intros Hi Hevs. revert s Hi.
  induction Hevs as [|ev evs Hev _ IH]; intros s Hi Hrun; simpl in *;
    [by simplify_eq|].
  destruct (dispatch ev s) as [s1|] eqn:Hd; [simpl in Hrun|done].
  apply step_dispatch_2 in Hd.
  destruct (step_store s ev s1) as (Hok & Hst & Hl); [done..|].
  destruct (IH s1) as (Hok' & Hst' & Hl'); [by eapply step_inv|done|].
  rewrite Forall_app, !observe_app. simpl. by rewrite <-Hst, <-Hl.
Qed.
End facts.

(** ** The page and the store *)

Section main.
Context `{JsonCodec}.

(** C8: the page keeps the leaderboard through the store.  From a
    [localStorage] that holds a leaderboard, after any sequence of events
    the page accepts: [localStorage] is what the calls of [saveScore] and
    [resetLeaderboard] that the events made have left of it, one
    [saveScore] for each quiz that finished and one [resetLeaderboard] for
    each reset the user confirmed; the leaderboard on display is the list
    the same calls make of the list loaded at the start, by inserting an
    entry with [updated] and by emptying the list; and every entry
    recorded could be written. *)
Theorem page_uses_store (st : Storage) (s : System) (evs : list Event)
    (s' : System) :
  storage_inv st → (∀ l, getLeaderboard st = Some l → Forall Entry_ok l) →
  boot st = Some s → Forall env_ok evs → run evs s = Some s' →
  let ops := store_calls evs s in
  Forall op_ok ops
  ∧ storage s' = (observe ops st).2
  ∧ leaderboard (app s') = (observe ops (load st)).2.
Proof.
  intros Hst Hl Hboot Hevs Hrun.
  pose proof (inv_boot st s Hst Hl Hboot) as Hi.
  destruct (run_store evs s s' Hi Hevs Hrun) as (Hok & Hs & Hb).
  apply boot_Some in Hboot as (l & Hg & ->). simpl in *.
  by rewrite Hg.
Qed.
End main.

Lemma page_uses_store_witness :
  Forall op_ok played_calls
  ∧ storage (page_after played)
    = (observe (LeaderboardStore0 := local_store (H := ref_codec))
         played_calls ∅).2
  ∧ leaderboard (app (page_after played))
    = (observe played_calls
         (load (LeaderboardStore := local_store (H := ref_codec)) ∅)).2.
Proof.
  apply (page_uses_store (H := ref_codec) ∅ page_welcome played
           (page_after played));
    [apply storage_inv_empty| |reflexivity|compute_done|
     vm_compute; reflexivity].
  intros l. rewrite getLeaderboard_absent by apply lookup_empty.
  intros [= <-]. constructor.
Defined.

(** Amy's quiz made one call of the store. *)
Example played_calls_one :
  played_calls
  = [op_record (mkEntry example_uuid (js "Amy") 100 example_now)].
Proof. vm_compute. reflexivity. Qed.
