(* ===== verification/Session.v ===== *)
(** * The session state machine of the specification, and the page as
      its implementation

    Section 4.1 of the specification describes the session as a state
    machine: a table of states, triggers, guards and side effects.  Module
    [Session] is that table as a function [step] on an abstract state: the
    session of section 3 and the leaderboard of section 4.2.  The running
    score, a real number in the specification, is kept as the number of
    correct answers [correct]: the score is [correct * 100 /
    questionCount], and its rounding is [exact_score].

    The page of [App] implements the machine under the contract the
    specification gives the provider (section 4.3): a batch has exactly 20
    questions, each with four options and a correct answer among them.
    [simulates] relates a state of the page to a state of the machine, and
    the theorems show that every step of the page from related states is a
    step of the machine, or changes nothing the machine records. *)

From stdpp Require Import gmap.
From S2P Require Import Prelude JsString JsArray JsNumber Types Json JsonRef.
From S2P Require Import Storage Quiz Gemini App.

#[local] Open Scope Z_scope.

Module Session.

(** ** The abstract state *)

Record State : Type := mkSession {
  state : AppState;
  userName : jsstring;
  questions : list Question;
  currentIndex : nat;
  correct : nat;
  selectedOption : option nat;
  isAnswered : bool;
  errorMessage : option jsstring;
  leaderboard : list LeaderboardEntry;
}.

(** The session at application start, with the leaderboard loaded. *)
Definition initial (l : list LeaderboardEntry) : State :=
  {| state := WELCOME; userName := []; questions := []; currentIndex := 0;
     correct := 0; selectedOption := None; isAnswered := false;
     errorMessage := None; leaderboard := l |}.

(** The triggers of the table, the abandoning of the error screen, and
    the reset of the leaderboard, which is confirmed before it reaches the
    machine.  [next] carries the identifier and the time stamp of the entry
    it may create. *)
Inductive Trigger : Type :=
  | start (name : jsstring)
  | resolves (batch : list Question)
  | rejects (message : jsstring)
  | selectOption (i : nat)
  | next (uuid : jsstring) (now : Z)
  | restart
  | retry
  | abandon
  | clear.

(** [round(runningScore)]. *)
Definition finalScore (a : State) : Z :=
  exact_score (correct a) (length (questions a)).

(** [record(name, score)] of the leaderboard store: the new entry goes
    behind the entries that score at least as much, and the first 100
    entries remain. *)
Definition record (l : list LeaderboardEntry) (e : LeaderboardEntry) :
    list LeaderboardEntry :=
  take 100 (place compare_score e l).

Definition set_state (s : AppState) (a : State) : State :=
  {| state := s; userName := userName a; questions := questions a;
     currentIndex := currentIndex a; correct := correct a;
     selectedOption := selectedOption a; isAnswered := isAnswered a;
     errorMessage := errorMessage a; leaderboard := leaderboard a |}.

(** ** The table *)

(** One row of the table for each branch; [None] where the table has no
    row or the guard of the row fails. *)
Definition step (a : State) (t : Trigger) : option State :=
  match state a, t with
  | WELCOME, start name =>
      if truthy (trim name) then
        Some {| state := LOADING; userName := trim name;
                questions := questions a; currentIndex := currentIndex a;
                correct := correct a; selectedOption := selectedOption a;
                isAnswered := isAnswered a; errorMessage := errorMessage a;
                leaderboard := leaderboard a |}
      else None
  | LOADING, resolves batch =>
      if bool_decide (1 ≤ length batch)%nat then
        Some {| state := QUIZ; userName := userName a; questions := batch;
                currentIndex := 0; correct := 0; selectedOption := None;
                isAnswered := false; errorMessage := errorMessage a;
                leaderboard := leaderboard a |}
      else None
  | LOADING, rejects message =>
      Some {| state := ERROR; userName := userName a;
              questions := questions a; currentIndex := currentIndex a;
              correct := correct a; selectedOption := selectedOption a;
              isAnswered := isAnswered a; errorMessage := Some message;
              leaderboard := leaderboard a |}
  | QUIZ, selectOption i =>
      q ← questions a !! currentIndex a;
      if negb (isAnswered a) && bool_decide (i < 4)%nat then
        Some {| state := QUIZ; userName := userName a;
                questions := questions a; currentIndex := currentIndex a;
                correct :=
                  if bool_decide (Z.of_nat i = correctAnswerIndex q)
                  then S (correct a) else correct a;
                selectedOption := Some i; isAnswered := true;
                errorMessage := errorMessage a;
                leaderboard := leaderboard a |}
      else None
  | QUIZ, next uuid now =>
      if isAnswered a then
        if bool_decide (S (currentIndex a) < length (questions a))%nat then
          Some {| state := QUIZ; userName := userName a;
                  questions := questions a;
                  currentIndex := S (currentIndex a); correct := correct a;
                  selectedOption := None; isAnswered := false;
                  errorMessage := errorMessage a;
                  leaderboard := leaderboard a |}
        else
          Some {| state := RESULT; userName := userName a;
                  questions := questions a; currentIndex := currentIndex a;
                  correct := correct a; selectedOption := selectedOption a;
                  isAnswered := isAnswered a; errorMessage := errorMessage a;
                  leaderboard :=
                    record (leaderboard a)
                      (newEntry (userName a) (finalScore a) uuid now) |}
      else None
  | RESULT, restart =>
      Some {| state := WELCOME; userName := []; questions := questions a;
              currentIndex := currentIndex a; correct := 0;
              selectedOption := selectedOption a; isAnswered := isAnswered a;
              errorMessage := errorMessage a; leaderboard := leaderboard a |}
  | ERROR, retry =>
      if truthy (userName a) then Some (set_state LOADING a)
      else Some (set_state WELCOME a)
  | ERROR, abandon => Some (set_state WELCOME a)
  | WELCOME, clear =>
      Some {| state := WELCOME; userName := userName a;
              questions := questions a; currentIndex := currentIndex a;
              correct := correct a; selectedOption := selectedOption a;
              isAnswered := isAnswered a; errorMessage := errorMessage a;
              leaderboard := [] |}
  | _, _ => None
  end.

(** The states the machine reaches. *)
Inductive reachable : State → Prop :=
  | reachable_initial l : reachable (initial l)
  | reachable_step a t a' : reachable a → step a t = Some a' → reachable a'.

(** The machine after a sequence of triggers. *)
Fixpoint run (ts : list Trigger) (a : State) : option State :=
  match ts with
  | [] => Some a
  | t :: rest => a' ← step a t; run rest a'
  end.
End Session.

(** ** The page against the machine *)

(** The provider keeps its contract: a batch has twenty questions, each
    with four options and a correct answer among them. *)
Definition contract (ev : Event) : Prop :=
  match ev with
  | Resolved q => length q = 20%nat ∧ Forall Question_ok q
  | _ => True
  end.

#[export] Instance contract_dec ev : Decision (contract ev).
Proof. destruct ev; simpl; apply _. Defined.

(** The trigger an event of the page is for the machine; [None] for an
    event the machine does not see: typing, a submission the page
    ignores, a reset that was not confirmed. *)
Definition trigger (s : System) (ev : Event) : option Session.Trigger :=
  match ev with
  | TypeName _ => None
  | Submit =>
      if truthy (trim (welcome_name s))
      then Some (Session.start (welcome_name s)) else None
  | ResetLeaderboard confirmed =>
      if confirmed then Some Session.clear else None
  | Resolved q => Some (Session.resolves q)
  | Rejected => Some (Session.rejects ERROR_MESSAGE)
  | SelectOption index => Some (Session.selectOption index)
  | NextQuestion uuid now => Some (Session.next uuid now)
  | Restart => Some Session.restart
  | Retry => Some Session.retry
  | Home => Some Session.abandon
  end.

(** What the quiz screen and the machine agree on during a quiz. *)
Definition simulates_quiz (s : System) (a : Session.State) : Prop :=
  length (App.questions (app s)) = 20%nat
  ∧ Forall Question_ok (App.questions (app s))
  ∧ Session.currentIndex a = QuizScreen.currentIndex (quiz s)
  ∧ Session.selectedOption a = QuizScreen.selectedOption (quiz s)
  ∧ Session.isAnswered a = QuizScreen.isAnswered (quiz s)
  ∧ QuizScreen.score (quiz s) = score_after (Session.correct a) 20
  ∧ (Session.correct a
     ≤ Session.currentIndex a + (if Session.isAnswered a then 1 else 0))%nat
  ∧ (Session.currentIndex a < 20)%nat.

(** The state [a] of the machine describes the state [s] of the page. *)
Definition simulates (s : System) (a : Session.State) : Prop :=
  Session.state a = appState (app s)
  ∧ Session.userName a = App.userName (app s)
  ∧ Session.leaderboard a = App.leaderboard (app s)
  ∧ (appState (app s) = ERROR →
     Session.errorMessage a = Some (errorMsg (app s)))
  ∧ (appState (app s) = QUIZ ∨ appState (app s) = RESULT →
     Session.questions a = App.questions (app s))
  ∧ (appState (app s) = QUIZ → simulates_quiz s a)
  ∧ (appState (app s) = RESULT →
     currentScore (app s) = Session.finalScore a).

(** The triggers of a sequence of events, each read in the state the page
    has when the event arrives. *)
Fixpoint triggers `{JsonCodec} (evs : list Event) (s : System) :
    list Session.Trigger :=
  match evs with
  | [] => []
  | ev :: rest =>
      option_list (trigger s ev)
      ++ from_option (triggers rest) [] (dispatch ev s)
  end.

(** ** Example data *)

(** Amy types her name, receives twenty questions, answers the first
    seven correctly and the others wrongly. *)
Definition example_choices : list nat :=
  replicate 7 1%nat ++ replicate 13 0%nat.

Definition example_events : list Event :=
  [TypeName (js "  Amy  "); Submit; Resolved QuizScreen.example_batch]
  ++ quiz_events example_choices example_uuid example_now.

(** ** Lemmas *)

(** The state in which the table has a row for a trigger. *)
Lemma Session_step_state a t a' :
  Session.step a t = Some a' →
  Session.state a =
    match t with
    | Session.start _ | Session.clear => WELCOME
    | Session.resolves _ | Session.rejects _ => LOADING
    | Session.selectOption _ | Session.next _ _ => QUIZ
    | Session.restart => RESULT
    | Session.retry | Session.abandon => ERROR
    end.
Proof. unfold Session.step. by destruct (Session.state a), t. Qed.

Lemma Session_step_next a uuid now a' :
  Session.step a (Session.next uuid now) = Some a' →
  Session.isAnswered a = true.
Proof.
  unfold Session.step.
  by destruct (Session.state a), (Session.isAnswered a).
Qed.

Section simulation.
Context `{JsonCodec}.
Implicit Types (s : System) (a : Session.State) (ev : Event).

Ltac sim_split :=
  split_and!; simpl; unfold mount_welcome, mount_quiz;
  repeat case_decide; intros; destruct_or?; try done; try congruence.

(** The machine that describes the page after its first render. *)
Lemma simulates_boot st s :
  boot st = Some s → simulates s (Session.initial (App.leaderboard (app s))).
Proof. intros (l & _ & ->)%boot_Some. sim_split. Qed.

(** What the machine does not record may change. *)
Lemma simulates_set_welcome_name text s a :
  simulates s a → simulates (set_welcome_name text s) a.
Proof. intros (?&?&?&?&?&?&?). by split_and!. Qed.

Lemma simulates_set_storage st s a :
  simulates s a → appState (app s) ≠ QUIZ →
  simulates (render (app s) (set_storage st s)) a.
Proof. intros (?&?&?&?&?&?&?) ?. by split_and!. Qed.

Lemma simulates_start name s a :
  simulates s a → appState (app s) = WELCOME → truthy (trim name) = true →
  ∃ a', Session.step a (Session.start name) = Some a'
        ∧ simulates (onStart (trim name) s) a'.
Proof.
  intros (Hst & Hn & Hl & _) Hs Ht. unfold Session.step.
  rewrite Hst, Hs, Ht. eexists. split; [done|]. sim_split.
Qed.

Lemma simulates_retry s a :
  simulates s a → appState (app s) = ERROR →
  truthy (App.userName (app s)) = true →
  ∃ a', Session.step a Session.retry = Some a'
        ∧ simulates (onStart (App.userName (app s)) s) a'.
Proof.
  intros (Hst & Hn & Hl & _) Hs Ht. unfold Session.step.
  rewrite Hst, Hs, Hn, Ht. eexists. split; [done|]. sim_split.
Qed.

Lemma simulates_home t s a :
  simulates s a → appState (app s) = ERROR →
  Session.step a t = Some (Session.set_state WELCOME a) →
  ∃ a', Session.step a t = Some a'
        ∧ simulates (render (setAppState WELCOME (app s)) s) a'.
Proof.
  intros (Hst & Hn & Hl & _) Hs Ht. eexists. split; [done|]. sim_split.
Qed.

Lemma simulates_restart s a :
  simulates s a → appState (app s) = RESULT →
  ∃ a', Session.step a Session.restart = Some a'
        ∧ simulates (render (handleRestart (app s)) s) a'.
Proof.
  intros (Hst & Hn & Hl & _) Hs. unfold Session.step. rewrite Hst, Hs.
  eexists. split; [done|]. sim_split.
Qed.

Lemma simulates_clear s a :
  simulates s a → appState (app s) = WELCOME →
  ∃ a', Session.step a Session.clear = Some a'
        ∧ simulates
            (render (setLeaderboard [] (app s))
               (set_storage (resetLeaderboard (storage s)) s)) a'.
Proof.
  intros (Hst & Hn & Hl & _) Hs. unfold Session.step. rewrite Hst, Hs.
  eexists. split; [done|]. sim_split.
Qed.

Lemma simulates_resolved q n s a :
  inv s → simulates s a → pending s = S n →
  length q = 20%nat → Forall Question_ok q →
  ∃ a', Session.step a (Session.resolves q) = Some a'
        ∧ simulates (render (handleStart_resolved q (app s))
                       (set_pending n s)) a'.
Proof.
  intros Hi (Hst & Hn & Hl & _) Hp Hlen Hq.
  destruct (inv_pending_S s n Hi Hp) as [Hs ->].
  unfold Session.step. rewrite Hst, Hs, bool_decide_true by lia.
  eexists. split; [done|]. sim_split.
  unfold simulates_quiz, mount_quiz. simpl. rewrite Hs. simpl.
  split_and!; try done; lia.
Qed.

Lemma simulates_rejected n s a :
  inv s → simulates s a → pending s = S n →
  ∃ a', Session.step a (Session.rejects ERROR_MESSAGE) = Some a'
        ∧ simulates (render (handleStart_rejected (app s))
                       (set_pending n s)) a'.
Proof.
  intros Hi (Hst & Hn & Hl & _) Hp.
  destruct (inv_pending_S s n Hi Hp) as [Hs ->].
  unfold Session.step. rewrite Hst, Hs. eexists. split; [done|]. sim_split.
Qed.
End simulation.

Section simulation_quiz.
Context `{JsonCodec}.
Implicit Types (s : System) (a : Session.State) (ev : Event).

Lemma simulates_selectOption s a index q quiz' :
  simulates s a → appState (app s) = QUIZ →
  QuizScreen.currentQuestion (App.questions (app s)) (quiz s) = Some q →
  (index < length (options q))%nat →
  QuizScreen.isAnswered (quiz s) = false →
  QuizScreen.handleOptionClick (App.questions (app s)) index (quiz s)
    = Ok quiz' →
  ∃ a', Session.step a (Session.selectOption index) = Some a'
        ∧ simulates (set_quiz quiz' s) a'.
Proof.
  intros (Hst & Hn & Hl & He & Hq & Hquiz & Hres) Hs Hcur Hi Ha Hclick.
  destruct (Hquiz Hs) as (Hlen & Hok & Hidx & Hsel & Hans & Hscore & Hc & Hlt).
  rewrite (QuizScreen.handleOptionClick_open _ _ _ q) in Hclick by done.
  injection Hclick as <-. unfold QuizScreen.currentQuestion in Hcur.
  assert (Question_ok q) as [Hfour _].
  { eapply Forall_lookup_1; [exact Hok|exact Hcur]. }
  unfold Session.step. rewrite Hst, Hs, Hq, Hidx, Hcur, Hans, Ha by auto.
  simpl. rewrite bool_decide_true by lia. eexists. split; [done|].
  split_and!; simpl; try done; [|intros; congruence].
  intros _. unfold simulates_quiz. simpl. rewrite Hscore, Hlen.
  rewrite Hans, Ha, Hidx in Hc. rewrite Hidx in Hlt.
  case_bool_decide; split_and!; try done; lia.
Qed.

Lemma simulates_continue s a uuid now quiz' :
  simulates s a → appState (app s) = QUIZ →
  QuizScreen.isAnswered (quiz s) = true →
  QuizScreen.handleNext (App.questions (app s)) (quiz s)
    = Some (QuizScreen.Continue quiz') →
  ∃ a', Session.step a (Session.next uuid now) = Some a'
        ∧ simulates (set_quiz quiz' s) a'.
Proof.
  intros (Hst & Hn & Hl & He & Hq & Hquiz & Hres) Hs Ha Hnext.
  destruct (Hquiz Hs) as (Hlen & Hok & Hidx & Hsel & Hans & Hscore & Hc & Hlt).
  apply QuizScreen.handleNext_Continue_iff
    in Hnext as (Hnext & Hidx' & Hscore' & Hsel' & Hans').
  unfold Session.step. rewrite Hst, Hs, Hq, Hidx, Hans, Ha by auto.
  rewrite bool_decide_true by done. eexists. split; [done|].
  split_and!; simpl; try done; [|intros; congruence].
  intros _. unfold simulates_quiz. simpl.
  rewrite Hscore', Hscore, Hidx', Hsel', Hans', Hlen.
  rewrite Hans, Ha, Hidx in Hc. rewrite Hlen in Hnext.
  split_and!; try done; lia.
Qed.

Lemma simulates_finish s a uuid now finalScore (a1 : AppData) st :
  inv s → simulates s a → appState (app s) = QUIZ →
  QuizScreen.isAnswered (quiz s) = true →
  QuizScreen.handleNext (App.questions (app s)) (quiz s)
    = Some (QuizScreen.onFinish finalScore) →
  handleQuizFinish finalScore uuid now (storage s) (app s) = Some (a1, st) →
  ∃ a', Session.step a (Session.next uuid now) = Some a'
        ∧ simulates (render a1 (set_storage st s)) a'.
Proof.
  intros Hi (Hst & Hn & Hl & He & Hq & Hquiz & Hres) Hs Ha Hnext Hfinish.
  destruct (Hquiz Hs) as (Hlen & Hok & Hidx & Hsel & Hans & Hscore & Hc & Hlt).
  apply QuizScreen.handleNext_onFinish in Hnext as [Hlast Hround].
  rewrite Hans, Ha in Hc.
  rewrite Hscore, score_20_exact in Hround by lia. injection Hround as <-.
  apply handleQuizFinish_Some in Hfinish as (l & Hsave & ->).
  rewrite (saveScore_unfold _ _ _ _ _ _ (inv_mirror s Hi)) in Hsave.
  injection Hsave as <- <-.
  rewrite updated_place by (eapply storage_inv_sorted, inv_mirror, Hi; apply Hi).
  unfold Session.step. rewrite Hst, Hs, Hq, Hidx, Hans, Ha by auto.
  rewrite bool_decide_false by lia. eexists. split; [done|].
  unfold Session.finalScore, Session.record. rewrite Hq, Hlen, Hn, Hl by auto.
  split_and!; simpl; try done.
  intros _. unfold Session.finalScore. simpl. by rewrite Hlen.
Qed.

(** An option the machine accepts has a button that is enabled. *)
Lemma progress_selectOption s a index a' :
  simulates s a → appState (app s) = QUIZ →
  Session.step a (Session.selectOption index) = Some a' →
  ∃ s', step s (SelectOption index) s'.
Proof.
  intros (Hst & Hn & Hl & He & Hq & Hquiz & Hres) Hs.
  destruct (Hquiz Hs) as (Hlen & Hok & Hidx & Hsel & Hans & Hscore & Hc & Hlt).
  unfold Session.step. rewrite Hst, Hs, Hq, Hidx, Hans by auto.
  destruct (App.questions (app s) !! _) as [q|] eqn:Hcur; [simpl|done].
  assert (Question_ok q) as [Hfour _].
  { eapply Forall_lookup_1; [exact Hok|exact Hcur]. }
  destruct (QuizScreen.isAnswered (quiz s)) eqn:Ha; [done|simpl].
  case_bool_decide; [intros _|done].
  eapply step_SelectOption_enabled; [done..|lia|done].
Qed.
End simulation_quiz.

Section refinement.
Context `{JsonCodec}.
Implicit Types (s : System) (a : Session.State) (ev : Event).

(** One step of the page from related states is the step of the machine
    on the trigger of the event, or leaves the machine where it is. *)
Lemma step_simulates s a ev s' :
  inv s → simulates s a → contract ev → step s ev s' →
  match trigger s ev with
  | Some t => ∃ a', Session.step a t = Some a' ∧ simulates s' a'
  | None => simulates s' a
  end.
Proof.
  intros Hi Hsim Hev Hstep. destruct Hstep; simpl in *.
  - by apply simulates_set_welcome_name.
  - apply handleSubmit_Some in H1 as [-> Ht%truthy_true_iff].
    rewrite Ht. by apply simulates_start.
  - unfold handleSubmit in H1. by destruct (truthy _).
  - destruct confirmed; simplify_eq/=; [by apply simulates_clear|].
    apply simulates_set_storage; [done|congruence].
  - destruct Hev. by eapply simulates_resolved.
  - by eapply simulates_rejected.
  - by eapply simulates_selectOption.
  - by eapply simulates_continue.
  - by eapply simulates_finish.
  - by apply simulates_restart.
  - by apply simulates_retry.
  - apply simulates_home; [done..|]. unfold Session.step.
    destruct Hsim as (-> & -> & _). by rewrite H0, H1.
  - apply simulates_home; [done..|]. unfold Session.step.
    destruct Hsim as (-> & _). by rewrite H0.
Qed.

Lemma Session_run_app ts1 ts2 a :
  Session.run (ts1 ++ ts2) a = a' ← Session.run ts1 a; Session.run ts2 a'.
Proof.
  revert a. induction ts1 as [|t ts1 IH]; intros a; simpl; [done|].
  destruct (Session.step a t); simpl; [apply IH|done].
Qed.

(** A run of the page from related states is the run of the machine on
    the triggers of the events. *)
Lemma run_simulates evs s a s' :
  inv s → simulates s a → Forall env_ok evs → Forall contract evs →
  run evs s = Some s' →
  ∃ a', Session.run (triggers evs s) a = Some a' ∧ simulates s' a'.
Proof.
  intros Hi Hsim Henv Hevs. revert s a Hi Hsim Henv.
  induction Hevs as [|ev evs Hev _ IH]; intros s a Hi Hsim Henv; simpl.
  { intros [= <-]. by exists a. }
  apply Forall_cons in Henv as [Hev1 Henv].
  destruct (dispatch ev s) as [s1|] eqn:Hd; [simpl|done].
  apply step_dispatch_2 in Hd. intros Hrun.
  pose proof (step_simulates s a ev s1 Hi Hsim Hev Hd) as Hone.
  rewrite Session_run_app.
  destruct (trigger s ev) as [t|]; simpl.
  - destruct Hone as (a1 & -> & Hsim1). simpl.
    eapply IH; eauto using step_inv.
  - eapply IH; eauto using step_inv.
Qed.
End refinement.

(** ** The theorems of the refinement *)

Section main.
Context `{JsonCodec}.
Implicit Types (s : System) (a : Session.State) (ev : Event).

(** C5: the page implements the session state machine.  Start the page
    in a browser whose store holds a leaderboard or nothing, and let the
    provider keep its contract of twenty well-formed questions.  Then
    whatever the user and the provider do, the machine of the
    specification, started with the leaderboard loaded and fed the
    triggers of the events, takes every step, and its state describes the
    page at the end: the same screen, name, leaderboard, questions, index,
    selection and lock, and a score on the page that is the rounding of
    the exact score of the machine. *)
Theorem run_refines_session st s evs s' :
  storage_inv st → (∀ l, getLeaderboard st = Some l → Forall Entry_ok l) →
  boot st = Some s → Forall env_ok evs → Forall contract evs →
  run evs s = Some s' →
  ∃ a', Session.run (triggers evs s)
          (Session.initial (App.leaderboard (app s))) = Some a'
        ∧ simulates s' a'.
Proof.
  intros Hst Hl Hboot Henv Hevs Hrun.
  eapply run_simulates; eauto using inv_boot, simulates_boot.
Qed.

(** C17: the page offers what the machine allows.  Where the machine has
    a row for the trigger of an event, the page in a state the machine
    describes has the control for the event rendered and enabled, and
    takes a step; the one exception is the reset of an empty leaderboard,
    for which the page renders no button. *)
Theorem page_progress s a ev t a' :
  inv s → simulates s a →
  trigger s ev = Some t → Session.step a t = Some a' →
  (ev = ResetLeaderboard true → App.leaderboard (app s) ≠ []) →
  ∃ s', step s ev s'.
Proof.
  intros Hi Hsim Ht Hstep Hreset.
  pose proof (Session_step_state _ _ _ Hstep) as Hs.
  pose proof Hsim as (Hst & _ & _ & _ & _ & Hquiz & _). rewrite Hst in Hs.
  destruct ev; simpl in Ht; repeat case_match; simplify_eq; simpl in Hs.
  - eexists. eapply step_Submit_start; [done|].
    apply handleSubmit_Some. split; [done|by apply truthy_true_iff].
  - eexists. eapply step_ResetLeaderboard; [done| |done].
    apply bool_decide_eq_true. specialize (Hreset eq_refl).
    destruct (App.leaderboard (app s)); [done|simpl; lia].
  - eexists. eapply (step_Resolved _ 0). apply inv_pending in Hi.
    by rewrite Hs in Hi.
  - eexists. eapply (step_Rejected _ 0). apply inv_pending in Hi.
    by rewrite Hs in Hi.
  - by eapply progress_selectOption.
  - destruct (Hquiz Hs) as (Hlen & _ & _ & _ & Hans & _).
    eapply step_NextQuestion_enabled; try done.
    + by intros Hnil; rewrite Hnil in Hlen.
    + rewrite <-Hans. by eapply Session_step_next.
  - eexists. by apply step_Restart.
  - destruct (truthy (App.userName (app s))) eqn:Hname; eexists;
      [by apply step_Retry_start|by apply step_Retry_home].
  - eexists. by apply step_Home.
Qed.
End main.

(** The example: the machine ends on the result screen with seven correct
    answers, a final score of 35, and Amy's entry on the leaderboard. *)
Example example_session :
  Session.run (triggers (H := ref_codec) example_events page_welcome)
    (Session.initial [])
  = Some {| Session.state := RESULT; Session.userName := js "Amy";
            Session.questions := QuizScreen.example_batch;
            Session.currentIndex := 19; Session.correct := 7;
            Session.selectedOption := Some 0%nat; Session.isAnswered := true;
            Session.errorMessage := None;
            Session.leaderboard :=
              [mkEntry example_uuid (js "Amy") 35 example_now] |}.
Proof. vm_compute. reflexivity. Qed.

Lemma run_refines_session_witness :
  ∃ a', Session.run (triggers (H := ref_codec) example_events page_welcome)
          (Session.initial (App.leaderboard (app page_welcome))) = Some a'
        ∧ simulates (page_after example_events) a'.
Proof.
  apply (run_refines_session (H := ref_codec) ∅ page_welcome example_events
           (page_after example_events)).
  - apply storage_inv_empty.
  - intros l. rewrite getLeaderboard_absent by apply lookup_empty.
    intros [= <-]. constructor.
  - reflexivity.
  - compute_done.
  - compute_done.
  - vm_compute. reflexivity.
Defined.

Lemma page_progress_witness :
  ∃ s', step (H := ref_codec) (page_after [TypeName (js "  Amy  ")]) Submit s'.
Proof.
  apply (page_progress (H := ref_codec) (page_after [TypeName (js "  Amy  ")])
           (Session.initial []) Submit (Session.start (js "  Amy  "))
           (Session.set_state LOADING
              (Session.mkSession WELCOME (js "Amy") [] 0 0 None false None [])));
    [apply reachable_inv; page_facts| |vm_compute; reflexivity..|done].
  split_and!; try done; vm_compute; intros; destruct_or?; done.
Defined.
