(* ===== verification/Html.v ===== *)
(** * Element trees: what a React component returns

    A component of [src/App.tsx] returns JSX: a tree of elements with
    properties and children.  [node H] is that tree, for handlers of type
    [H]: an element has a tag (the name of a DOM element or of a component
    that draws an icon), a list of properties and a list of children; a
    text is a child that is a string or a number.  A JSX expression
    [{cond && <x/>}] contributes the child when [cond] holds and nothing
    otherwise, and [{list.map(f)}] contributes the elements of the list:
    both are spliced into the children of the element they stand in.  In
    this program every list made by [map] is all the children of its
    parent.

    The functions below read a tree the way the browser and React use it:
    [handlers] are the handlers a user can fire, [keys_ok] is React's
    requirement that the keys of sibling elements differ, [text_content]
    is the text on display. *)

From stdpp Require Import strings.
From S2P Require Import Prelude JsString JsNumber.

(** ** Trees *)

(** The DOM events the program listens to: [onClick], [onSubmit],
    [onChange]. *)
Inductive event_name : Type := click | submit | change.

#[export] Instance event_name_eq_dec : EqDecision event_name.
Proof. solve_decision. Defined.

(** A property of an element.  [style_width p] is
    [style={{ width: `${p}%` }}]: the number is kept, its decimal text is
    not computed. *)
Inductive prop (H : Type) : Type :=
  | className (c : jsstring)
  | attr (name : string) (value : jsstring)
  | num (name : string) (value : Z)
  | flag (name : string)
  | style_width (percent : number)
  | key (k : jsstring)
  | disabled (b : bool)
  | on (event : event_name) (h : H).
Arguments className {H} c.
Arguments attr {H} name value.
Arguments num {H} name value.
Arguments flag {H} name.
Arguments style_width {H} percent.
Arguments key {H} k.
Arguments disabled {H} b.
Arguments on {H} event h.

Inductive node (H : Type) : Type :=
  | element (tag : string) (props : list (prop H)) (children : list (node H))
  | text (s : jsstring).
Arguments element {H} tag props children.
Arguments text {H} s.

(** ** Reading the properties of an element *)

Definition is_disabled {H} (ps : list (prop H)) : bool :=
  existsb (λ p, match p with disabled b => b | _ => false end) ps.

Definition listeners {H} (ps : list (prop H)) : list (event_name * H) :=
  omap (λ p, match p with on e h => Some (e, h) | _ => None end) ps.

Definition prop_key {H} (ps : list (prop H)) : option jsstring :=
  head (omap (λ p, match p with key k => Some k | _ => None end) ps).

Definition prop_class {H} (ps : list (prop H)) : option jsstring :=
  head (omap (λ p, match p with className c => Some c | _ => None end) ps).

Definition node_key {H} (n : node H) : option jsstring :=
  match n with
  | element _ ps _ => prop_key ps
  | text _ => None
  end.

Definition node_class {H} (n : node H) : option jsstring :=
  match n with
  | element _ ps _ => prop_class ps
  | text _ => None
  end.

Definition node_children {H} (n : node H) : list (node H) :=
  match n with
  | element _ _ cs => cs
  | text _ => []
  end.

(** ** Reading a tree *)

(** The handlers a user can fire, in document order: those of the
    elements that are not disabled and not inside a disabled element. *)
Fixpoint handlers {H} (n : node H) : list (event_name * H) :=
  match n with
  | element _ ps cs =>
      if is_disabled ps then [] else listeners ps ++ flat_map handlers cs
  | text _ => []
  end.

(** The text on display: the texts of the tree in document order. *)
Fixpoint text_content {H} (n : node H) : jsstring :=
  match n with
  | element _ _ cs => flat_map text_content cs
  | text s => s
  end.

(** The elements with a given tag, in document order. *)
Fixpoint elements_by_tag {H} (t : string) (n : node H) : list (node H) :=
  match n with
  | element t' ps cs =>
      (if decide (t' = t) then [n] else [])
      ++ flat_map (elements_by_tag t) cs
  | text _ => []
  end.

(** The number of elements and texts of a tree. *)
Fixpoint node_size {H} (n : node H) : nat :=
  match n with
  | element _ _ cs => S (list_sum (map node_size cs))
  | text _ => 1
  end.

(** React's requirement on keys: the keys of the children of an element
    differ from each other, in every element of the tree. *)
Fixpoint keys_okb {H} (n : node H) : bool :=
  match n with
  | element _ _ cs =>
      bool_decide (NoDup (omap node_key cs)) && forallb keys_okb cs
  | text _ => true
  end.

Definition keys_ok {H} (n : node H) : Prop := keys_okb n = true.

#[export] Instance keys_ok_dec {H} (n : node H) : Decision (keys_ok n).
Proof. unfold keys_ok. apply _. Defined.

(** ** Lemmas *)

Section facts.
Context {H : Type}.
Implicit Types (n : node H) (ps : list (prop H)) (cs : list (node H)).

(** Induction on trees, with the hypothesis for every child. *)
Lemma node_induction (P : node H → Prop) :
  (∀ s, P (text s)) →
  (∀ t ps cs, Forall P cs → P (element t ps cs)) →
  ∀ n, P n.
Proof.
  intros Ht He. fix IH 1. intros [t ps cs|s]; [|apply Ht].
  apply He. induction cs as [|c cs IHcs]; constructor; [apply IH|apply IHcs].
Qed.

Lemma handlers_enabled t ps cs :
  is_disabled ps = false →
  handlers (element t ps cs) = listeners ps ++ flat_map handlers cs.
Proof. simpl. by intros ->. Qed.

Lemma handlers_disabled t ps cs :
  is_disabled ps = true → handlers (element t ps cs) = [].
Proof. simpl. by intros ->. Qed.

Lemma flat_map_elem_of {A B} (f : A → list B) (l : list A) (y : B) :
  y ∈ flat_map f l ↔ ∃ x, x ∈ l ∧ y ∈ f x.
Proof.
  rewrite list_elem_of_In, in_flat_map. setoid_rewrite list_elem_of_In. done.
Qed.

Lemma imap_index {A B} (f : nat → B) (l : list A) :
  imap (λ i _, f i) l = f <$> seq 0 (length l).
Proof.
  revert f. induction l as [|x l IH]; intros f; simpl; [done|]. f_equal.
  rewrite <-fmap_S_seq, <-list_fmap_compose. apply (IH (f ∘ S)).
Qed.

Lemma flat_map_imap_nil {A B C} (f : B → list C) (g : nat → A → B) l :
  (∀ i x, f (g i x) = []) → flat_map f (imap g l) = [].
Proof.
  revert g. induction l as [|x l IH]; intros g Hg; simpl; [done|].
  rewrite Hg. apply IH. intros i y. apply Hg.
Qed.

Lemma flat_map_imap_singleton {A B C} (f : B → list C) (g : nat → A → B)
    (y : nat → A → C) l :
  (∀ i x, f (g i x) = [y i x]) → flat_map f (imap g l) = imap y l.
Proof.
  revert g y. induction l as [|x l IH]; intros g y Hg; simpl; [done|].
  rewrite Hg. simpl. f_equal. apply IH. intros i z. apply Hg.
Qed.

Lemma flat_map_fmap_nil {A B C} (f : B → list C) (g : A → B) (l : list A) :
  (∀ x, f (g x) = []) → flat_map f (g <$> l) = [].
Proof. intros Hg. induction l as [|x l IH]; simpl; [done|by rewrite Hg]. Qed.

(** A handler of a tree is a listener of an element of the tree. *)
Lemma handlers_elem_of n eh :
  eh ∈ handlers n →
  ∃ t ps cs, element t ps cs ∈ elements_by_tag t n
             ∧ is_disabled ps = false ∧ eh ∈ listeners ps.
Proof.
  induction n as [s|t ps cs IH] using node_induction; simpl;
    [by intros ?%elem_of_nil|].
  destruct (is_disabled ps) eqn:Hd; [by intros ?%elem_of_nil|].
  rewrite elem_of_app, flat_map_elem_of. intros [Hown|(c & Hc & Hin)].
  - exists t, ps, cs. rewrite decide_True by done.
    split; [apply elem_of_app; left; apply list_elem_of_here|done].
  - rewrite Forall_forall in IH.
    destruct (IH c Hc Hin) as (t' & ps' & cs' & Hel & Hd' & Hl).
    exists t', ps', cs'. split; [|done]. apply elem_of_app. right.
    apply flat_map_elem_of. by exists c.
Qed.

Lemma keys_ok_text s : keys_ok (text (H := H) s).
Proof. done. Qed.

Lemma keys_ok_element t ps cs :
  keys_ok (element t ps cs) ↔ NoDup (omap node_key cs) ∧ Forall keys_ok cs.
Proof.
  unfold keys_ok. simpl. rewrite andb_true_iff, bool_decide_eq_true.
  rewrite forallb_forall, Forall_forall.
  by setoid_rewrite list_elem_of_In.
Qed.

(** Children without keys need no check. *)
Lemma keys_ok_unkeyed t ps cs :
  Forall (λ c, node_key c = None) cs → Forall keys_ok cs →
  keys_ok (element t ps cs).
Proof.
  intros Hk Hc. apply keys_ok_element. split; [|done].
  replace (omap node_key cs) with (@nil jsstring); [constructor|].
  induction Hk as [|c cs Hn _ IH]; simpl; [done|].
  inv Hc. rewrite Hn. auto.
Qed.

Lemma text_content_element t ps cs :
  text_content (element t ps cs) = flat_map text_content cs.
Proof. done. Qed.

Lemma node_size_pos n : (0 < node_size n)%nat.
Proof. destruct n; simpl; lia. Qed.
End facts.
