(* ===== verification/Layout.v ===== *)
(** * The component [Layout] of [src/components/Layout.tsx]

    [Layout] draws the frame of the page: the title with its icon, the
    box in which the screen of the moment stands, and the footer.  It has
    no state and no handler; [children] is what [App] puts inside. *)

From stdpp Require Import strings.
From S2P Require Import Prelude JsString JsNumber Html.

#[local] Arguments js : simpl never.

(** The title and the footer. *)
Definition TITLE : jsstring := js "AI 知識測驗 ".
Definition SUBTITLE : jsstring := js "管理幹部版".
Definition FOOTER : jsstring := js "技術支援：Google Gemini 3 Flash & React".

Definition Layout {H} (children : list (node H)) : node H :=
  element "div"
    [className (js "min-h-screen bg-gradient-to-br from-slate-900 via-blue-900 to-slate-900 text-white flex flex-col items-center justify-center p-4")]
    [element "div"
       [className (js "w-full max-w-2xl bg-white/10 backdrop-blur-lg border border-white/20 rounded-2xl shadow-2xl overflow-hidden flex flex-col max-h-[90vh]")]
       [element "div"
          [className (js "p-6 border-b border-white/10 flex items-center gap-3 bg-white/5")]
          [element "div" [className (js "p-2 bg-blue-500 rounded-lg")]
             [element "BrainCircuit" [className (js "w-6 h-6 text-white")] []];
           element "h1"
             [className (js "text-xl font-bold tracking-tight text-white")]
             [text TITLE;
              element "span"
                [className (js "text-blue-300 font-normal text-sm ml-2")]
                [text SUBTITLE]]];
        element "div"
          [className (js "flex-1 overflow-y-auto custom-scrollbar relative")]
          children];
     element "footer" [className (js "mt-6 text-slate-400 text-sm text-center")]
       [text FOOTER]].

(** ** Lemmas *)

Section facts.
Context {H : Type}.
Implicit Types (cs : list (node H)).

(** The frame has no control: the handlers of the page are those of the
    screen inside. *)
Lemma handlers_Layout cs : handlers (Layout cs) = flat_map handlers cs.
Proof. unfold Layout. simpl. by rewrite !app_nil_r. Qed.

(** The text of the page is the title, the text of the screen and the
    footer. *)
Lemma text_content_Layout cs :
  text_content (Layout cs)
  = TITLE ++ SUBTITLE ++ flat_map text_content cs ++ FOOTER.
Proof.
  unfold Layout. generalize TITLE, SUBTITLE, FOOTER. intros. simpl.
  by rewrite !app_nil_r, <-!app_assoc.
Qed.

(** The frame has no key of its own: its keys are in order when those of
    the screen inside are. *)
Lemma keys_ok_Layout cs :
  keys_ok (Layout cs) ↔ NoDup (omap node_key cs) ∧ Forall keys_ok cs.
Proof.
  rewrite <-(keys_ok_element "div" [] cs). unfold Layout, keys_ok. simpl.
  by rewrite !andb_true_r.
Qed.
End facts.
