(* ===== verification/Screens.v ===== *)
(** * What the screens of [src/App.tsx] return

    The element trees of [WelcomeScreen] (lines 23-95), [QuizScreen]
    (lines 151-217), [LoadingScreen] (lines 221-229) and [ResultScreen]
    (lines 239-289), as functions of the properties and the state of each
    component.  A handler of the tree is a value of [Handler]: which
    function of the program the element calls.  A text is the string the
    JSX denotes: the lines of a text are trimmed and joined by a space, a
    number is printed in decimal.

    [QuizScreen_view] throws where the component does: reading
    [currentQuestion.text] when the index is outside the questions. *)

From stdpp Require Import strings.
From S2P Require Import Prelude JsString JsArray JsNumber Types JsonRef.
From S2P Require Import Quiz Result App Html.

#[local] Arguments js : simpl never.
#[local] Open Scope Z_scope.

(** ** Handlers *)

(** The functions the elements call. *)
Inductive Handler : Type :=
  | h_submit                (* onSubmit={handleSubmit} *)
  | h_setName               (* onChange={(e) => setName(e.target.value)} *)
  | h_reset                 (* onClick={onResetLeaderboard} *)
  | h_option (idx : nat)    (* onClick={() => handleOptionClick(idx)} *)
  | h_next                  (* onClick={handleNext} *)
  | h_restart               (* onClick={onRestart} *)
  | h_retry                 (* the first button of the error screen *)
  | h_home.                 (* the second button of the error screen *)

#[export] Instance Handler_eq_dec : EqDecision Handler.
Proof. solve_decision. Defined.

(** An icon of [lucide-react]. *)
Definition icon (name : string) (ps : list (prop Handler)) : node Handler :=
  element name ps [].

(** A number as a child: its decimal text. *)
Definition number_text (z : Z) : node Handler := text (print_Z z).

(** ** [WelcomeScreen] *)

Definition WELCOME_TITLE : jsstring := js "歡迎參加 AI 知識測驗".
Definition WELCOME_LEAD : jsstring :=
  js "本測驗將隨機生成 20 道題目，涵蓋 AI 常識、工具應用及最新趨勢。 請輸入您的大名以開始測驗。".

(** The form: the input that holds [name] and the submit button. *)
Definition welcome_form (name : jsstring) : node Handler :=
  element "form"
    [on submit h_submit; className (js "space-y-4 max-w-md mx-auto w-full")]
    [element "div" []
       [element "label"
          [attr "htmlFor" (js "name");
           className (js "block text-sm font-medium text-slate-300 mb-1")]
          [text (js "姓名 / 職稱")];
        element "input"
          [attr "type" (js "text"); attr "id" (js "name"); flag "required";
           className (js "w-full px-4 py-3 rounded-xl bg-slate-800/50 border border-slate-600 text-white placeholder-slate-500 focus:outline-none focus:ring-2 focus:ring-blue-500 transition-all");
           attr "placeholder" (js "Ex: 王經理"); attr "value" name;
           on change h_setName]
          []];
     element "button"
       [attr "type" (js "submit"); disabled (submit_disabled name);
        className (js "w-full py-3 px-4 bg-blue-600 hover:bg-blue-500 disabled:opacity-50 disabled:cursor-not-allowed rounded-xl font-semibold text-white transition-all shadow-lg hover:shadow-blue-500/25 flex items-center justify-center gap-2")]
       [icon "Play" [num "size" 18]; text (js "開始測驗")]].

(** A row of the table: rank, name and score. *)
Definition welcome_row (rank : nat) (entry : LeaderboardEntry) :
    node Handler :=
  element "tr"
    [key (e_id entry);
     className (js "border-b border-slate-700/50 last:border-0 hover:bg-slate-700/30")]
    [element "td" [className (js "px-4 py-3 font-mono text-slate-400")]
       [text (js "#"); number_text (Z.of_nat rank)];
     element "td" [className (js "px-4 py-3 font-medium text-white")]
       [text (name entry)];
     element "td" [className (js "px-4 py-3 text-right text-yellow-400 font-bold")]
       [number_text (score entry)]].

(** The leaderboard with its reset button. *)
Definition welcome_leaderboard (leaderboard : list LeaderboardEntry) :
    node Handler :=
  element "div" [className (js "mt-8")]
    [element "div" [className (js "flex justify-between items-center mb-4")]
       [element "h3"
          [className (js "text-lg font-semibold flex items-center gap-2")]
          [icon "Trophy" [className (js "text-yellow-400"); num "size" 20];
           text (js "榮譽榜 (Top 10)")];
        element "button"
          [on click h_reset;
           className (js "text-xs text-slate-400 hover:text-red-400 flex items-center gap-1 transition-colors")]
          [icon "RefreshCw" [num "size" 12]; text (js " 重置排名")]];
     element "div"
       [className (js "bg-slate-800/50 rounded-xl overflow-hidden border border-slate-700")]
       [element "table" [className (js "w-full text-sm text-left")]
          [element "thead"
             [className (js "text-xs text-slate-400 uppercase bg-slate-800")]
             [element "tr" []
                [element "th" [className (js "px-4 py-3")] [text (js "排名")];
                 element "th" [className (js "px-4 py-3")] [text (js "姓名")];
                 element "th" [className (js "px-4 py-3 text-right")]
                   [text (js "分數")]]];
           element "tbody" []
             ((λ r, welcome_row r.1 r.2) <$> welcome_rows leaderboard)]]].

Definition WelcomeScreen_view (name : jsstring)
    (leaderboard : list LeaderboardEntry) : node Handler :=
  element "div" [className (js "p-8 flex flex-col gap-6")]
    ([element "div" [className (js "text-center space-y-4")]
        [element "h2" [className (js "text-3xl font-bold text-white")]
           [text WELCOME_TITLE];
         element "p" [className (js "text-slate-300")] [text WELCOME_LEAD]];
      welcome_form name]
     ++ if shows_leaderboard leaderboard
        then [welcome_leaderboard leaderboard] else []).

(** ** [QuizScreen] *)

(** The text of [Math.round(score)]: an integer in decimal, or the name
    of the value that is not a number. *)
Definition round_text (x : number) : jsstring :=
  match Math_round x with
  | Some z => print_Z z
  | None =>
      match x with
      | SpecFloat.S754_infinity false => js "Infinity"
      | SpecFloat.S754_infinity true => js "-Infinity"
      | _ => js "NaN"
      end
  end.

(** [selectedOption === currentQuestion.correctAnswerIndex]. *)
Definition selected_correct (st : QuizScreen.State) (q : Question) : bool :=
  match QuizScreen.selectedOption st with
  | Some i => bool_decide (Z.of_nat i = correctAnswerIndex q)
  | None => false
  end.

(** The button of option [idx] with the marks of the feedback; [style]
    is what [getOptionStyle(idx)] returned. *)
Definition option_tree (st : QuizScreen.State) (q : Question) (idx : nat)
    (option : jsstring) (style : jsstring) : node Handler :=
  element "button"
    [key (print_Z (Z.of_nat idx)); on click (h_option idx);
     disabled (QuizScreen.isAnswered st); className style]
    [element "div" [className (js "flex items-center justify-between")]
       ([element "span" [] [text option]]
        ++ (if QuizScreen.isAnswered st
               && bool_decide (Z.of_nat idx = correctAnswerIndex q)
            then [icon "CheckCircle" [className (js "text-green-500 w-5 h-5")]]
            else [])
        ++ (if QuizScreen.isAnswered st
               && bool_decide (Some idx = QuizScreen.selectedOption st)
               && negb (bool_decide (Z.of_nat idx = correctAnswerIndex q))
            then [icon "XCircle" [className (js "text-red-500 w-5 h-5")]]
            else []))].

Definition option_button (questions : list Question) (st : QuizScreen.State)
    (q : Question) (idx : nat) (option : jsstring) :
    result exn (node Handler) :=
  (style ←! QuizScreen.getOptionStyle questions st idx;
   Ok (option_tree st q idx option style))%js.

(** The results of a list of expressions evaluated in order: the first
    that throws ends the evaluation. *)
Fixpoint collect {E A} (l : list (result E A)) : result E (list A) :=
  match l with
  | [] => Ok []
  | r :: rest => (a ←! r; as_ ←! collect rest; Ok (a :: as_))%js
  end.

(** The explanation and the button below it. *)
Definition feedback (questions : list Question) (st : QuizScreen.State)
    (q : Question) : node Handler :=
  element "div"
    [className (js "animate-in fade-in slide-in-from-bottom-4 duration-300")]
    [element "div"
       [className
          (js "p-4 rounded-lg mb-4 text-sm "
           ++ if selected_correct st q
              then js "bg-green-500/20 border border-green-500/30 text-green-200"
              else js "bg-blue-500/20 border border-blue-500/30 text-blue-200")]
       [element "p"
          [className (js "font-semibold mb-1 flex items-center gap-2")]
          [text (if selected_correct st q then js "正確！" else js "解析：")];
        element "p" [] [text (explanation q)]];
     element "button"
       [on click h_next;
        className (js "w-full py-3 bg-white text-slate-900 rounded-xl font-bold hover:bg-slate-100 transition-colors flex items-center justify-center gap-2 shadow-lg shadow-white/10")]
       [text (QuizScreen.next_label questions st); text (js " ");
        icon "ChevronRight" [num "size" 18]]].

(** The screen around the buttons of the options. *)
Definition quiz_tree (questions : list Question) (st : QuizScreen.State)
    (q : Question) (buttons : list (node Handler)) : node Handler :=
  element "div" [className (js "flex flex-col h-full")]
    [element "div" [className (js "w-full bg-slate-800 h-1.5")]
       [element "div"
          [className (js "bg-blue-500 h-1.5 transition-all duration-500 ease-out");
           style_width (QuizScreen.progress questions st)]
          []];
     element "div" [className (js "p-6 md:p-8 flex-1 flex flex-col")]
       [element "div"
          [className (js "flex justify-between items-center mb-6 text-slate-400 text-sm")]
          [element "span" []
             [text (js "題目 ");
              number_text (Z.of_nat (QuizScreen.currentIndex st) + 1);
              text (js " / ");
              number_text (Z.of_nat (length questions))];
           element "span" []
             [text (js "目前得分: ");
              text (round_text (QuizScreen.score st))]];
        element "h3"
          [className (js "text-xl md:text-2xl font-semibold text-white mb-8 leading-relaxed")]
          [text (Types.text q)];
        element "div" [className (js "space-y-3 flex-1")] buttons;
        element "div" [className (js "mt-8 min-h-[100px]")]
          (if QuizScreen.isAnswered st
           then [feedback questions st q] else [])]].

Definition QuizScreen_view (questions : list Question)
    (st : QuizScreen.State) : result exn (node Handler) :=
  match QuizScreen.currentQuestion questions st with
  | None => Throw TypeError
  | Some q =>
      (buttons ←! collect (imap (option_button questions st q) (options q));
       Ok (quiz_tree questions st q buttons))%js
  end.

(** ** [LoadingScreen] *)

Definition LOADING_TITLE : jsstring := js "正在生成題目...".
Definition LOADING_LEAD : jsstring :=
  js "AI 正在為您準備 20 道專屬測驗題，內容涵蓋常識、工具與最新趨勢。".

Definition LoadingScreen_view : node Handler :=
  element "div"
    [className (js "flex flex-col items-center justify-center h-[400px] text-center p-8")]
    [icon "Loader2" [className (js "w-12 h-12 text-blue-400 animate-spin mb-6")];
     element "h3" [className (js "text-xl font-semibold text-white mb-2")]
       [text LOADING_TITLE];
     element "p" [className (js "text-slate-400 max-w-sm")]
       [text LOADING_LEAD]].

(** ** [ResultScreen] *)

Definition RESULT_TITLE : jsstring := js "測驗完成！".

(** The class of a row of the ranking before the part that depends on
    the row. *)
Definition ROW_CLASS : jsstring :=
  js "flex items-center justify-between p-3 rounded-lg ".

(** A row of the ranking: the badge with the rank, the name, the score. *)
Definition result_row (score : Z) (leaderboard : list LeaderboardEntry)
    (now : Z) (idx : nat) (entry : LeaderboardEntry) : node Handler :=
  element "div"
    [key (e_id entry);
     className (ROW_CLASS
                ++ ResultScreen.row_style score leaderboard now entry)]
    [element "div" [className (js "flex items-center gap-3")]
       [element "span"
          [className (js "w-6 h-6 rounded-full flex items-center justify-center text-xs font-bold "
                      ++ ResultScreen.badge_style idx)]
          [number_text (Z.of_nat idx + 1)];
        element "span" [className (js "text-sm font-medium text-slate-200")]
          [text (name entry)]];
     element "span" [className (js "font-mono text-blue-300 font-bold")]
       [number_text (Types.score entry)]].

Definition ResultScreen_view (score : Z) (leaderboard : list LeaderboardEntry)
    (now : Z) : node Handler :=
  element "div" [className (js "p-8 text-center flex flex-col items-center")]
    [element "div"
       [className (js "w-24 h-24 rounded-full bg-gradient-to-tr from-blue-500 to-indigo-600 flex items-center justify-center mb-6 shadow-xl shadow-blue-500/20")]
       [element "span" [className (js "text-4xl font-bold text-white")]
          [number_text score]];
     element "h2" [className (js "text-2xl font-bold text-white mb-2")]
       [text RESULT_TITLE];
     element "p" [className (js "text-slate-300 mb-8")]
       [text (ResultScreen.message score)];
     element "div"
       [className (js "w-full bg-slate-800/50 rounded-xl p-6 border border-slate-700 mb-8")]
       [element "h3"
          [className (js "text-left font-semibold text-white mb-4 flex items-center gap-2")]
          [icon "BarChart3" [className (js "text-blue-400")];
           text (js " 最新排名")];
        element "div" [className (js "space-y-3")]
          (imap (result_row score leaderboard now) (slice0 5 leaderboard))];
     element "button"
       [on click h_restart;
        className (js "px-8 py-3 bg-white text-slate-900 rounded-xl font-bold hover:bg-slate-100 transition-all flex items-center gap-2")]
       [icon "RefreshCw" [num "size" 18]; text (js "返回首頁")]].

(** ** Lemmas *)

Section collect.
Context {E A B : Type}.

(** Expressions that all return a value are collected in order. *)
Lemma collect_imap (f : nat → A → result E B) (g : nat → A → B) (l : list A) :
  (∀ i x, l !! i = Some x → f i x = Ok (g i x)) →
  collect (imap f l) = Ok (imap g l).
Proof.
  revert f g. induction l as [|x l IH]; intros f g Hf; simpl; [done|].
  rewrite (Hf 0%nat x eq_refl). simpl.
  rewrite (IH (f ∘ S) (g ∘ S)); [done|]. intros i y Hy. by apply Hf.
Qed.

(** The first expression that throws ends the evaluation. *)
Lemma collect_Throw (l : list (result E A)) e :
  collect l = Throw e → Throw e ∈ l.
Proof.
  induction l as [|[a|e'] l IH]; simpl; [done| |].
  - destruct (collect l); [done|]. intros [= ->]. right. by apply IH.
  - intros [= ->]. left.
Qed.
End collect.

Section handlers.
Implicit Types (st : QuizScreen.State) (q : Question)
  (l : list LeaderboardEntry).

(** *** [WelcomeScreen] *)

Lemma handlers_welcome_rows (rs : list (nat * LeaderboardEntry)) :
  flat_map handlers ((λ r, welcome_row r.1 r.2) <$> rs) = [].
Proof. by apply flat_map_fmap_nil. Qed.

(** The controls of the welcome screen: the form, the input, and the reset
    button when the leaderboard has an entry.  The submit button has no
    handler of its own: it submits the form. *)
Lemma handlers_WelcomeScreen name l :
  handlers (WelcomeScreen_view name l)
  = [(submit, h_submit); (change, h_setName)]
    ++ if shows_leaderboard l then [(click, h_reset)] else [].
Proof.
  unfold WelcomeScreen_view, welcome_form.
  destruct (shows_leaderboard l), (submit_disabled name); simpl;
    by rewrite ?handlers_welcome_rows.
Qed.

(** *** [QuizScreen] *)

Lemma handlers_option_tree st q idx option style :
  handlers (option_tree st q idx option style)
  = if QuizScreen.isAnswered st then [] else [(click, h_option idx)].
Proof.
  unfold option_tree. simpl. destruct (QuizScreen.isAnswered st); [done|].
  simpl. by repeat case_bool_decide.
Qed.

Lemma handlers_option_trees st q (style : nat → jsstring) (os : list jsstring) :
  flat_map handlers (imap (λ idx o, option_tree st q idx o (style idx)) os)
  = if QuizScreen.isAnswered st then []
    else imap (λ idx _, (click, h_option idx)) os.
Proof.
  destruct (QuizScreen.isAnswered st) eqn:Ha;
    [apply flat_map_imap_nil|apply flat_map_imap_singleton];
    intros i o; by rewrite handlers_option_tree, Ha.
Qed.

Lemma handlers_quiz_tree questions st q buttons :
  handlers (quiz_tree questions st q buttons)
  = flat_map handlers buttons
    ++ if QuizScreen.isAnswered st then [(click, h_next)] else [].
Proof.
  unfold quiz_tree. simpl. destruct (QuizScreen.isAnswered st); simpl;
    by rewrite !app_nil_r.
Qed.

Lemma getOptionStyle_Ok questions st q idx :
  QuizScreen.currentQuestion questions st = Some q →
  is_Ok (QuizScreen.getOptionStyle questions st idx).
Proof.
  intros Hq. unfold QuizScreen.getOptionStyle. rewrite Hq.
  generalize QuizScreen.style_open, QuizScreen.style_correct,
    QuizScreen.style_wrong, QuizScreen.style_other. intros.
  destruct (negb _); [by eexists|]. repeat case_match; by eexists.
Qed.

(** With a current question every style is computed, and the screen is
    the tree around the buttons of the options. *)
Lemma QuizScreen_view_Some questions st q :
  QuizScreen.currentQuestion questions st = Some q →
  ∃ style : nat → jsstring,
    QuizScreen_view questions st
    = Ok (quiz_tree questions st q
            (imap (λ idx o, option_tree st q idx o (style idx)) (options q))).
Proof.
  intros Hq. unfold QuizScreen_view. rewrite Hq.
  exists (λ idx, try_catch (QuizScreen.getOptionStyle questions st idx)
                   (λ _, [])).
  erewrite collect_imap; [reflexivity|]. intros i o _. unfold option_button.
  by destruct (getOptionStyle_Ok questions st q i Hq) as [s ->].
Qed.

Lemma QuizScreen_view_None questions st :
  QuizScreen.currentQuestion questions st = None →
  QuizScreen_view questions st = Throw TypeError.
Proof. unfold QuizScreen_view. by intros ->. Qed.

(** The controls of the quiz screen: the buttons of the options while the
    question is open, the button below the feedback once it is answered. *)
Lemma handlers_QuizScreen questions st q v :
  QuizScreen.currentQuestion questions st = Some q →
  QuizScreen_view questions st = Ok v →
  handlers v
  = if QuizScreen.isAnswered st then [(click, h_next)]
    else imap (λ idx _, (click, h_option idx)) (options q).
Proof.
  intros Hq Hv. destruct (QuizScreen_view_Some _ _ _ Hq) as [style Hs].
  rewrite Hs in Hv. injection Hv as <-.
  rewrite handlers_quiz_tree, handlers_option_trees.
  destruct (QuizScreen.isAnswered st); [done|by rewrite app_nil_r].
Qed.

(** *** [LoadingScreen] and [ResultScreen] *)

Lemma handlers_LoadingScreen : handlers LoadingScreen_view = [].
Proof. done. Qed.

Lemma handlers_result_rows score l now (es : list LeaderboardEntry) :
  flat_map handlers (imap (result_row score l now) es) = [].
Proof. by apply flat_map_imap_nil. Qed.

Lemma node_class_result_row score l now idx e :
  node_class (result_row score l now idx e)
  = Some (ROW_CLASS ++ ResultScreen.row_style score l now e).
Proof. done. Qed.

Lemma handlers_ResultScreen score l now :
  handlers (ResultScreen_view score l now) = [(click, h_restart)].
Proof.
  unfold ResultScreen_view. simpl.
  by rewrite handlers_result_rows.
Qed.
End handlers.

(** Split the requirement on keys along the elements of a tree. *)
Ltac keys_split :=
  repeat first [rewrite keys_ok_element | rewrite Forall_cons
               | rewrite Forall_nil];
  cbn [omap list_omap node_key prop_key head mapM option_bind];
  unfold icon, number_text.

Section keys.
Implicit Types (st : QuizScreen.State) (q : Question)
  (l : list LeaderboardEntry).

(** The keys of a list of elements made by [map]. *)
Lemma node_key_imap {A} (f : nat → A → node Handler) (k : nat → A → jsstring)
    (xs : list A) :
  (∀ i x, node_key (f i x) = Some (k i x)) →
  omap node_key (imap f xs) = imap k xs.
Proof.
  revert f k. induction xs as [|x xs IH]; intros f k Hk; simpl; [done|].
  rewrite Hk. f_equal. apply IH. intros i y. apply Hk.
Qed.

Lemma keys_ok_imap {A} (f : nat → A → node Handler) (xs : list A) :
  (∀ i x, keys_ok (f i x)) → Forall keys_ok (imap f xs).
Proof.
  intros Hf. apply Forall_forall. intros n (i & x & -> & _)%elem_of_lookup_imap.
  apply Hf.
Qed.

(** *** [WelcomeScreen] *)

Lemma keys_welcome_rows l :
  omap node_key ((λ r, welcome_row r.1 r.2) <$> welcome_rows l)
  = e_id <$> slice0 10 l.
Proof.
  unfold welcome_rows. generalize (slice0 10 l). intros es.
  rewrite fmap_imap. rewrite (node_key_imap _ (λ _, e_id)) by done.
  apply (imap_const e_id).
Qed.

Lemma keys_ok_welcome_rows l :
  Forall keys_ok ((λ r, welcome_row r.1 r.2) <$> welcome_rows l).
Proof. apply Forall_fmap, Forall_forall. by intros [r e] _. Qed.

Lemma keys_ok_welcome_leaderboard l :
  keys_ok (welcome_leaderboard l) ↔ NoDup (e_id <$> slice0 10 l).
Proof.
  unfold welcome_leaderboard. keys_split. rewrite keys_welcome_rows.
  pose proof (keys_ok_welcome_rows l). pose proof (NoDup_nil_2 (A := jsstring)).
  naive_solver.
Qed.

(** The keys of the welcome screen are in order exactly when the first ten
    entries of the leaderboard have different identifiers. *)
Lemma keys_ok_WelcomeScreen name l :
  keys_ok (WelcomeScreen_view name l) ↔ NoDup (e_id <$> slice0 10 l).
Proof.
  unfold WelcomeScreen_view, shows_leaderboard. case_bool_decide as Hl.
  - rewrite keys_ok_element, Forall_app, !Forall_cons, !Forall_nil,
      keys_ok_welcome_leaderboard.
    split; [tauto|]. intros Hn. split_and!; try done. constructor.
  - destruct l; [|simpl in Hl; lia]. split; [constructor|done].
Qed.

(** *** [QuizScreen] *)

Lemma keys_ok_option_trees st q (style : nat → jsstring) (os : list jsstring) :
  NoDup (omap node_key
           (imap (λ idx o, option_tree st q idx o (style idx)) os))
  ∧ Forall keys_ok (imap (λ idx o, option_tree st q idx o (style idx)) os).
Proof.
  split.
  - rewrite (node_key_imap _ (λ i _, print_Z (Z.of_nat i))) by done.
    rewrite (imap_index (λ i, print_Z (Z.of_nat i))).
    apply (NoDup_fmap_2 _), NoDup_seq.
  - apply keys_ok_imap. intros i o. unfold option_tree.
    apply keys_ok_unkeyed; [by repeat constructor|]. repeat constructor.
    repeat case_match; by apply keys_ok_unkeyed; repeat constructor.
Qed.

(** The keys of the quiz screen are always in order: they are the indices
    of the options. *)
Lemma keys_ok_QuizScreen questions st v :
  QuizScreen_view questions st = Ok v → keys_ok v.
Proof.
  destruct (QuizScreen.currentQuestion questions st) as [q|] eqn:Hq;
    [|by rewrite QuizScreen_view_None].
  destruct (QuizScreen_view_Some _ _ _ Hq) as [style ->]. intros [= <-].
  destruct (keys_ok_option_trees st q style (options q)) as [Hn Hk].
  apply keys_ok_unkeyed; [by repeat constructor|]. repeat constructor.
  apply keys_ok_unkeyed; [by repeat constructor|]. repeat constructor.
  - by apply keys_ok_element.
  - destruct (QuizScreen.isAnswered st); by repeat constructor.
Qed.

Lemma node_key_QuizScreen questions st v :
  QuizScreen_view questions st = Ok v → node_key v = None.
Proof.
  destruct (QuizScreen.currentQuestion questions st) as [q|] eqn:Hq;
    [|by rewrite QuizScreen_view_None].
  destruct (QuizScreen_view_Some _ _ _ Hq) as [style ->]. by intros [= <-].
Qed.

(** *** [LoadingScreen] and [ResultScreen] *)

Lemma keys_ok_LoadingScreen : keys_ok LoadingScreen_view.
Proof. done. Qed.

(** The keys of the result screen are in order exactly when the first five
    entries of the leaderboard have different identifiers. *)
Lemma keys_ok_ResultScreen score l now :
  keys_ok (ResultScreen_view score l now) ↔ NoDup (e_id <$> slice0 5 l).
Proof.
  unfold ResultScreen_view. generalize (slice0 5 l). intros es. keys_split.
  rewrite (node_key_imap _ (λ _, e_id)) by done. rewrite (imap_const e_id).
  pose proof (keys_ok_imap (result_row score l now) es).
  pose proof (NoDup_nil_2 (A := jsstring)). naive_solver.
Qed.
End keys.
