(* ===== verification/View.v ===== *)
(** * What [App] returns, and the page as the user meets it

    [App_view] is the element tree [App] returns (lines 343-392 of
    [src/App.tsx]): [Layout] around the screen of the moment, one of
    [WelcomeScreen], [LoadingScreen], [QuizScreen], [ResultScreen] and the
    error screen, which [App] writes in place.  [now] is the value of
    [Date.now()] while [ResultScreen] renders.

    The transition relation [step] of [App] has, as the premises of its
    rules, the conditions under which a control is on the page and
    enabled.  Here those conditions are derived from the tree: an event of
    the user is the firing of a handler ([emits]), and the theorems show
    that the events [step] accepts are the ones whose handler an enabled
    element of the tree carries. *)

From stdpp Require Import strings gmap.
From S2P Require Import Prelude JsString JsArray JsNumber Types Json JsonRef.
From S2P Require Import Storage Quiz Result Gemini App Html Layout Screens.

#[local] Arguments js : simpl never.
#[local] Arguments WelcomeScreen_view : simpl never.
#[local] Arguments ResultScreen_view : simpl never.
#[local] Arguments LoadingScreen_view : simpl never.
#[local] Open Scope Z_scope.

(** ** The error screen *)

Definition ERROR_TITLE : jsstring := js "發生錯誤".

Definition ErrorScreen_view (errorMsg : jsstring) : node Handler :=
  element "div" [className (js "p-8 text-center flex flex-col items-center")]
    [icon "AlertCircle" [className (js "w-16 h-16 text-red-500 mb-4")];
     element "h2" [className (js "text-xl font-bold text-white mb-2")]
       [text ERROR_TITLE];
     element "p" [className (js "text-slate-300 mb-6 max-w-xs mx-auto")]
       [text errorMsg];
     element "div" [className (js "flex gap-3")]
       [element "button"
          [on click h_retry;
           className (js "px-6 py-2 bg-blue-600 hover:bg-blue-500 rounded-lg text-white font-semibold flex items-center gap-2")]
          [icon "RefreshCw" [num "size" 16]; text (js " 重試")];
        element "button"
          [on click h_home;
           className (js "px-6 py-2 bg-slate-700 hover:bg-slate-600 rounded-lg text-white")]
          [text (js "返回首頁")]]].

(** ** [App] *)

(** [{appState === state && screen}]. *)
Definition when_state (a : AppData) (state : AppState)
    (screen : list (node Handler)) : list (node Handler) :=
  if decide (appState a = state) then screen else [].

(** The tree [App] returns.  Only [QuizScreen] can throw while it
    renders. *)
Definition App_view (s : System) (now : Z) : result exn (node Handler) :=
  let a := app s in
  (quiz ←! (if decide (appState a = QUIZ)
            then v ←! QuizScreen_view (questions a) (quiz s); Ok [v]
            else Ok []);
   Ok (Layout
         (when_state a WELCOME
            [WelcomeScreen_view (welcome_name s) (leaderboard a)]
          ++ when_state a LOADING [LoadingScreen_view]
          ++ quiz
          ++ when_state a RESULT
               [ResultScreen_view (currentScore a) (leaderboard a) now]
          ++ when_state a ERROR [ErrorScreen_view (errorMsg a)])))%js.

(** ** Events and handlers *)

(** The handler an event of the user fires, and the DOM event that fires
    it.  The completion of a provider call fires no handler of the
    tree. *)
Definition emits (ev : Event) : option (event_name * Handler) :=
  match ev with
  | TypeName _ => Some (change, h_setName)
  | Submit => Some (submit, h_submit)
  | ResetLeaderboard _ => Some (click, h_reset)
  | SelectOption index => Some (click, h_option index)
  | NextQuestion _ _ => Some (click, h_next)
  | Restart => Some (click, h_restart)
  | Retry => Some (click, h_retry)
  | Home => Some (click, h_home)
  | Resolved _ | Rejected => None
  end.

(** The controls of the page in each state: the handlers an enabled
    element carries. *)
Definition controls (s : System) : list (event_name * Handler) :=
  match appState (app s) with
  | WELCOME =>
      [(submit, h_submit); (change, h_setName)]
      ++ if shows_leaderboard (leaderboard (app s)) then [(click, h_reset)]
         else []
  | LOADING => []
  | QUIZ =>
      match QuizScreen.currentQuestion (questions (app s)) (quiz s) with
      | Some q =>
          if QuizScreen.isAnswered (quiz s) then [(click, h_next)]
          else imap (λ idx _, (click, h_option idx)) (options q)
      | None => []
      end
  | RESULT => [(click, h_restart)]
  | ERROR => [(click, h_retry); (click, h_home)]
  end.

(** ** Identifiers *)

(** The entries have different identifiers: what [crypto.randomUUID()]
    is relied on for. *)
Definition ids_distinct (l : list LeaderboardEntry) : Prop :=
  NoDup (e_id <$> l).

#[export] Instance ids_distinct_dec l : Decision (ids_distinct l).
Proof. unfold ids_distinct. apply _. Defined.

(** The identifier an event brings is not the identifier of an entry on
    the leaderboard. *)
Definition fresh (s : System) (ev : Event) : Prop :=
  match ev with
  | NextQuestion uuid _ => uuid ∉ e_id <$> leaderboard (app s)
  | _ => True
  end.

#[export] Instance fresh_dec s ev : Decision (fresh s ev).
Proof. destruct ev; simpl; apply _. Defined.

(** ** Example data *)

(** Amy has answered the last of the three example questions; the next
    click finishes the quiz. *)
Definition before_finish : list Event :=
  loaded
  ++ [SelectOption 0; NextQuestion example_uuid example_now;
      SelectOption 1; NextQuestion example_uuid example_now;
      SelectOption 2].

Definition finish : Event := NextQuestion example_uuid example_now.

(** A leaderboard in which two entries have the same identifier. *)
Definition duplicate_board : list LeaderboardEntry :=
  [mkEntry (js "a") (js "Amy") 80 example_now;
   mkEntry (js "a") (js "Bob") 60 example_now].

(** ** Lemmas *)

Section facts.
Context `{JsonCodec}.
Implicit Types (s : System) (ev : Event) (v : node Handler).

Lemma handlers_ErrorScreen msg :
  handlers (ErrorScreen_view msg) = [(click, h_retry); (click, h_home)].
Proof. done. Qed.

(** The page renders unless the quiz screen has no current question. *)
Lemma App_view_Ok s now :
  is_Ok (App_view s now) ↔ (appState (app s) = QUIZ → quiz_renders s).
Proof.
  unfold App_view, quiz_renders. case_decide as Hs; [|split; [done|by eexists]].
  destruct (QuizScreen.currentQuestion _ _) as [q|] eqn:Hq.
  - destruct (QuizScreen_view_Some _ _ _ Hq) as [style ->].
    split; [by eexists|by eexists].
  - rewrite QuizScreen_view_None by done.
    split; [by intros [? ?]|]. intros Hr. by destruct (Hr Hs).
Qed.

(** The handlers of the page are the controls of its state. *)
Lemma handlers_App s now v :
  App_view s now = Ok v → handlers v = controls s.
Proof.
  unfold App_view, controls, when_state.
  destruct (appState (app s)) eqn:Hs; repeat case_decide; try done;
    cbn [result_bind app];
    try (intros [= <-]; rewrite handlers_Layout; cbn [flat_map app];
         by rewrite ?handlers_WelcomeScreen, ?handlers_ResultScreen,
              ?handlers_LoadingScreen, ?handlers_ErrorScreen, ?app_nil_r).
  destruct (QuizScreen_view _ _) as [vq|] eqn:Hv; [|done].
  intros [= <-]. rewrite handlers_Layout. cbn [flat_map app].
  rewrite app_nil_r.
  destruct (QuizScreen.currentQuestion _ _) as [q|] eqn:Hq;
    [by eapply handlers_QuizScreen|by rewrite QuizScreen_view_None in Hv].
Qed.

Lemma elem_of_option_controls (os : list jsstring) eh :
  eh ∈ imap (λ idx _, (click, h_option idx)) os ↔
  ∃ idx, eh = (click, h_option idx) ∧ (idx < length os)%nat.
Proof.
  rewrite elem_of_lookup_imap. split.
  - intros (i & o & -> & Ho). exists i. split; [done|].
    by eapply lookup_lt_Some.
  - intros (i & -> & Hi). destruct (lookup_lt_is_Some_2 os i Hi) as [o Ho].
    by exists i, o.
Qed.

(** The handler of an event the page accepts is among its controls, and
    the page renders. *)
Lemma step_controls s ev s' eh :
  step s ev s' → emits ev = Some eh →
  eh ∈ controls s ∧ (appState (app s) = QUIZ → quiz_renders s).
Proof.
  intros Hstep Hev. split.
  - unfold controls.
    destruct Hstep; simplify_eq/=;
      repeat match goal with
             | Hs : appState _ = _ |- _ => rewrite Hs
             | Hs : shows_leaderboard _ = _ |- _ => rewrite Hs
             | Hs : QuizScreen.isAnswered _ = _ |- _ => rewrite Hs
             | Hs : QuizScreen.currentQuestion _ _ = _ |- _ => rewrite Hs
             | Hs : quiz_renders _ |- _ => destruct Hs as [? ?]
             end; try set_solver.
    apply elem_of_option_controls. eauto.
  - intros Hs. destruct Hstep; simplify_eq/=; try done; try congruence.
    by eexists.
Qed.

(** In a state of the invariant the page accepts the event of each of
    its controls. *)
Lemma controls_step s ev eh :
  inv s → emits ev = Some eh → eh ∈ controls s → ∃ s', step s ev s'.
Proof.
  intros Hi Hev. unfold controls.
  destruct (appState (app s)) eqn:Hs;
    repeat case_match;
    rewrite ?elem_of_option_controls, ?elem_of_app, ?elem_of_cons,
      ?elem_of_nil;
    intros Hin; destruct_or?; destruct_and?; try done;
    try (destruct Hin as (idx & -> & Hidx));
    destruct ev; simplify_eq/=;
    eauto using step, step_Submit_enabled, step_ResetLeaderboard_enabled,
      step_Retry_enabled, step_SelectOption_enabled.
  apply step_NextQuestion_enabled; [done..| |done].
  intros Hnil. unfold QuizScreen.currentQuestion in *.
  by rewrite Hnil in *.
Qed.

(** *** Keys *)

Lemma ids_distinct_take n l : ids_distinct l → ids_distinct (take n l).
Proof.
  unfold ids_distinct. rewrite fmap_take. intros Hl.
  eapply sublist_NoDup; [done|apply sublist_take].
Qed.

(** The keys of the page are in order when the entries of the
    leaderboard have different identifiers. *)
Lemma keys_ok_App s now v :
  App_view s now = Ok v → ids_distinct (leaderboard (app s)) → keys_ok v.
Proof.
  unfold App_view, when_state. intros Hv Hl.
  apply (ids_distinct_take 10) in Hl as H10.
  apply (ids_distinct_take 5) in Hl as H5.
  apply (keys_ok_WelcomeScreen (welcome_name s)) in H10.
  apply (keys_ok_ResultScreen (currentScore (app s)) _ now) in H5.
  destruct (appState (app s)) eqn:Hs; repeat case_decide; try done;
    [| |destruct (QuizScreen_view _ _) as [vq|] eqn:Hq; [|done]|..];
    cbn [result_bind app] in Hv; injection Hv as <-;
    apply keys_ok_Layout;
    (split; [|repeat constructor;
              by eauto using keys_ok_QuizScreen, keys_ok_LoadingScreen]).
  3: { cbn [omap list_omap]. rewrite (node_key_QuizScreen _ _ _ Hq).
       constructor. }
  all: replace (omap node_key _) with (@nil jsstring) by reflexivity;
    constructor.
Qed.

(** A step keeps the identifiers different when the new one is fresh. *)
Lemma ids_distinct_step s ev s' :
  inv s → ids_distinct (leaderboard (app s)) → fresh s ev → step s ev s' →
  ids_distinct (leaderboard (app s')).
Proof.
  intros Hi Hl Hf Hstep. destruct Hstep; simpl in *; try done.
  - destruct confirmed; simplify_eq/=; [constructor|done].
  - match goal with
    | Hq : handleQuizFinish _ _ _ _ _ = Some _ |- _ =>
        apply handleQuizFinish_Some in Hq as (l & Hsave & ->)
    end.
    rewrite (saveScore_unfold _ _ _ _ _ _ (inv_mirror s Hi)) in Hsave.
    injection Hsave as <- _. simpl. by apply updated_ids.
Qed.

(** *** The row of the new entry *)

Lemma row_style_new score l now e :
  e ∈ l → Types.score e = score → now - timestamp e < 1000 →
  ResultScreen.row_style score l now e = ResultScreen.row_highlight.
Proof.
  intros He Hs Ht. unfold ResultScreen.row_style.
  rewrite (proj2 (ResultScreen.isHighScore_true score l now)) by eauto.
  by rewrite bool_decide_true.
Qed.
End facts.

(** ** The theorems of the view *)

Section main.
Context `{JsonCodec}.
Implicit Types (s : System) (ev : Event) (v : node Handler).

(** C6: the controls on the page are the events the page accepts.  In a
    state of the invariant, an event of the user is accepted by the
    transition relation exactly when the page renders and the handler the
    event fires is carried by an element of the tree that is not disabled:
    the premises of the rules of [step] are the conditions the markup
    puts on its controls. *)
Theorem view_enables s ev eh now :
  inv s → emits ev = Some eh →
  (∃ s', step s ev s') ↔ ∃ v, App_view s now = Ok v ∧ eh ∈ handlers v.
Proof.
  intros Hi Hev. split.
  - intros [s' Hstep]. destruct (step_controls _ _ _ _ Hstep Hev) as [Hc Hr].
    destruct (proj2 (App_view_Ok s now) Hr) as [v Hv]. exists v.
    by rewrite (handlers_App _ _ _ Hv).
  - intros (v & Hv & Hin). rewrite (handlers_App _ _ _ Hv) in Hin.
    by eapply controls_step.
Qed.

(** C19: the tree of the page is well formed.  When the entries of the
    leaderboard have different identifiers and the identifier of a new
    entry is fresh, a step of the page leaves the identifiers different,
    and in the tree the page then renders the keys of sibling elements
    differ, as React requires: the rows of the two rankings are keyed by
    the identifiers of their entries, the buttons of the options by their
    indices. *)
Theorem view_keys s ev s' now v :
  inv s → ids_distinct (leaderboard (app s)) → fresh s ev → step s ev s' →
  App_view s' now = Ok v →
  ids_distinct (leaderboard (app s')) ∧ keys_ok v.
Proof.
  intros Hi Hl Hf Hstep Hv.
  pose proof (ids_distinct_step _ _ _ Hi Hl Hf Hstep). eauto using keys_ok_App.
Qed.

(** C20: the result screen highlights the new entry.  When the quiz
    finishes, the new entry stands on the leaderboard behind the [k]
    entries that score at least as much; when [k] is below five and the
    screen renders less than a second after the entry was made, row [k]
    of the ranking is the row of the new entry and has the class of a
    highlighted row. *)
Theorem new_entry_highlighted s uuid now s' now' :
  inv s → step s (NextQuestion uuid now) s' → appState (app s') = RESULT →
  now' - now < 1000 →
  let score := currentScore (app s') in
  let l := leaderboard (app s') in
  let e := newEntry (userName (app s)) score uuid now in
  let k := ahead score (leaderboard (app s)) in
  (k < 5)%nat →
  imap (result_row score l now') (slice0 5 l) !! k
    = Some (result_row score l now' k e)
  ∧ node_class (result_row score l now' k e)
    = Some (ROW_CLASS ++ ResultScreen.row_highlight).
Proof.
  intros Hi Hstep Hs' Hnow score l e k Hk. subst score l e k.
  inversion Hstep; subst; [simpl in Hs'; congruence|].
  match goal with
  | Hq : handleQuizFinish _ _ _ _ _ = Some _ |- _ =>
      apply handleQuizFinish_Some in Hq as (l & Hsave & ->)
  end.
  rewrite (saveScore_unfold _ _ _ _ _ _ (inv_mirror s Hi)) in Hsave.
  destruct (storage_inv_sorted _ _ (inv_storage s Hi) (inv_mirror s Hi))
    as [Hsorted _].
  injection Hsave as <- _. cbn [render app leaderboard currentScore
    setAppState setLeaderboard setCurrentScore] in *.
  rewrite <-(rank_ahead (userName (app s)) _ uuid now) in *.
  match goal with
  | Hr : (rank _ ?e ?c < 5)%nat |- _ =>
      pose proof (new_entry_position c e Hsorted ltac:(lia)) as Hpos
  end.
  rewrite list_lookup_imap. unfold slice0.
  rewrite lookup_take_lt, Hpos by done. split; [done|].
  rewrite node_class_result_row. do 2 f_equal.
  apply row_style_new; [by eapply list_elem_of_lookup_2|done|done].
Qed.
End main.

(** ** Examples *)

(** With two entries of the same identifier on the leaderboard the rows
    of the welcome screen have the same key. *)
Example duplicate_keys :
  ¬ keys_ok (WelcomeScreen_view [] duplicate_board).
Proof. by vm_compute. Qed.

(** The controls of the welcome screen with entries on the
    leaderboard. *)
Example welcome_controls :
  handlers (WelcomeScreen_view (js "Amy") duplicate_board)
  = [(submit, h_submit); (change, h_setName); (click, h_reset)].
Proof. vm_compute. reflexivity. Qed.

Lemma view_enables_witness :
  (∃ s', step (H := ref_codec) (page_after [TypeName (js "  Amy  ")]) Submit s')
  ↔ ∃ v, App_view (page_after [TypeName (js "  Amy  ")]) example_now = Ok v
         ∧ (submit, h_submit) ∈ handlers v.
Proof.
  apply (view_enables (H := ref_codec) (page_after [TypeName (js "  Amy  ")])
           Submit (submit, h_submit) example_now);
    [apply reachable_inv; page_facts|reflexivity].
Defined.

Lemma view_keys_witness :
  let s' := page_after (before_finish ++ [finish]) in
  ids_distinct (leaderboard (app s'))
  ∧ keys_ok (Layout [ResultScreen_view (currentScore (app s'))
                       (leaderboard (app s')) (example_now + 5)]).
Proof.
  apply (view_keys (H := ref_codec) (page_after before_finish) finish
           (page_after (before_finish ++ [finish])) (example_now + 5));
    [apply reachable_inv; page_facts|compute_done|compute_done|page_facts|].
  vm_compute. reflexivity.
Defined.

Lemma new_entry_highlighted_witness :
  let s := page_after before_finish in
  let s' := page_after (before_finish ++ [finish]) in
  let score := currentScore (app s') in
  let l := leaderboard (app s') in
  let e := newEntry (userName (app s)) score example_uuid example_now in
  imap (result_row score l (example_now + 5)) (slice0 5 l) !! 0%nat
    = Some (result_row score l (example_now + 5) 0 e)
  ∧ node_class (result_row score l (example_now + 5) 0 e)
    = Some (ROW_CLASS ++ ResultScreen.row_highlight).
Proof.
  apply (new_entry_highlighted (H := ref_codec) (page_after before_finish)
           example_uuid example_now (page_after (before_finish ++ [finish]))
           (example_now + 5));
    [apply reachable_inv; page_facts|page_facts|reflexivity|lia|].
  vm_compute. lia.
Defined.
